(** * mycurrency: exchange-rate resolution core

    A shallow embedding of the adapters (src/adapters), the provider manager
    and the exchange-rate service (src/services) and the scheduled tasks
    (src/tasks), with the properties of the specification stated over it.

    Conventions of the embedding:
    - a [datetime.date] is its proleptic Gregorian ordinal ([date.toordinal()]),
      so comparison is [Z] comparison; adding a [timedelta] is [date_add],
      which raises OverflowError outside the calendar ([date.min] is 1,
      [date.max] is 3652059). [date.today()] is taken to be before
      [date.max], so the loop of the remote adapter, which never goes past
      today, adds its day with [+ 1];
    - a [Decimal] is finite: a coefficient and an exponent. [Dec.add] and
      [Dec.mul] are the exact sum and product; the operators of the code
      work in the arithmetic context of the process (28 digits,
      ROUND_HALF_EVEN, exponents up to 999999, traps on Overflow and
      InvalidOperation), which is [Dec.ctx_add], [Dec.ctx_mul] and
      [Dec.ctx_round]. NaN, the infinities and the sign of a zero are outside
      the embedding, and so is a float that is not finite;
    - Python code that raises or mutates process state runs in the monad [M]:
      a function from the process state to an outcome (an exception or a
      value) and the state left behind;
    - what the sources take from the Python runtime (the [random] module,
      float formatting, parsing) is a parameter, the class [PyRuntime];
    - a rate is stored by the column [rate_value], a
      [DecimalField(max_digits=18, decimal_places=6)]: at six places, and
      not at all when that takes more than 18 digits ([Service.to_column]);
      how a rate with more places is rounded, and the error of a save that
      fails, are the database backend's and come with the surroundings;
    - an adapter path is imported by [importlib]: the paths of the
      repository's two adapter classes are known ([Manager.importable]), what
      any other path leads to comes with the surroundings. *)

From stdpp Require Import base numbers list strings gmap sorting pretty.
From Stdlib Require Import ZArith Lia Ascii String.

Set Warnings "-register-all".

Local Open Scope string_scope.
Local Open Scope list_scope.
Local Open Scope Z_scope.

(** ** Decimals *)

Module Dec.

(** A finite [decimal.Decimal]: [coef * 10 ^ expo]. *)
Record decimal := mkDec { coef : Z; expo : Z }.

#[export] Instance decimal_eq_dec : EqDecision decimal.
Proof. solve_decision. Defined.

(** [Decimal('1.000000')], [Decimal('1.08')], ... *)
Definition lit (c e : Z) : decimal := mkDec c e.

(** The integer [1] coerced by [1 + variation]. *)
Definition one : decimal := mkDec 1 0.

(** Rescale to a smaller or equal exponent (exact). *)
Definition coef_at (d : decimal) (e : Z) : Z := coef d * 10 ^ (expo d - e).

Definition add (a b : decimal) : decimal :=
  let e := Z.min (expo a) (expo b) in
  mkDec (coef_at a e + coef_at b e) e.

Definition mul (a b : decimal) : decimal :=
  mkDec (coef a * coef b) (expo a + expo b).

(** Truth value of a Decimal: zero is false. *)
Definition truthy (d : decimal) : bool := negb (coef d =? 0).

(** [n / m] rounded to the nearest integer, ties to even
    ([ROUND_HALF_EVEN], the default context rounding), for [0 < m]. *)
Definition div_half_even (n m : Z) : Z :=
  let q := n / m in
  let r := n mod m in
  if 2 * r <? m then q
  else if m <? 2 * r then q + 1
  else if Z.even q then q else q + 1.

(** [d.quantize(Decimal(1).scaleb(e))]: the value of [d] at exponent [e]. *)
Definition quantize (d : decimal) (e : Z) : decimal :=
  if e <=? expo d then mkDec (coef_at d e) e
  else mkDec (div_half_even (coef d) (10 ^ (e - expo d))) e.

(** [round(d, ndigits)] on a Decimal. *)
Definition round (d : decimal) (ndigits : Z) : decimal := quantize d (- ndigits).


Definition num_ltb (a b : decimal) : bool :=
  let e := Z.min (expo a) (expo b) in coef_at a e <? coef_at b e.

(** *** The arithmetic context

    [decimal.getcontext()], which no code of the repository changes. *)

Definition prec : Z := 28.
Definition Emax : Z := 999999.
Definition Emin : Z := -999999.
(** [context.Etiny()] and [context.Etop()] *)
Definition Etiny : Z := Emin - prec + 1.
Definition Etop : Z := Emax - prec + 1.

Fixpoint digits_of (fuel : nat) (n : Z) : Z :=
  match fuel with
  | O => 0
  | S fuel' => if n <? 10 then 1 else 1 + digits_of fuel' (n / 10)
  end.

(** The number of digits of a coefficient, [len(self._int)]. *)
Definition ndigits (n : Z) : Z :=
  digits_of (S (Z.to_nat (Z.log2 (Z.abs n)))) (Z.abs n).

(** [Decimal._fix]: the exact result of an operation brought into the
    context. A result of more than [prec] digits is rounded to [prec] digits
    (the exponent goes up), a result below the smallest exponent is rounded
    at that exponent, a zero has its exponent clamped; [None] is the signal
    Overflow, which the context traps. *)
Definition _fix (d : decimal) : option decimal :=
  if coef d =? 0 then Some (mkDec 0 (Z.min (Z.max (expo d) Etiny) Emax))
  else
    let exp_min := ndigits (coef d) + expo d - prec in
    if Etop <? exp_min then None
    else
      let exp_min := Z.max exp_min Etiny in
      if expo d <? exp_min then
        let c := if ndigits (coef d) + expo d <? exp_min then 0
                 else div_half_even (coef d) (10 ^ (exp_min - expo d)) in
        if 10 ^ prec <=? Z.abs c then
          if Etop <? exp_min + 1 then None else Some (mkDec (c / 10) (exp_min + 1))
        else Some (mkDec c exp_min)
      else Some d.

(** [a + b] and [a * b] on Decimals. *)
Definition ctx_add (a b : decimal) : option decimal := _fix (add a b).
Definition ctx_mul (a b : decimal) : option decimal := _fix (mul a b).

(** [d.quantize(Decimal(1).scaleb(e))] in a context of [digits] digits, for
    an exponent [e] the context allows: the value of [d] at exponent [e];
    [None] is the signal InvalidOperation, for a result of more digits than
    the context has. *)
Definition ctx_quantize (digits : Z) (d : decimal) (e : Z) : option decimal :=
  let q := quantize d e in
  if 10 ^ digits <=? Z.abs (coef q) then None else Some q.

(** [round(d, ndigits)] on a Decimal, which quantizes in the context of the
    process. *)
Definition ctx_round (d : decimal) (ndigits : Z) : option decimal :=
  ctx_quantize prec d (- ndigits).

(** [d] has no digit beyond the exponent [e]. *)
Definition exact_at (d : decimal) (e : Z) : bool :=
  (e <=? expo d) || (coef d mod 10 ^ (e - expo d) =? 0).

End Dec.
Export Dec.

(** ** Dates *)

Module Date.

(** Year, month and day of an ordinal (days-to-civil conversion of the
    proleptic Gregorian calendar; ordinal 1 is 0001-01-01). *)
Definition ymd (ordinal : Z) : Z * Z * Z :=
  let z := ordinal + 305 in
  let era := z / 146097 in
  let doe := z - era * 146097 in
  let yoe := (doe - doe / 1460 + doe / 36524 - doe / 146096) / 365 in
  let y := yoe + era * 400 in
  let doy := doe - (365 * yoe + yoe / 4 - yoe / 100) in
  let mp := (5 * doy + 2) / 153 in
  let d := doy - (153 * mp + 2) / 5 + 1 in
  let m := if mp <? 10 then mp + 3 else mp - 9 in
  (if m <=? 2 then y + 1 else y, m, d).

Definition year (d : Z) : Z := (ymd d).1.1.
Definition month (d : Z) : Z := (ymd d).1.2.
Definition day (d : Z) : Z := (ymd d).2.

Definition pad (width : nat) (n : Z) : string :=
  let s := pretty n in
  String.concat "" (replicate (width - String.length s) "0") +:+ s.

(** [d.isoformat()], also what [str(d)] and an f-string show. *)
Definition isoformat (d : Z) : string :=
  pad 4 (year d) +:+ "-" +:+ pad 2 (month d) +:+ "-" +:+ pad 2 (day d).

(** [date.min.toordinal()] and [date.max.toordinal()]: 0001-01-01 and
    9999-12-31. *)
Definition min_ordinal : Z := 1.
Definition max_ordinal : Z := 3652059.

(** The most days a [timedelta] holds, either way. *)
Definition max_delta_days : Z := 999999999.

End Date.

(** ** Strings *)

Definition upper_ascii (c : ascii) : ascii :=
  let n := nat_of_ascii c in
  if ((97 <=? n) && (n <=? 122))%nat then ascii_of_nat (n - 32) else c.

(** [str.upper()] on the ASCII range. *)
Fixpoint upper (s : string) : string :=
  match s with
  | EmptyString => EmptyString
  | String c s' => String (upper_ascii c) (upper s')
  end.

(** ** Exceptions *)

(** The exception classes that the modelled code raises or lets through. *)
Inductive exn_class :=
  | ExchangeRateAdapterError
  | ProviderUnavailableError
  | RateNotFoundError
  | ValueError
  | ImportError
  | CurrencyDoesNotExist            (* Currency.DoesNotExist *)
  | RateDoesNotExist                (* CurrencyExchangeRate.DoesNotExist *)
  | ProviderDoesNotExist            (* Provider.DoesNotExist *)
  | MultipleObjectsReturned
  | UnboundLocalError
  | TypeError
  | AttributeError
  | InvalidOperation                (* decimal.InvalidOperation *)
  | DecimalOverflow                 (* decimal.Overflow *)
  | OverflowError
  | DataError.                      (* django.db.utils.DataError *)

#[export] Instance exn_class_eq_dec : EqDecision exn_class.
Proof. solve_decision. Defined.

(** An exception instance; [exn_msg] is what [str(e)] shows. *)
Record exn := Exn { exn_cls : exn_class; exn_msg : string }.

#[export] Instance exn_eq_dec : EqDecision exn.
Proof. solve_decision. Defined.

(** [isinstance(e, ExchangeRateAdapterError)]: the base class of base.py and
    its two subclasses. *)
Definition is_adapter_error (e : exn) : bool :=
  match exn_cls e with
  | ExchangeRateAdapterError | ProviderUnavailableError | RateNotFoundError => true
  | _ => false
  end.

Definition is_rate_not_found (e : exn) : bool :=
  bool_decide (exn_cls e = RateNotFoundError).

(** ** Results of a provider (adapters/base.py) *)

Record ExchangeRateResult := mkResult {
  source_currency : string;
  exchanged_currency : string;
  valuation_date : Z;
  rate_value : decimal;
  provider_name : string
}.

#[export] Instance ExchangeRateResult_eq_dec : EqDecision ExchangeRateResult.
Proof. solve_decision. Defined.

(** ** JSON bodies of the upstream service *)

Inductive json :=
  | JNull
  | JBool (b : bool)
  | JNum (d : decimal)   (* a number, held as the decimal [Decimal(str(x))] gives *)
  | JStr (s : string)
  | JList (l : list json)
  | JDict (items : list (string * json)).

(** [d.get(k)] on the items of a JSON object. *)
Fixpoint items_get (k : string) (items : list (string * json)) : option json :=
  match items with
  | [] => None
  | (k', v) :: rest => if decide (k' = k) then Some v else items_get k rest
  end.

(** Truth value of a JSON value ([if not rates]). *)
Definition json_truthy (j : json) : bool :=
  match j with
  | JNull => false
  | JBool b => b
  | JNum d => Dec.truthy d
  | JStr s => negb (bool_decide (s = ""))
  | JList l => negb (bool_decide (l = []))
  | JDict kv => negb (bool_decide (kv = []))
  end.

Definition is_substring (t s : string) : bool :=
  match String.index 0 t s with Some _ => true | None => false end.

Definition json_is_str (s : string) (j : json) : bool :=
  match j with JStr s' => bool_decide (s' = s) | _ => false end.

(** [target in rates]; [None] is the [TypeError] of a non-container. *)
Definition json_contains (target : string) (rates : json) : option bool :=
  match rates with
  | JDict kv => Some (bool_decide (is_Some (items_get target kv)))
  | JList l => Some (existsb (json_is_str target) l)
  | JStr s => Some (is_substring target s)
  | _ => None
  end.

(** ** The Python runtime the sources rely on *)

Class PyRuntime := {
  float : Type;
  float_eq_dec :: EqDecision float;
  (** state of the process-wide generator of the [random] module *)
  rng_state : Type;
  (** the float a literal denotes, e.g. [0.5], [2.0], [0.05] *)
  float_of_literal : decimal -> float;
  float_neg : float -> float;
  (** [round(x, ndigits)] on a float *)
  float_round : float -> Z -> float;
  (** [Decimal(str(x))] for a float [x] *)
  Decimal_of_float : float -> decimal;
  (** [Decimal(s)] for a string; [None] is [InvalidOperation] *)
  Decimal_of_str : string -> option decimal;
  (** [random.seed(n)] for an integer [n] *)
  random_seed : Z -> rng_state;
  (** [random.uniform(a, b)]: the draw and the generator state after it *)
  random_uniform : float -> float -> rng_state -> float * rng_state;
  (** [date.fromisoformat(s)]; [None] is [ValueError] *)
  date_fromisoformat : string -> option Z;
  (** [str(x)] of a JSON value inside an f-string *)
  str_json : json -> string
}.

(** [Decimal(str(v))] for a JSON value [v]; booleans, null and containers do
    not spell a number. *)
Definition Decimal_of_json `{PyRuntime} (v : json) : option decimal :=
  match v with
  | JNum d => Some d
  | JStr s => Decimal_of_str s
  | _ => None
  end.

(** ** Upstream HTTP service *)

Inductive request :=
  | Latest (base : string)
  | Historical (base : string) (date : Z)
  | Timeseries (base : string) (start_date end_date : Z) (symbols : string).

#[export] Instance request_eq_dec : EqDecision request.
Proof. solve_decision. Defined.

(** What one GET comes back with. *)
Inductive http_outcome :=
  | HttpJson (data : list (string * json))
  | HttpBadBody (detail : string)       (* [response.json()] raises ValueError *)
  | HttpTimeout (detail : string)
  | HttpStatusError (status_code : Z)
  | HttpRequestError (detail : string).

(** ** Stored rates (apps/currencies/models.py) *)

(** A row of [CurrencyExchangeRate]; the two foreign keys are held by the
    code of the currency they point to ([Currency.code] is unique). *)
Record rate_row := mkRow {
  row_source : string;
  row_target : string;
  row_date : Z;
  row_rate : decimal
}.

Definition row_key (r : rate_row) : string * string * Z :=
  (row_source r, row_target r, row_date r).

(** What [importlib] can load under an adapter path: the two adapter classes
    of the repository, or any other object. Of another object the model
    keeps what calling it with the config does: it raises (an abstract class,
    a module, a function of other arguments), or it returns an object that
    has none of the methods of an adapter, of the type named. An object with
    such methods that is not one of the two classes is outside the
    embedding. *)
Inductive adapter_class :=
  | MockAdapterClass
  | CurrencyBeaconAdapterClass
  | Uncallable (e : exn)
  | NoAdapterClass (type_name : string).

(** ** Process state and its surroundings *)

Section Core.
Context `{RT : PyRuntime}.

(** ** Provider configuration (apps/providers/models.py) *)

(** The keys of a provider's [config] that the adapters read. *)
Record config := mkConfig {
  cfg_base_rates : option (gmap (string * string) decimal);
  cfg_volatility : option float;
  cfg_seed : option Z
}.

#[export] Instance config_eq_dec : EqDecision config.
Proof. solve_decision. Defined.

Definition empty_config : config := mkConfig None None None.

Record Provider := mkProvider {
  name : string;
  adapter_path : string;
  priority : Z;
  is_active : bool;
  provider_config : config
}.

(** What a call reads but does not change. *)
Record Env := mkEnv {
  (** [date.today()] *)
  today : Z;
  (** the answer of the upstream service, given the requests sent before *)
  upstream : list request -> request -> http_outcome;
  (** the state [random.seed()] installs from OS entropy, per reseed *)
  os_entropy : nat -> rng_state;
  (** codes of the [Currency] table *)
  currencies : list string;
  (** rows of the [Provider] table *)
  providers : list Provider;
  (** the value the database stores for a rate with digits beyond the sixth
      place: PostgreSQL's numeric(18,6) rounds a tie away from zero, the
      quantize of Django's other backends rounds it to even *)
  db_round : decimal -> decimal;
  (** the error of a save whose rate takes more than 18 digits: DataError
      from PostgreSQL, InvalidOperation from Django's quantize *)
  db_overflow : exn;
  (** what [import_module] and [getattr] make of an adapter path that is not
      one of [Manager.importable]: the object found, or the exception
      raised *)
  import_other : string -> exn + adapter_class
}.

Record world := mkWorld {
  w_rng : rng_state;
  w_reseeds : nat;
  (** django cache, by the triple the key string spells *)
  w_cache : gmap (string * string * Z) ExchangeRateResult;
  (** requests sent upstream, oldest first *)
  w_sent : list request;
  (** calls of [time.sleep(self.rate_limit_delay)] *)
  w_slept : nat;
  (** rows of [CurrencyExchangeRate] *)
  w_rates : list rate_row;
  (** [ProviderManager._adapters_cache]: the key (adapter path and config)
      and the class of the instance held under it *)
  w_adapters : list (string * config * adapter_class);
  (** providers announced by "Trying provider ...", oldest first *)
  w_tried : list string
}.

Definition set_rng (r : rng_state) (w : world) : world :=
  mkWorld r (w_reseeds w) (w_cache w) (w_sent w) (w_slept w) (w_rates w) (w_adapters w) (w_tried w).
Definition set_reseeds (n : nat) (w : world) : world :=
  mkWorld (w_rng w) n (w_cache w) (w_sent w) (w_slept w) (w_rates w) (w_adapters w) (w_tried w).
Definition set_cache (c : gmap (string * string * Z) ExchangeRateResult) (w : world) : world :=
  mkWorld (w_rng w) (w_reseeds w) c (w_sent w) (w_slept w) (w_rates w) (w_adapters w) (w_tried w).
Definition set_sent (s : list request) (w : world) : world :=
  mkWorld (w_rng w) (w_reseeds w) (w_cache w) s (w_slept w) (w_rates w) (w_adapters w) (w_tried w).
Definition set_slept (n : nat) (w : world) : world :=
  mkWorld (w_rng w) (w_reseeds w) (w_cache w) (w_sent w) n (w_rates w) (w_adapters w) (w_tried w).
Definition set_rates (r : list rate_row) (w : world) : world :=
  mkWorld (w_rng w) (w_reseeds w) (w_cache w) (w_sent w) (w_slept w) r (w_adapters w) (w_tried w).
Definition set_adapters (a : list (string * config * adapter_class)) (w : world) : world :=
  mkWorld (w_rng w) (w_reseeds w) (w_cache w) (w_sent w) (w_slept w) (w_rates w) a (w_tried w).
Definition set_tried (t : list string) (w : world) : world :=
  mkWorld (w_rng w) (w_reseeds w) (w_cache w) (w_sent w) (w_slept w) (w_rates w) (w_adapters w) t.

(** ** The monad of Python code: state and exceptions *)

Definition M (A : Type) : Type := world -> (exn + A) * world.

Definition ret {A} (a : A) : M A := fun w => (inr a, w).

Definition raise {A} (c : exn_class) (msg : string) : M A := fun w => (inl (Exn c msg), w).

Definition reraise {A} (e : exn) : M A := fun w => (inl e, w).

Definition bind {A B} (m : M A) (k : A -> M B) : M B :=
  fun w => match m w with
           | (inr a, w') => k a w'
           | (inl e, w') => (inl e, w')
           end.

(** [try: body  except Exception as e: handler(e)]; the state the body
    reached is kept. *)
Definition try_except {A} (body : M A) (handler : exn -> M A) : M A :=
  fun w => match body w with
           | (inr a, w') => (inr a, w')
           | (inl e, w') => handler e w'
           end.

(** Run [body] and hand back its outcome; never raises. *)
Definition attempt {A} (body : M A) : M (exn + A) :=
  fun w => match body w with (o, w') => (inr o, w') end.

Definition get_world : M world := fun w => (inr w, w).
Definition modify (f : world -> world) : M unit := fun w => (inr tt, f w).

(** An outcome that does not depend on the process state. *)
Definition lift {A} (o : exn + A) : M A := fun w => (o, w).

(** ** Decimal arithmetic of the code

    The signals Overflow and InvalidOperation are trapped by the context:
    they are raised as exceptions. *)

Definition overflow_signal : exn := Exn DecimalOverflow "[<class 'decimal.Overflow'>]".
Definition invalid_operation : exn :=
  Exn InvalidOperation "[<class 'decimal.InvalidOperation'>]".

Definition trap (e : exn) (o : option decimal) : exn + decimal :=
  match o with Some d => inr d | None => inl e end.

(** [a + b], [a * b] and [round(d, ndigits)] *)
Definition dec_add (a b : decimal) : M decimal := lift (trap overflow_signal (Dec.ctx_add a b)).
Definition dec_mul (a b : decimal) : M decimal := lift (trap overflow_signal (Dec.ctx_mul a b)).
Definition dec_round (d : decimal) (ndigits : Z) : M decimal :=
  lift (trap invalid_operation (Dec.ctx_round d ndigits)).

(** ** Date arithmetic of the code *)

(** [timedelta(days=days)] *)
Definition timedelta (days : Z) : exn + Z :=
  if Z.abs days <=? Date.max_delta_days then inr days
  else inl (Exn OverflowError
              (if (- 2 ^ 31 <=? days) && (days <? 2 ^ 31)
               then "days=" +:+ pretty days +:+ "; must have magnitude <= 999999999"
               else "Python int too large to convert to C int")).

(** [d + timedelta(days=days)] *)
Definition date_plus (d days : Z) : exn + Z :=
  match timedelta days with
  | inr delta =>
      if (Date.min_ordinal <=? d + delta) && (d + delta <=? Date.max_ordinal)
      then inr (d + delta)
      else inl (Exn OverflowError "date value out of range")
  | inl e => inl e
  end.

Definition date_add (d days : Z) : M Z := lift (date_plus d days).

End Core.

Notation "'do' x <- c1 ;; c2" := (bind c1 (fun x => c2))
  (at level 10, x name, c1 at level 99, c2 at level 200).
Notation "c1 ;;; c2" := (bind c1 (fun _ => c2))
  (at level 100, c2 at level 200, right associativity).

(** ** adapters/mock.py *)

Module Mock.
Section Mock.
Context `{RT : PyRuntime} (E : Env).

(** [random.seed(n)] *)
Definition seed_int (n : Z) : M unit := modify (set_rng (random_seed n)).

(** [random.seed()]: a fresh state from OS entropy. *)
Definition seed_entropy : M unit :=
  modify (fun w => set_reseeds (S (w_reseeds w)) (set_rng (os_entropy E (w_reseeds w)) w)).

(** [random.uniform(a, b)] on the process-wide generator. *)
Definition uniform (a b : float) : M float :=
  fun w => let (x, r) := random_uniform a b (w_rng w) in (inr x, set_rng r w).

Definition DEFAULT_BASE_RATES : gmap (string * string) decimal :=
  list_to_map [
    (("EUR", "USD"), lit 108 (-2));
    (("EUR", "GBP"), lit 86 (-2));
    (("EUR", "CHF"), lit 94 (-2));
    (("USD", "EUR"), lit 93 (-2));
    (("USD", "GBP"), lit 79 (-2));
    (("USD", "CHF"), lit 87 (-2));
    (("GBP", "EUR"), lit 116 (-2));
    (("GBP", "USD"), lit 127 (-2));
    (("GBP", "CHF"), lit 110 (-2));
    (("CHF", "EUR"), lit 106 (-2));
    (("CHF", "USD"), lit 115 (-2));
    (("CHF", "GBP"), lit 91 (-2))
  ].

Definition name : string := "Mock Provider".

(** The attributes [__init__] sets. *)
Record MockAdapter := mkMock {
  base_rates : gmap (string * string) decimal;
  volatility : float
}.

(** [self.base_rates] and [self.volatility] for a config. *)
Definition configured (config : config) : MockAdapter :=
  mkMock (default DEFAULT_BASE_RATES (cfg_base_rates config))
         (default (float_of_literal (lit 5 (-2))) (cfg_volatility config)).

Definition init (config : option config) : M MockAdapter :=
  let config := default empty_config config in
  let self := configured config in
  match cfg_seed config with
  | Some seed => seed_int seed ;;; ret self
  | None => ret self
  end.

(** The two legs of the EUR pivot of [_get_base_rate]: both present and
    truthy. *)
Definition via_eur (self : MockAdapter) (source_currency exchanged_currency : string)
  : option (decimal * decimal) :=
  if decide (upper source_currency <> "EUR") then
    match base_rates self !! (upper source_currency, "EUR"),
          base_rates self !! ("EUR", upper exchanged_currency) with
    | Some source_to_eur, Some eur_to_target =>
        if Dec.truthy source_to_eur && Dec.truthy eur_to_target
        then Some (source_to_eur, eur_to_target) else None
    | _, _ => None
    end
  else None.

Definition _get_base_rate (self : MockAdapter) (source_currency exchanged_currency : string)
  : M decimal :=
  let key := (upper source_currency, upper exchanged_currency) in
  match base_rates self !! key with
  | Some rate => ret rate
  | None =>
      match via_eur self source_currency exchanged_currency with
      | Some (source_to_eur, eur_to_target) => dec_mul source_to_eur eur_to_target
      | None =>
          do x <- uniform (float_of_literal (lit 5 (-1))) (float_of_literal (lit 20 (-1))) ;;
          ret (Decimal_of_float (float_round x 6))
      end
  end.

Definition date_factor (valuation_date : Z) : Z :=
  Date.year valuation_date * 10000 + Date.month valuation_date * 100 + Date.day valuation_date.

Definition _apply_variation (self : MockAdapter) (base_rate : decimal) (valuation_date : Z)
  : M decimal :=
  seed_int (date_factor valuation_date) ;;;
  do x <- uniform (float_neg (volatility self)) (volatility self) ;;
  let variation := Decimal_of_float x in
  do factor <- dec_add Dec.one variation ;;
  do varied_rate <- dec_mul base_rate factor ;;
  seed_entropy ;;;
  dec_round varied_rate 6.

Definition get_exchange_rate (self : MockAdapter)
    (source_currency exchanged_currency : string) (valuation_date : Z)
  : M ExchangeRateResult :=
  do rate_value <-
    (if decide (upper source_currency = upper exchanged_currency)
     then ret (lit 1000000 (-6))
     else do base_rate <- _get_base_rate self source_currency exchanged_currency ;;
          _apply_variation self base_rate valuation_date) ;;
  ret (mkResult (upper source_currency) (upper exchanged_currency)
                valuation_date rate_value name).

(** The [for target in target_currencies] loop. *)
Fixpoint rates_for_targets (self : MockAdapter) (source_currency : string)
    (valuation_date : Z) (targets : list string) (results : list ExchangeRateResult)
  : M (list ExchangeRateResult) :=
  match targets with
  | [] => ret results
  | target :: rest =>
      if decide (upper target <> upper source_currency) then
        do r <- get_exchange_rate self source_currency target valuation_date ;;
        rates_for_targets self source_currency valuation_date rest (results ++ [r])
      else rates_for_targets self source_currency valuation_date rest results
  end.

Definition get_exchange_rates_for_date (self : MockAdapter) (source_currency : string)
    (valuation_date : Z) (target_currencies : option (list string))
  : M (list ExchangeRateResult) :=
  let target_currencies := default ["EUR"; "USD"; "GBP"; "CHF"] target_currencies in
  rates_for_targets self source_currency valuation_date target_currencies [].

(** The [while current_date <= end_date] loop, each pass ending with
    [current_date += timedelta(days=1)]; [fuel] bounds the number of
    iterations, [Z.to_nat (end_date - current_date + 1)] suffices. *)
Fixpoint historical_loop (fuel : nat) (self : MockAdapter)
    (source_currency exchanged_currency : string) (end_date current_date : Z)
    (results : list ExchangeRateResult) : M (list ExchangeRateResult) :=
  match fuel with
  | O => ret results
  | S fuel' =>
      if current_date <=? end_date then
        do r <- get_exchange_rate self source_currency exchanged_currency current_date ;;
        do next_date <- date_add current_date 1 ;;
        historical_loop fuel' self source_currency exchanged_currency end_date
                        next_date (results ++ [r])
      else ret results
  end.

Definition get_historical_rates (self : MockAdapter)
    (source_currency exchanged_currency : string) (start_date end_date : Z)
  : M (list ExchangeRateResult) :=
  historical_loop (Z.to_nat (end_date - start_date + 1)) self
                  source_currency exchanged_currency end_date start_date [].

(** Inherited from [BaseExchangeRateAdapter]. *)
Definition get_latest_rate (self : MockAdapter) (source_currency exchanged_currency : string)
  : M ExchangeRateResult :=
  get_exchange_rate self source_currency exchanged_currency (today E).

End Mock.
End Mock.

(** ** Sorting by valuation date *)

(** [sorted(results, key=lambda r: r.valuation_date)]: a stable sort, written
    as the insertion of each quote in front of the sorted rest. *)
Fixpoint insert_by_date (r : ExchangeRateResult) (l : list ExchangeRateResult)
  : list ExchangeRateResult :=
  match l with
  | [] => [r]
  | r' :: l' =>
      if valuation_date r <=? valuation_date r' then r :: l
      else r' :: insert_by_date r l'
  end.

Definition sorted_by_date (results : list ExchangeRateResult) : list ExchangeRateResult :=
  foldr insert_by_date [] results.

(** ** adapters/currencybeacon.py *)

Module Beacon.
Section Beacon.
Context `{RT : PyRuntime} (E : Env).

Definition name : string := "CurrencyBeacon".

Definition max_errors : Z := 5.

(** [cache.get(cache_key)] and [cache.set(cache_key, result, self.cache_ttl)];
    an entry that has outlived its TTL is an entry that is not in [w_cache]. *)
Definition cache_get (key : string * string * Z) : M (option ExchangeRateResult) :=
  fun w => (inr (w_cache w !! key), w).

Definition cache_set (key : string * string * Z) (result : ExchangeRateResult) : M unit :=
  modify (fun w => set_cache (<[key := result]> (w_cache w)) w).

(** [time.sleep(self.rate_limit_delay)] *)
Definition sleep : M unit := modify (fun w => set_slept (S (w_slept w)) w).

Definition status_message (status_code : Z) : string :=
  if status_code =? 401 then "CurrencyBeacon authentication failed: Invalid API key"
  else if status_code =? 403 then
    "CurrencyBeacon access forbidden: Your plan does not support this endpoint. "
    +:+ "The /timeseries endpoint requires a Startup or Pro plan."
  else if status_code =? 429 then
    "CurrencyBeacon rate limit exceeded. Please upgrade your plan or reduce request frequency."
  else "CurrencyBeacon HTTP error " +:+ pretty status_code.

Definition _make_request (req : request) : M (list (string * json)) :=
  do w <- get_world ;;
  modify (set_sent (w_sent w ++ [req])) ;;;
  match upstream E (w_sent w) req with
  | HttpJson data =>
      match items_get "error" data with
      | Some err =>
          raise ProviderUnavailableError ("CurrencyBeacon API error: " +:+ str_json err)
      | None => ret data
      end
  | HttpBadBody detail => raise ValueError detail
  | HttpTimeout detail =>
      raise ProviderUnavailableError ("CurrencyBeacon request timed out: " +:+ detail)
  | HttpStatusError status_code =>
      raise ProviderUnavailableError (status_message status_code)
  | HttpRequestError detail =>
      raise ProviderUnavailableError ("CurrencyBeacon request failed: " +:+ detail)
  end.

(** [rates = data.get('rates', {})], and when that is falsy the nested
    [response.rates] if [response] is a dict. *)
Definition find_rates (data : list (string * json)) : json :=
  let rates := default (JDict []) (items_get "rates" data) in
  if json_truthy rates then rates
  else match default (JDict []) (items_get "response" data) with
       | JDict response => default (JDict []) (items_get "rates" response)
       | _ => rates
       end.

(** [if target not in rates: raise RateNotFoundError(...)] followed by
    [Decimal(str(rates[target]))]. *)
Definition rate_of_target (target not_found : string) (rates : json) : M decimal :=
  match json_contains target rates with
  | None => raise TypeError "argument is not iterable"
  | Some false => raise RateNotFoundError not_found
  | Some true =>
      match rates with
      | JDict items =>
          match items_get target items with
          | Some v =>
              match Decimal_of_json v with
              | Some d => ret d
              | None => raise InvalidOperation "ConversionSyntax"
              end
          | None => raise RateNotFoundError not_found
          end
      | _ => raise TypeError "indices must be integers"
      end
  end.

Definition is_unavailable_or_not_found (e : exn) : bool :=
  match exn_cls e with
  | ProviderUnavailableError | RateNotFoundError => true
  | _ => false
  end.

Definition get_exchange_rate (source_currency exchanged_currency : string) (valuation_date : Z)
  : M ExchangeRateResult :=
  let source := upper source_currency in
  let target := upper exchanged_currency in
  if decide (source = target) then
    ret (mkResult source target valuation_date (lit 1000000 (-6)) name)
  else
    let cache_key := (source, target, valuation_date) in
    do cached_result <- cache_get cache_key ;;
    match cached_result with
    | Some result => ret result
    | None =>
        let today := today E in
        let valuation_date := if today <? valuation_date then today else valuation_date in
        try_except
          (do data <- (if today <=? valuation_date
                       then _make_request (Latest source)
                       else _make_request (Historical source valuation_date)) ;;
           let actual_date := if today <=? valuation_date then today else valuation_date in
           let rates := find_rates data in
           do rate_value <-
             rate_of_target target
               ("Rate not found for " +:+ source +:+ " -> " +:+ target +:+ " on "
                +:+ Date.isoformat valuation_date) rates ;;
           let result := mkResult source target actual_date rate_value name in
           cache_set cache_key result ;;;
           ret result)
          (fun e =>
             if is_unavailable_or_not_found e then reraise e
             else raise ProviderUnavailableError ("Unexpected error: " +:+ exn_msg e))
    end.

(** Reading a local variable; [None] is a local that no assignment has
    reached yet. *)
Definition read_local {A} (var : string) (value : option A) : M A :=
  match value with
  | Some v => ret v
  | None =>
      raise UnboundLocalError
        ("cannot access local variable '" +:+ var
         +:+ "' where it is not associated with a value")
  end.

(** [rates.items()] *)
Definition json_items (rates : json) : M (list (string * json)) :=
  match rates with
  | JDict items => ret items
  | _ => raise AttributeError "object has no attribute 'items'"
  end.

(** The [for currency, rate in rates.items()] loop of
    [get_exchange_rates_for_date]. *)
Fixpoint quotes_of_items (source : string) (actual_date : Z)
    (items : list (string * json)) (results : list ExchangeRateResult)
  : M (list ExchangeRateResult) :=
  match items with
  | [] => ret results
  | (currency, rate) :: rest =>
      if decide (currency <> source) then
        match Decimal_of_json rate with
        | Some d =>
            let result := mkResult source currency actual_date d name in
            cache_set (source, currency, actual_date) result ;;;
            quotes_of_items source actual_date rest (results ++ [result])
        | None => raise InvalidOperation "ConversionSyntax"
        end
      else quotes_of_items source actual_date rest results
  end.

Definition get_exchange_rates_for_date (source_currency : string) (valuation_date : Z)
    (target_currencies : option (list string)) : M (list ExchangeRateResult) :=
  let source := upper source_currency in
  let today := today E in
  let valuation_date := if today <? valuation_date then today else valuation_date in
  try_except
    (do data <- (if today <=? valuation_date
                 then _make_request (Latest source)
                 else _make_request (Historical source valuation_date)) ;;
     let actual_date := if today <=? valuation_date then today else valuation_date in
     (* no assignment to [rates] precedes [if not rates:] *)
     let rates : option json := None in
     do rates0 <- read_local "rates" rates ;;
     let rates :=
       if json_truthy rates0 then rates0
       else match default (JDict []) (items_get "response" data) with
            | JDict response => default (JDict []) (items_get "rates" response)
            | _ => rates0
            end in
     do items <- json_items rates ;;
     let items :=
       match target_currencies with
       | Some (c :: cs) =>
           let target_set := map upper (c :: cs) in
           filter (fun kv => kv.1 ∈ target_set) items
       | _ => items
       end in
     quotes_of_items source actual_date items [])
    (fun e => raise ProviderUnavailableError ("Failed to get rates: " +:+ exn_msg e)).

(** One pass of the [while] loop of [_fallback_historical_rates] is the
    [try] block: the cached quote of the date or a single-date lookup. *)
Definition fallback_lookup (source target : string) (current_date : Z)
  : M ExchangeRateResult :=
  do cached_result <- cache_get (source, target, current_date) ;;
  match cached_result with
  | Some result => ret result
  | None => get_exchange_rate source target current_date
  end.

(** The [while current_date <= end_date and current_date <= today] loop with
    its locals [results] and [error_count]; [fuel] bounds the number of
    iterations, [Z.to_nat (end_date - current_date + 1)] suffices. The date
    of a pass is at or before today, so its [+ timedelta(days=1)] stays in
    the calendar. *)
Fixpoint fallback_loop (fuel : nat) (source target : string) (end_date current_date : Z)
    (results : list ExchangeRateResult) (error_count : Z)
  : M (list ExchangeRateResult) :=
  match fuel with
  | O => ret results
  | S fuel' =>
      if (current_date <=? end_date) && (current_date <=? today E) then
        do outcome <- attempt (fallback_lookup source target current_date) ;;
        match outcome with
        | inr result =>
            sleep ;;;
            fallback_loop fuel' source target end_date (current_date + 1)
                          (results ++ [result]) 0
        | inl e =>
            if is_rate_not_found e then
              sleep ;;;
              fallback_loop fuel' source target end_date (current_date + 1) results 0
            else
              let error_count := error_count + 1 in
              if max_errors <=? error_count then ret results
              else
                sleep ;;;
                fallback_loop fuel' source target end_date (current_date + 1)
                              results error_count
        end
      else ret results
  end.

Definition _fallback_historical_rates (source target : string) (start_date end_date : Z)
  : M (list ExchangeRateResult) :=
  do results <- fallback_loop (Z.to_nat (end_date - start_date + 1)) source target
                              end_date start_date [] 0 ;;
  ret (sorted_by_date results).

(** [date_str.split('T')[0]] *)
Fixpoint before_T (s : string) : string :=
  match s with
  | EmptyString => EmptyString
  | String c s' => if decide (c = "T"%char) then EmptyString else String c (before_T s')
  end.

Definition parse_entry_date (date_str : string) : option Z :=
  if is_substring "T" date_str then date_fromisoformat (before_T date_str)
  else date_fromisoformat date_str.

(** The rate of one /timeseries entry: nested by target currency, or a bare
    scalar; [None] for an entry that is skipped. *)
Definition parse_entry_rate (target : string) (rates : json) : option decimal :=
  match rates with
  | JDict items =>
      match items_get target items with
      | Some v => Decimal_of_json v
      | None => None
      end
  | JNum d => Some d
  | JStr s => Decimal_of_str s
  | _ => None
  end.

(** The [for date_str, rates in response.items()] loop. *)
Fixpoint timeseries_entries (source target : string) (entries : list (string * json))
    (results : list ExchangeRateResult) : M (list ExchangeRateResult) :=
  match entries with
  | [] => ret results
  | (date_str, rates) :: rest =>
      match parse_entry_date date_str, parse_entry_rate target rates with
      | Some rate_date, Some rate_value =>
          let result := mkResult source target rate_date rate_value name in
          cache_set (source, target, rate_date) result ;;;
          timeseries_entries source target rest (results ++ [result])
      | _, _ => timeseries_entries source target rest results
      end
  end.

(** [data.get('response', data.get('rates', {}))] *)
Definition timeseries_container (data : list (string * json)) : json :=
  match items_get "response" data with
  | Some response => response
  | None => default (JDict []) (items_get "rates" data)
  end.

Definition get_historical_rates (source_currency exchanged_currency : string)
    (start_date end_date : Z) : M (list ExchangeRateResult) :=
  let source := upper source_currency in
  let target := upper exchanged_currency in
  if end_date <? start_date then raise ValueError "start_date must be before end_date"
  else
    let today := today E in
    if today <? start_date then ret []
    else
      let end_date := if today <? end_date then today else end_date in
      try_except
        (do data <- _make_request (Timeseries source start_date end_date target) ;;
         match timeseries_container data with
         | JList _ => _fallback_historical_rates source target start_date end_date
         | JDict entries =>
             do results <- timeseries_entries source target entries [] ;;
             match results with
             | _ :: _ => ret (sorted_by_date results)
             | [] => _fallback_historical_rates source target start_date end_date
             end
         | _ => _fallback_historical_rates source target start_date end_date
         end)
        (fun e => _fallback_historical_rates source target start_date end_date).

Definition get_latest_rate (source_currency exchanged_currency : string)
  : M ExchangeRateResult :=
  let source := upper source_currency in
  let target := upper exchanged_currency in
  if decide (source = target) then
    ret (mkResult source target (today E) (lit 1000000 (-6)) name)
  else
    let today := today E in
    let cache_key := (source, target, today) in
    do cached_result <- cache_get cache_key ;;
    match cached_result with
    | Some result => ret result
    | None =>
        try_except
          (do data <- _make_request (Latest source) ;;
           let rates := find_rates data in
           do rate_value <-
             rate_of_target target
               ("Latest rate not found for " +:+ source +:+ " -> " +:+ target) rates ;;
           let result := mkResult source target today rate_value name in
           cache_set cache_key result ;;;
           ret result)
          (fun e =>
             raise ProviderUnavailableError ("Failed to get latest rate: " +:+ exn_msg e))
    end.

End Beacon.
End Beacon.

(** ** services/provider_manager.py *)

Module Manager.
Section Manager.
Context `{RT : PyRuntime} (E : Env).

(** [BaseExchangeRateAdapter]: what every adapter offers. *)
Record Adapter := mkAdapter {
  adapter_name : string;
  get_exchange_rate : string -> string -> Z -> M ExchangeRateResult;
  get_exchange_rates_for_date :
    string -> Z -> option (list string) -> M (list ExchangeRateResult);
  get_historical_rates : string -> string -> Z -> Z -> M (list ExchangeRateResult);
  get_latest_rate : string -> string -> M ExchangeRateResult
}.

Definition mock_adapter (self : Mock.MockAdapter) : Adapter :=
  mkAdapter Mock.name
            (Mock.get_exchange_rate E self)
            (Mock.get_exchange_rates_for_date E self)
            (Mock.get_historical_rates E self)
            (Mock.get_latest_rate E self).

Definition beacon_adapter : Adapter :=
  mkAdapter Beacon.name
            (Beacon.get_exchange_rate E)
            (Beacon.get_exchange_rates_for_date E)
            (Beacon.get_historical_rates E)
            (Beacon.get_latest_rate E).

(** The no-adapter object of type [type_name]: looking up a method on it
    raises AttributeError. *)
Definition no_method {A} (type_name attr : string) : M A :=
  raise AttributeError
        ("'" +:+ type_name +:+ "' object has no attribute '" +:+ attr +:+ "'").

Definition no_adapter (type_name : string) : Adapter :=
  mkAdapter type_name
            (fun _ _ _ => no_method type_name "get_exchange_rate")
            (fun _ _ _ => no_method type_name "get_exchange_rates_for_date")
            (fun _ _ _ _ => no_method type_name "get_historical_rates")
            (fun _ _ => no_method type_name "get_latest_rate").

(** The paths of the adapter classes of the repository: the class in its
    module, and as the package [adapters] exports it. *)
Definition importable (adapter_path : string) : option adapter_class :=
  if decide (adapter_path = "adapters.mock.MockAdapter") then Some MockAdapterClass
  else if decide (adapter_path = "adapters.MockAdapter") then Some MockAdapterClass
  else if decide (adapter_path = "adapters.currencybeacon.CurrencyBeaconAdapter")
  then Some CurrencyBeaconAdapterClass
  else if decide (adapter_path = "adapters.CurrencyBeaconAdapter")
  then Some CurrencyBeaconAdapterClass
  else None.

(** [except (ValueError, ImportError, AttributeError)] *)
Definition is_import_failure (e : exn) : bool :=
  match exn_cls e with
  | ValueError | ImportError | AttributeError => true
  | _ => false
  end.

(** [rsplit], [import_module] and [getattr]: the object the path names; a
    failure of one of the three is raised again as ImportError, with its
    message after the path. *)
Definition _import_adapter_class (adapter_path : string) : M adapter_class :=
  match importable adapter_path with
  | Some cls => ret cls
  | None =>
      match import_other E adapter_path with
      | inr cls => ret cls
      | inl e =>
          if is_import_failure e then
            raise ImportError
                  ("Cannot import adapter class '" +:+ adapter_path +:+ "': " +:+ exn_msg e)
          else reraise e
      end
  end.

(** The instance [adapter_class(config)] leaves in the cache (an object
    that cannot be called leaves none). *)
Definition instance_of (cls : adapter_class) (config : config) : Adapter :=
  match cls with
  | MockAdapterClass => mock_adapter (Mock.configured config)
  | CurrencyBeaconAdapterClass => beacon_adapter
  | Uncallable _ => no_adapter ""
  | NoAdapterClass type_name => no_adapter type_name
  end.

(** [adapter_class(config)]: the constructor, with its effect on the
    process-wide generator. *)
Definition construct (cls : adapter_class) (config : config) : M Adapter :=
  match cls with
  | MockAdapterClass => do self <- Mock.init (Some config) ;; ret (mock_adapter self)
  | CurrencyBeaconAdapterClass => ret beacon_adapter
  | Uncallable e => reraise e
  | NoAdapterClass type_name => ret (no_adapter type_name)
  end.

Fixpoint cached_class (key : string * config)
    (cache : list (string * config * adapter_class)) : option adapter_class :=
  match cache with
  | [] => None
  | (k, cls) :: rest => if decide (k = key) then Some cls else cached_class key rest
  end.

Definition get_adapter (adapter_path : string) (config : config) : M Adapter :=
  let cache_key := (adapter_path, config) in
  do w <- get_world ;;
  match cached_class cache_key (w_adapters w) with
  | Some cls => ret (instance_of cls config)
  | None =>
      do adapter_class <- _import_adapter_class adapter_path ;;
      do adapter <- construct adapter_class config ;;
      modify (fun w => set_adapters ((cache_key, adapter_class) :: w_adapters w) w) ;;;
      ret adapter
  end.

(** [order_by('priority', 'name')] *)
Definition provider_leb (p q : Provider) : bool :=
  (priority p <? priority q)
  || ((priority p =? priority q) && String.leb (name p) (name q)).

Fixpoint insert_provider (p : Provider) (l : list Provider) : list Provider :=
  match l with
  | [] => [p]
  | q :: l' => if provider_leb p q then p :: l else q :: insert_provider p l'
  end.

Definition order_by_priority_name (l : list Provider) : list Provider :=
  foldr insert_provider [] l.

(** [Provider.objects.filter(is_active=True).order_by('priority', 'name')] *)
Definition get_active_providers : list Provider :=
  order_by_priority_name (filter (fun p => is_active p = true) (providers E)).

Definition get_adapter_for_provider (provider : Provider) : M Adapter :=
  get_adapter (adapter_path provider) (provider_config provider).

(** [logger.info("Trying provider ...")] *)
Definition log_trying (provider : Provider) : M unit :=
  modify (fun w => set_tried (w_tried w ++ [name provider]) w).

(** The body of the [try] of [execute_with_failover] for one provider. *)
Definition try_provider {R} (operation : Adapter -> M R) (provider : Provider) : M R :=
  do adapter <- get_adapter_for_provider provider ;;
  log_trying provider ;;;
  operation adapter.

(** The [for provider in providers] loop with its local [last_error], and
    what follows the loop. *)
Fixpoint failover_loop {R} (operation : Adapter -> M R) (providers : list Provider)
    (last_error : option exn) : M R :=
  match providers with
  | [] =>
      let error_msg :=
        match last_error with
        | Some e => "All providers failed. Last error: " +:+ exn_msg e
        | None => "All providers failed"
        end in
      raise ExchangeRateAdapterError error_msg
  | provider :: rest =>
      try_except
        (try_provider operation provider)
        (fun e =>
           if is_adapter_error e then failover_loop operation rest (Some e)
           else reraise e)
  end.

Definition execute_with_failover {R} (operation : Adapter -> M R) : M R :=
  let providers := get_active_providers in
  match providers with
  | [] => raise ExchangeRateAdapterError "No active exchange rate providers configured"
  | _ :: _ => failover_loop operation providers None
  end.

Definition clear_cache : M unit := modify (set_adapters []).

End Manager.
End Manager.

(** ** services/exchange_rate_service.py *)

Module Service.
Section Service.
Context `{RT : PyRuntime} (E : Env).

Import Manager.

Definition has_key (key : string * string * Z) (r : rate_row) : bool :=
  bool_decide (row_key r = key).

(** [CurrencyExchangeRate.objects.get(...)] *)
Definition rates_get (key : string * string * Z) : M rate_row :=
  do w <- get_world ;;
  match List.filter (has_key key) (w_rates w) with
  | [] => raise RateDoesNotExist "CurrencyExchangeRate matching query does not exist."
  | [row] => ret row
  | _ => raise MultipleObjectsReturned "get() returned more than one CurrencyExchangeRate"
  end.

(** [except cls:] for a class without subclasses in the model. *)
Definition is_instance (cls : exn_class) (e : exn) : bool :=
  bool_decide (exn_cls e = cls).

Definition _get_rate_from_db (source_currency exchanged_currency : string)
    (valuation_date : Z) : M (option rate_row) :=
  try_except
    (do row <- rates_get (source_currency, exchanged_currency, valuation_date) ;;
     ret (Some row))
    (fun e => if is_instance RateDoesNotExist e then ret None else reraise e).

(** [Currency.objects.get(code=code)]; the result is held by its code. *)
Definition currency_get (code : string) : M string :=
  if decide (code ∈ currencies E) then ret code
  else raise CurrencyDoesNotExist "Currency matching query does not exist.".

(** [name__iexact] *)
Definition iexact (a b : string) : bool := bool_decide (upper a = upper b).

(** [Provider.objects.get(name__iexact=provider_name, is_active=True)] *)
Definition provider_get (provider_name : string) : M Provider :=
  match List.filter (fun p => is_active p && iexact (name p) provider_name) (providers E) with
  | [] => raise ProviderDoesNotExist "Provider matching query does not exist."
  | [provider] => ret provider
  | _ => raise MultipleObjectsReturned "get() returned more than one Provider"
  end.

(** [if provider_name:] on an [Optional[str]] *)
Definition given (provider_name : option string) : option string :=
  match provider_name with
  | Some "" => None
  | other => other
  end.

Definition _fetch_from_provider (source_currency exchanged_currency : string)
    (valuation_date : Z) (provider_name : option string) : M ExchangeRateResult :=
  let fetch_operation := fun adapter : Adapter =>
    get_exchange_rate adapter source_currency exchanged_currency valuation_date in
  match given provider_name with
  | Some provider_name =>
      try_except
        (do provider <- provider_get provider_name ;;
         do adapter <- get_adapter_for_provider E provider ;;
         fetch_operation adapter)
        (fun e =>
           if is_instance ProviderDoesNotExist e then
             raise ExchangeRateAdapterError
                   ("Provider '" +:+ provider_name +:+ "' not found or inactive")
           else reraise e)
  | None => execute_with_failover E fetch_operation
  end.

(** What the column [rate_value], a [DecimalField(max_digits=18,
    decimal_places=6)], holds for the rate it is given: the rate at six
    places, exactly when it has no digit beyond the sixth and as the
    database rounds it otherwise; a rate that takes more than 18 digits
    there fails the save. *)
Definition column_value (rate_value : decimal) : decimal :=
  if Dec.exact_at rate_value (-6) then Dec.quantize rate_value (-6)
  else db_round E rate_value.

Definition to_column (rate_value : decimal) : M decimal :=
  let stored := column_value rate_value in
  if Z.abs (coef stored) <? 10 ^ 18 then ret stored else reraise (db_overflow E).

(** [CurrencyExchangeRate.objects.update_or_create(source_currency=...,
    exchanged_currency=..., valuation_date=..., defaults={'rate_value': ...})]:
    the model instance and whether it was created. The table gets the rate
    as the column holds it; the instance returned keeps the rate it was
    given. *)
Definition update_or_create (source target : string) (valuation_date : Z)
    (rate_value : decimal) : M (rate_row * bool) :=
  let key := (source, target, valuation_date) in
  let instance := mkRow source target valuation_date rate_value in
  do w <- get_world ;;
  match List.filter (has_key key) (w_rates w) with
  | [] =>
      do stored <- to_column rate_value ;;
      modify (set_rates (w_rates w ++ [mkRow source target valuation_date stored])) ;;;
      ret (instance, true)
  | [_] =>
      do stored <- to_column rate_value ;;
      let row := mkRow source target valuation_date stored in
      modify (set_rates (map (fun r => if has_key key r then row else r) (w_rates w))) ;;;
      ret (instance, false)
  | _ => raise MultipleObjectsReturned "get() returned more than one CurrencyExchangeRate"
  end.

Definition _save_rate_to_db (result : ExchangeRateResult) : M rate_row :=
  do source <- currency_get (source_currency result) ;;
  do target <- currency_get (exchanged_currency result) ;;
  do rc <- update_or_create source target (valuation_date result) (rate_value result) ;;
  ret rc.1.

Definition get_exchange_rate_data (source_currency exchanged_currency : string)
    (valuation_date : Z) (provider : option string) : M rate_row :=
  let source_currency := upper source_currency in
  let exchanged_currency := upper exchanged_currency in
  do existing_rate <- _get_rate_from_db source_currency exchanged_currency valuation_date ;;
  match existing_rate with
  | Some existing_rate => ret existing_rate
  | None =>
      do result <- _fetch_from_provider source_currency exchanged_currency
                                        valuation_date provider ;;
      _save_rate_to_db result
  end.

(** The dict [convert_amount] returns. *)
Record conversion := mkConversion {
  conv_source_currency : string;
  conv_exchanged_currency : string;
  original_amount : decimal;
  converted_amount : decimal;
  conv_rate_value : decimal;
  conv_valuation_date : Z
}.

Definition convert_amount (source_currency exchanged_currency : string)
    (amount : decimal) (valuation_date : option Z) : M conversion :=
  let valuation_date := default (today E) valuation_date in
  let source_currency := upper source_currency in
  let exchanged_currency := upper exchanged_currency in
  if decide (source_currency = exchanged_currency) then
    ret (mkConversion source_currency exchanged_currency amount amount
                      (lit 1000000 (-6)) valuation_date)
  else
    do rate <- get_exchange_rate_data source_currency exchanged_currency
                                      valuation_date None ;;
    do converted_amount <- dec_mul amount (row_rate rate) ;;
    do rounded <- dec_round converted_amount 2 ;;
    ret (mkConversion source_currency exchanged_currency amount
                      rounded (row_rate rate) valuation_date).

(** [with transaction.atomic():] the rows written by a body that raises are
    rolled back. *)
Definition atomic {A} (body : M A) : M A :=
  fun w => match body w with
           | (inr a, w') => (inr a, w')
           | (inl e, w') => (inl e, set_rates (w_rates w) w')
           end.

(** The [for result in results] loop of [_bulk_save_rates]; the dict
    [currencies] holds the codes of the results that the table knows. *)
Fixpoint bulk_save_loop (results : list ExchangeRateResult) (saved_rates : list rate_row)
  : M (list rate_row) :=
  match results with
  | [] => ret saved_rates
  | result :: rest =>
      if decide (source_currency result ∈ currencies E)
      then if decide (exchanged_currency result ∈ currencies E)
        then
          do rc <- update_or_create (source_currency result) (exchanged_currency result)
                                    (valuation_date result) (rate_value result) ;;
          bulk_save_loop rest (saved_rates ++ [rc.1])
        else bulk_save_loop rest saved_rates
      else bulk_save_loop rest saved_rates
  end.

Definition _bulk_save_rates (results : list ExchangeRateResult) : M (list rate_row) :=
  atomic (bulk_save_loop results []).

Definition load_historical_rates (source_currency exchanged_currency : string)
    (start_date end_date : Z) (provider_name : option string) : M (list rate_row) :=
  let source_currency := upper source_currency in
  let exchanged_currency := upper exchanged_currency in
  let fetch_historical := fun adapter : Adapter =>
    get_historical_rates adapter source_currency exchanged_currency start_date end_date in
  do results <-
    match given provider_name with
    | Some provider_name =>
        do provider <- provider_get provider_name ;;
        do adapter <- get_adapter_for_provider E provider ;;
        fetch_historical adapter
    | None => execute_with_failover E fetch_historical
    end ;;
  _bulk_save_rates results.

(** [order_by('valuation_date', 'exchanged_currency')]; ordering by the
    foreign key is ordering by [Currency.Meta.ordering], the code. *)
Definition row_leb (r r' : rate_row) : bool :=
  (row_date r <? row_date r')
  || ((row_date r =? row_date r') && String.leb (row_target r) (row_target r')).

Fixpoint insert_row (r : rate_row) (l : list rate_row) : list rate_row :=
  match l with
  | [] => [r]
  | r' :: l' => if row_leb r r' then r :: l else r' :: insert_row r l'
  end.

Definition order_by_date_target (l : list rate_row) : list rate_row :=
  foldr insert_row [] l.

(** The first [filter] of [get_rates_for_period]. *)
Definition in_period (source_currency : string) (date_from date_to : Z) (r : rate_row) : bool :=
  bool_decide (row_source r = source_currency)
  && (date_from <=? row_date r) && (row_date r <=? date_to).

Definition get_rates_for_period (source_currency : string) (date_from date_to : Z)
    (target_currencies : option (list string)) : M (list rate_row) :=
  let source_currency := upper source_currency in
  do w <- get_world ;;
  let queryset := List.filter (in_period source_currency date_from date_to) (w_rates w) in
  let queryset :=
    match target_currencies with
    | Some (c :: cs) =>
        let target_currencies := map upper (c :: cs) in
        List.filter (fun r => bool_decide (row_target r ∈ target_currencies)) queryset
    | _ => queryset
    end in
  ret (order_by_date_target queryset).

End Service.
End Service.

(** ** tasks/historical_data.py

    The bodies of the Celery tasks; the retry policy of the decorators, the
    progress reports of [self.update_state] and the logger are not part of
    the model. *)

Module Tasks.
Section Tasks.
Context `{RT : PyRuntime} (E : Env).

(** The dict [load_historical_rates_task] returns. *)
Record historical_load := mkHistoricalLoad {
  hl_source_currency : string;
  hl_exchanged_currency : string;
  hl_start_date : string;
  hl_end_date : string;
  total_days : Z;
  rates_loaded : Z;
  hl_errors : list string
}.

(** The [while current_start <= end] loop with its locals [processed] and
    [errors]; the two date additions of a pass are outside its [try]. With
    a [batch_size] below 1 the loop of the source does not advance, so the
    model does not bound it by the length of the range: [None] is a run
    that has not left the loop when [fuel] is used up. *)
Fixpoint batch_loop (fuel : nat) (source_currency exchanged_currency : string)
    (provider : option string) (batch_size end_date current_start processed : Z)
    (errors : list string) : M (option (Z * list string)) :=
  match fuel with
  | O => ret None
  | S fuel' =>
      if current_start <=? end_date then
        do window_end <- date_add current_start (batch_size - 1) ;;
        let current_end := Z.min window_end end_date in
        do outcome <-
          attempt (Service.load_historical_rates E source_currency exchanged_currency
                                                 current_start current_end provider) ;;
        let counts :=
          match outcome with
          | inr rates => (processed + Z.of_nat (List.length rates), errors)
          | inl e =>
              let error_msg :=
                "Batch failed: " +:+ Date.isoformat current_start +:+ " to "
                +:+ Date.isoformat current_end +:+ ": " +:+ exn_msg e in
              (processed, errors ++ [error_msg])
          end in
        do next_start <- date_add current_end 1 ;;
        batch_loop fuel' source_currency exchanged_currency provider batch_size end_date
                   next_start counts.1 counts.2
      else ret (Some (processed, errors))
  end.

Definition parse_date (s : string) : M Z :=
  match date_fromisoformat s with
  | Some d => ret d
  | None => raise ValueError ("Invalid isoformat string: '" +:+ s +:+ "'")
  end.

Definition load_historical_rates_task (fuel : nat)
    (source_currency exchanged_currency start_date end_date : string)
    (provider : option string) (batch_size : option Z) : M (option historical_load) :=
  let batch_size := default 30 batch_size in
  do start <- parse_date start_date ;;
  do end_ <- parse_date end_date ;;
  let total_days := end_ - start + 1 in
  do finished <- batch_loop fuel source_currency exchanged_currency provider batch_size
                            end_ start 0 [] ;;
  ret ((fun pe : Z * list string =>
          mkHistoricalLoad source_currency exchanged_currency start_date end_date
                           total_days pe.1 pe.2) <$> finished).

(** The dict [daily_rate_update_task] returns. *)
Record daily_update := mkDailyUpdate {
  du_date : string;
  rates_updated : Z;
  du_errors : list string
}.

(** The inner [for target in currencies] loop, with the locals [updated]
    and [errors] of the function. *)
Fixpoint daily_targets (source : string) (today : Z) (targets : list string)
    (updated : Z) (errors : list string) : M (Z * list string) :=
  match targets with
  | [] => ret (updated, errors)
  | target :: rest =>
      if decide (source <> target) then
        do outcome <- attempt (Service.get_exchange_rate_data E source target today None) ;;
        match outcome with
        | inr _ => daily_targets source today rest (updated + 1) errors
        | inl e =>
            daily_targets source today rest updated
                          (errors ++ [source +:+ "/" +:+ target +:+ ": " +:+ exn_msg e])
        end
      else daily_targets source today rest updated errors
  end.

(** The outer [for source in currencies] loop. *)
Fixpoint daily_sources (sources currencies : list string) (today : Z)
    (updated : Z) (errors : list string) : M (Z * list string) :=
  match sources with
  | [] => ret (updated, errors)
  | source :: rest =>
      do ue <- daily_targets source today currencies updated errors ;;
      daily_sources rest currencies today ue.1 ue.2
  end.

(** [active_codes] is what the query for the codes of the active currencies
    gives, read when [currencies] is [None]. *)
Definition daily_rate_update_task (active_codes : list string)
    (currencies : option (list string)) : M daily_update :=
  let currencies := default active_codes currencies in
  let today := today E in
  do ue <- daily_sources currencies currencies today 0 [] ;;
  ret (mkDailyUpdate (Date.isoformat today) ue.1 ue.2).

End Tasks.
End Tasks.

(** ** A reference runtime

    An executable instance of [PyRuntime], on which the model can be run: a
    float is held as the decimal it prints as and its arithmetic is exact;
    the state of the generator is the list of the values [random.random()]
    returns next; [random.seed(n)] is a stand-in that makes the generator
    return [(n mod 1000) / 1000] first. *)

Module Ref.

Definition neg (d : decimal) : decimal := mkDec (- coef d) (expo d).

(** [a + (b - a) * random()] *)
Definition uniform (a b : decimal) (s : list decimal) : decimal * list decimal :=
  match s with
  | [] => (a, [])
  | u :: s' => (Dec.add a (Dec.mul (Dec.add b (neg a)) u), s')
  end.

Definition digit (c : ascii) : option Z :=
  let n := Z.of_nat (nat_of_ascii c) in
  if (48 <=? n) && (n <=? 57) then Some (n - 48) else None.

(** Unsigned digits, with at most one point: coefficient and exponent. *)
Fixpoint digits (s : string) (acc : Z) (frac : option Z) : option decimal :=
  match s with
  | EmptyString => Some (mkDec acc (default 0 frac))
  | String c s' =>
      if decide (c = "."%char) then
        match frac with
        | None => digits s' acc (Some 0)
        | Some _ => None
        end
      else
        match digit c with
        | Some n => digits s' (10 * acc + n) ((fun e => e - 1) <$> frac)
        | None => None
        end
  end.

Definition parse_decimal (s : string) : option decimal :=
  match s with
  | EmptyString => None
  | String c s' =>
      if decide (c = "-"%char) then
        match s' with
        | EmptyString => None
        | _ => neg <$> digits s' 0 None
        end
      else digits s 0 None
  end.

(** Ordinal of a civil date (the inverse of [Date.ymd]). *)
Definition ordinal (y m d : Z) : Z :=
  let y' := if m <=? 2 then y - 1 else y in
  let era := y' / 400 in
  let yoe := y' - era * 400 in
  let mp := if 2 <? m then m - 3 else m + 9 in
  let doy := (153 * mp + 2) / 5 + d - 1 in
  let doe := yoe * 365 + yoe / 4 - yoe / 100 + doy in
  era * 146097 + doe - 305.

Definition number (s : string) : option Z :=
  match s with
  | EmptyString => None
  | _ => coef <$> digits s 0 (Some 0) ≫= (fun c => if decide (is_substring "." s = true) then None else Some c)
  end.

(** [YYYY-MM-DD] *)
Definition parse_date (s : string) : option Z :=
  if decide (String.length s = 10%nat /\ String.substring 4 1 s = "-"
             /\ String.substring 7 1 s = "-") then
    y ← number (String.substring 0 4 s);
    m ← number (String.substring 5 2 s);
    d ← number (String.substring 8 2 s);
    let o := ordinal y m d in
    if decide (Date.ymd o = (y, m, d)) then Some o else None
  else None.

Definition str_decimal (d : decimal) : string :=
  pretty (coef d) +:+ "E" +:+ pretty (expo d).

Definition show_json (j : json) : string :=
  match j with
  | JNull => "None"
  | JBool true => "True"
  | JBool false => "False"
  | JNum d => str_decimal d
  | JStr s => s
  | JList _ => "[...]"
  | JDict _ => "{...}"
  end.

#[export] Instance runtime : PyRuntime := {|
  float := decimal;
  rng_state := list decimal;
  float_of_literal := id;
  float_neg := neg;
  float_round := Dec.round;
  Decimal_of_float := id;
  Decimal_of_str := parse_decimal;
  random_seed := fun n => [mkDec (n mod 1000) (-3)];
  random_uniform := uniform;
  date_fromisoformat := parse_date;
  str_json := show_json
|}.

(** A process that has done nothing yet, with the generator in state [rng]. *)
Definition fresh (rng : list decimal) : world :=
  mkWorld rng 0 ∅ [] 0 [] [] [].

(** [adapter_path.rsplit('.', 1)[0]], if the path has a dot. *)
Fixpoint module_path (adapter_path : string) : option string :=
  match adapter_path with
  | EmptyString => None
  | String c rest =>
      match module_path rest with
      | Some m => Some (String c m)
      | None => if decide (c = "."%char) then Some EmptyString else None
      end
  end.

(** What paths other than those of the two adapters lead to: the abstract
    base class and an exception class of adapters/base.py, and for any other
    path no module. *)
Definition library (adapter_path : string) : exn + adapter_class :=
  if decide (adapter_path = "adapters.base.BaseExchangeRateAdapter") then
    inr (Uncallable
           (Exn TypeError
                ("Can't instantiate abstract class BaseExchangeRateAdapter with abstract "
                 +:+ "methods get_exchange_rate, get_exchange_rates_for_date, "
                 +:+ "get_historical_rates, name")))
  else if decide (adapter_path = "adapters.base.ExchangeRateAdapterError") then
    inr (NoAdapterClass "ExchangeRateAdapterError")
  else
    match module_path adapter_path with
    | Some m => inl (Exn ImportError ("No module named '" +:+ m +:+ "'"))
    | None => inl (Exn ValueError "not enough values to unpack (expected 2, got 1)")
    end.

(** Surroundings with the given day, upstream answers and tables; OS
    entropy makes the generator return 0.5 next, the database rounds a tie
    to even and fails a save with InvalidOperation, as Django's quantize
    does. *)
Definition env (today : Z) (upstream : list request -> request -> http_outcome)
    (currencies : list string) (providers : list Provider) : Env :=
  mkEnv today upstream (fun _ => [mkDec 5 (-1)]) currencies providers
        (fun d => Dec.quantize d (-6)) invalid_operation library.

Definition offline : list request -> request -> http_outcome :=
  fun _ _ => HttpTimeout "timed out".

Definition default_mock : Mock.MockAdapter :=
  Mock.mkMock Mock.DEFAULT_BASE_RATES (mkDec 5 (-2)).

(** A mock adapter whose table gives EUR/USD the base rate [Decimal('1E+23')],
    and one with the default table and a volatility of 1e30. *)
Definition inflated_mock : Mock.MockAdapter :=
  Mock.mkMock {[ ("EUR", "USD") := mkDec 1 23 ]} (mkDec 5 (-2)).
Definition volatile_mock : Mock.MockAdapter :=
  Mock.mkMock Mock.DEFAULT_BASE_RATES (mkDec 1 30).

(** An upstream service on a plan without /timeseries: the range endpoint
    answers with an empty list, /latest quotes USD at 1.08 and /historical
    at 1.07. *)
Definition restricted_plan : list request -> request -> http_outcome :=
  fun _ req =>
    match req with
    | Latest _ => HttpJson [("rates", JDict [("USD", JNum (mkDec 108 (-2)))])]
    | Historical _ _ =>
        HttpJson [("response", JDict [("rates", JDict [("USD", JNum (mkDec 107 (-2)))])])]
    | Timeseries _ _ _ _ => HttpJson [("response", JList [])]
    end.

(** An upstream service that knows no rate: every body has an empty
    [rates] object. *)
Definition no_rates : list request -> request -> http_outcome :=
  fun _ _ => HttpJson [("rates", JDict [])].

(** Three rows of the [Provider] table: the remote adapter first, the mock
    adapter second, and a row that is not active. *)
Definition p_beacon : Provider :=
  mkProvider "CurrencyBeacon" "adapters.currencybeacon.CurrencyBeaconAdapter" 1 true
             empty_config.
Definition p_mock : Provider :=
  mkProvider "Mock" "adapters.mock.MockAdapter" 2 true empty_config.
Definition p_retired : Provider :=
  mkProvider "Retired" "adapters.mock.MockAdapter" 0 false empty_config.

(** Day 738900 (2024-01-15) with the upstream service timing out. *)
Definition two_providers : Env :=
  env 738900 offline ["EUR"; "USD"] [p_mock; p_retired; p_beacon].

(** The [fetch_operation] of the service for EUR/USD on that day. *)
Definition fetch_eur_usd (adapter : Manager.Adapter) : M ExchangeRateResult :=
  Manager.get_exchange_rate adapter "EUR" "USD" 738900.

(** What that operation comes to with each of the providers. *)
Definition eur_usd_outcome (p : Provider) : exn + ExchangeRateResult :=
  if decide (name p = "CurrencyBeacon")
  then inl (Exn ProviderUnavailableError "CurrencyBeacon request timed out: timed out")
  else inr (mkResult "EUR" "USD" 738900 (mkDec 1038420 (-6)) "Mock Provider").

(** The [fetch_historical] of the service for EUR/USD over a range whose
    start is after its end, and what it comes to with each provider. *)
Definition fetch_inverted (adapter : Manager.Adapter) : M (list ExchangeRateResult) :=
  Manager.get_historical_rates adapter "EUR" "USD" 738900 738895.

Definition inverted_outcome (p : Provider) : exn + list ExchangeRateResult :=
  if decide (name p = "CurrencyBeacon")
  then inl (Exn ValueError "start_date must be before end_date")
  else inr [].

(** A provider whose adapter path names no class of the repository, ahead
    of the mock adapter. *)
Definition p_broken : Provider :=
  mkProvider "Broken" "adapters.nowhere.NoAdapter" 1 true empty_config.

Definition broken_first : Env :=
  env 738900 offline ["EUR"; "USD"] [p_mock; p_broken].

(** The remote adapter alone, with the upstream service timing out. *)
Definition beacon_only : Env :=
  env 738900 offline ["EUR"; "USD"] [p_beacon].

(** A mock adapter configured with a seed. *)
Definition seeded : config := mkConfig None None (Some 42).

(** An upstream service on a plan with /timeseries: the range endpoint
    answers with one entry per date, nested by target currency or a bare
    number, under a plain date or a timestamp; one entry is unusable. *)
Definition paid_plan : list request -> request -> http_outcome :=
  fun _ req =>
    match req with
    | Timeseries _ _ _ _ =>
        HttpJson [("response",
                   JDict [("2024-01-15T00:00:00", JNum (mkDec 108 (-2)));
                          ("not a date", JNull);
                          ("2024-01-14", JDict [("USD", JNum (mkDec 107 (-2)))])])]
    | _ => HttpTimeout "timed out"
    end.

End Ref.
Example upper_eur : upper "eUr" = "EUR". Proof. reflexivity. Qed.
Example ymd_2024_01_15 : Date.ymd 738900 = (2024, 1, 15). Proof. reflexivity. Qed.
Example iso_2024_01_15 : Date.isoformat 738900 = "2024-01-15". Proof. vm_compute. reflexivity. Qed.
Example round_half_even_ex : Dec.round (mkDec 1234565 (-6)) 5 = mkDec 123456 (-5). Proof. reflexivity. Qed.

Example date_roundtrip : Ref.parse_date "2024-01-15" = Some 738900.
Proof. vm_compute. reflexivity. Qed.
Example decimal_parse : Ref.parse_decimal "1.0850" = Some (mkDec 10850 (-4)).
Proof. vm_compute. reflexivity. Qed.

(** * Vocabulary of the properties *)

Section Vocabulary.
Context `{RT : PyRuntime}.

(** What an outcome returned, and the class of what it raised. *)
Definition returned {A} (o : exn + A) : option A :=
  match o with inr a => Some a | inl _ => None end.

Definition raised {A} (o : exn + A) : option exn_class :=
  match o with inl e => Some (exn_cls e) | inr _ => None end.

(** The valuation dates of a list of quotes, in order. *)
Definition dates (l : list ExchangeRateResult) : list Z := valuation_date <$> l.

(** ** The synthetic generator *)

(** The base rate [_get_base_rate] draws for a pair the table does not give,
    from the generator in state [rng]. *)
Definition drawn_base_rate (rng : rng_state) : decimal :=
  Decimal_of_float
    (float_round (random_uniform (float_of_literal (lit 5 (-1)))
                                 (float_of_literal (lit 20 (-1))) rng).1 6).

(** An outcome followed by a step that may fail. *)
Definition and_then {A B} (o : exn + A) (f : A -> exn + B) : exn + B :=
  match o with inr a => f a | inl e => inl e end.

(** The base rate the table gives: a direct entry, or the product of the two
    legs of the EUR pivot (which the context may refuse). *)
Definition listed_base_rate (self : Mock.MockAdapter) (source_currency exchanged_currency : string)
  : option (exn + decimal) :=
  match Mock.base_rates self !! (upper source_currency, upper exchanged_currency) with
  | Some rate => Some (inr rate)
  | None =>
      (fun legs : decimal * decimal => trap overflow_signal (Dec.ctx_mul legs.1 legs.2))
      <$> Mock.via_eur self source_currency exchanged_currency
  end.

(** The variation of a date: the draw of the generator seeded with the date,
    as a Decimal. *)
Definition variation (self : Mock.MockAdapter) (valuation_date : Z) : decimal :=
  Decimal_of_float
    (random_uniform (float_neg (Mock.volatility self)) (Mock.volatility self)
                    (random_seed (Mock.date_factor valuation_date))).1.

(** [base_rate * (1 + variation)] for the variation of a date; [None] is
    Overflow. *)
Definition varied_product (self : Mock.MockAdapter) (base_rate : decimal) (valuation_date : Z)
  : option decimal :=
  Dec.ctx_add Dec.one (variation self valuation_date) ≫= Dec.ctx_mul base_rate.

(** The variation of a date applied to a base rate: what [_apply_variation]
    comes to, whatever the generator state it is entered with. *)
Definition varied (self : Mock.MockAdapter) (base_rate : decimal) (valuation_date : Z)
  : exn + decimal :=
  match varied_product self base_rate valuation_date with
  | Some varied_rate => trap invalid_operation (Dec.ctx_round varied_rate 6)
  | None => inl overflow_signal
  end.

(** The quote of the mock adapter for a pair and a date, given what the rate
    comes to. *)
Definition quoted (s t : string) (d : Z) (rate : exn + decimal) : exn + ExchangeRateResult :=
  match rate with
  | inr rate_value => inr (mkResult (upper s) (upper t) d rate_value "Mock Provider")
  | inl e => inl e
  end.

(** A Decimal of magnitude at most [bound]. *)
Definition at_most (d : decimal) (bound : Z) : Prop :=
  Z.abs (coef d) * 10 ^ Z.max 0 (expo d) <= bound * 10 ^ Z.max 0 (- expo d).

(** What [_get_base_rate] comes to for a pair, with the generator in state
    [rng]: what the table gives, or the draw. *)
Definition base_rate_of (self : Mock.MockAdapter) (s t : string) (rng : rng_state)
  : exn + decimal :=
  match listed_base_rate self s t with
  | Some o => o
  | None => inr (drawn_base_rate rng)
  end.

(** A pair the adapter quotes from a base rate of at most [bound], whatever
    the state of the generator: an identity pair, or a pair whose base rate,
    given by the table or drawn, is at most [bound]. *)
Definition steady (self : Mock.MockAdapter) (bound : Z) (s t : string) : Prop :=
  upper s = upper t
  \/ forall rng, exists base_rate,
       base_rate_of self s t rng = inr base_rate /\ at_most base_rate bound.

(** The variation of every date is at most 1 in magnitude, as it is with a
    volatility of at most 1. *)
Definition tame (self : Mock.MockAdapter) : Prop :=
  forall d, at_most (variation self d) 1.

(** The quotes of a steady pair: six places and a coefficient of at most
    [2 * bound * 10 ^ 6]. *)
Definition within (bound : Z) (q : ExchangeRateResult) : Prop :=
  expo (rate_value q) = -6 /\ Z.abs (coef (rate_value q)) <= 2 * bound * 10 ^ 6.

(** A rate that the column [rate_value] holds as it is: six places and at
    most 18 digits. *)
Definition fits_column (rate : decimal) : Prop :=
  expo rate = -6 /\ Z.abs (coef rate) < 10 ^ 18.

(** [Decimal('1.000000')], the rate of a same-currency pair. *)
Definition rate_one : decimal := lit 1000000 (-6).

(** ** The remote adapter *)

(** The request a single-date lookup sends for [source] and the requested
    date: /latest from today on, /historical with the date before. *)
Definition single_date_request (E : Env) (source : string) (d : Z) : request :=
  if today E <=? d then Latest source else Historical source d.

(** Two process states that differ at most in the cache and the requests
    sent. *)
Definition same_but_cache_sent (w w' : world) : Prop :=
  w_rng w' = w_rng w /\ w_reseeds w' = w_reseeds w /\ w_slept w' = w_slept w
  /\ w_rates w' = w_rates w /\ w_adapters w' = w_adapters w /\ w_tried w' = w_tried w.

(** Two states that agree but for the cache, the requests sent and the
    number of sleeps. *)
Definition same_but_remote (w w' : world) : Prop :=
  w_rng w' = w_rng w /\ w_reseeds w' = w_reseeds w
  /\ w_rates w' = w_rates w /\ w_adapters w' = w_adapters w /\ w_tried w' = w_tried w.

(** Every quote cached for the pair is dated as the date of its key. *)
Definition cache_dated (source target : string)
    (c : gmap (string * string * Z) ExchangeRateResult) : Prop :=
  forall d q, c !! (source, target, d) = Some q -> valuation_date q = d.

(** ** Frames *)

(** [m] leaves the observation [f] of the process state as it was, whether
    it returns or raises. *)
Definition keeps {B A} (f : world -> B) (m : M A) : Prop :=
  forall w, f (m w).2 = f w.

(** Every value [m] returns satisfies [P]. *)
Definition returns {A} (P : A -> Prop) (m : M A) : Prop :=
  forall w a w', m w = (inr a, w') -> P a.

(** All four operations of an adapter keep [f]. *)
Definition adapter_keeps {B} (f : world -> B) (a : Manager.Adapter) : Prop :=
  (forall s t d, keeps f (Manager.get_exchange_rate a s t d))
  /\ (forall s d targets, keeps f (Manager.get_exchange_rates_for_date a s d targets))
  /\ (forall s t d1 d2, keeps f (Manager.get_historical_rates a s t d1 d2))
  /\ (forall s t, keeps f (Manager.get_latest_rate a s t)).

(** ** The provider manager *)

(** The order of [order_by('priority', 'name')]. *)
Definition provider_le (p q : Provider) : Prop := Manager.provider_leb p q = true.

(** Every cached adapter is of the class its path names. *)
Definition adapters_cache_wf (w : world) : Prop :=
  forall path config cls,
    Manager.cached_class (path, config) (w_adapters w) = Some cls ->
    Manager.importable path = Some cls.

(** A process whose cache is empty and whose adapter cache is well formed. *)
Definition cold (w : world) : Prop := w_cache w = ∅ /\ adapters_cache_wf w.

(** The attempt of [execute_with_failover] on each active provider comes to
    what [outcome] says, in every process state that satisfies the invariant
    [I]; it keeps [I] and announces the provider once. *)
Definition attempt_determined (E : Env) {R} (operation : Manager.Adapter -> M R)
    (I : world -> Prop) (outcome : Provider -> exn + R) : Prop :=
  forall p w, p ∈ Manager.get_active_providers E -> I w ->
    (Manager.try_provider E operation p w).1 = outcome p
    /\ I (Manager.try_provider E operation p w).2
    /\ w_tried (Manager.try_provider E operation p w).2 = w_tried w ++ [name p].

(** The attempt on [p] fails with an adapter error. *)
Definition fails {R} (outcome : Provider -> exn + R) (p : Provider) : Prop :=
  exists e, outcome p = inl e /\ is_adapter_error e = true.

(** The error the loop holds after the providers [ps]. *)
Definition last_error_after {R} (outcome : Provider -> exn + R) (ps : list Provider)
    (last_error : option exn) : option exn :=
  foldl (fun acc p => match outcome p with inl e => Some e | inr _ => acc end) last_error ps.

(** The error raised when the loop runs out of providers. *)
Definition aggregate (last_error : option exn) : exn :=
  Exn ExchangeRateAdapterError
      match last_error with
      | Some e => "All providers failed. Last error: " +:+ exn_msg e
      | None => "All providers failed"
      end.

(** ** The stored rates *)

(** No two stored rows share (source, target, date). *)
Definition unique_keys (rows : list rate_row) : Prop := NoDup (row_key <$> rows).

(** The key a quote is stored under. *)
Definition result_key (r : ExchangeRateResult) : string * string * Z :=
  (source_currency r, exchanged_currency r, valuation_date r).

(** Overwriting the rows of a key by a row of that key. *)
Definition overwrite (k : string * string * Z) (row : rate_row) (rows : list rate_row)
  : list rate_row :=
  map (fun r => if Service.has_key k r then row else r) rows.

(** [m] never leaves the table with two rows of one key. *)
Definition preserves_unique {A} (m : M A) : Prop :=
  forall w, unique_keys (w_rates w) -> unique_keys (w_rates (m w).2).

(** ** Quotes, cache entries and rows *)

(** A quote of the mock adapter for the pair. *)
Definition mock_quote (s t : string) (q : ExchangeRateResult) : Prop :=
  source_currency q = upper s /\ exchanged_currency q = upper t
  /\ provider_name q = Mock.name.

(** Every cached quote, of every pair, is dated as the date of its key. *)
Definition cache_dated_all (c : gmap (string * string * Z) ExchangeRateResult) : Prop :=
  forall source target, cache_dated source target c.

(** The quote of one entry of a /timeseries response, if its key parses as
    a date and its value gives a rate. *)
Definition entry_quote (source target : string) (entry : string * json)
  : option ExchangeRateResult :=
  match Beacon.parse_entry_date entry.1, Beacon.parse_entry_rate target entry.2 with
  | Some rate_date, Some rate_value =>
      Some (mkResult source target rate_date rate_value Beacon.name)
  | _, _ => None
  end.

(** The cache holds, for the pair and the date, a quote of that date. *)
Definition cached_for (c : gmap (string * string * Z) ExchangeRateResult)
    (source target : string) (d : Z) : Prop :=
  exists q, c !! (source, target, d) = Some q /\ valuation_date q = d.

(** The four currencies of the default table of the mock adapter. *)
Definition default_currencies : list string := ["EUR"; "USD"; "GBP"; "CHF"].


(** The model instance of a quote: what a save of the quote returns. *)
Definition row_of (r : ExchangeRateResult) : rate_row :=
  mkRow (source_currency r) (exchanged_currency r) (valuation_date r) (rate_value r).

(** What saving a rate comes to: the rate as the column holds it, or the
    error of the save. *)
Definition stored_rate (E : Env) (rate : decimal) : exn + decimal :=
  if Z.abs (coef (Service.column_value E rate)) <? 10 ^ 18
  then inr (Service.column_value E rate) else inl (db_overflow E).

(** The column takes the rate of the quote. *)
Definition accepted (E : Env) (r : ExchangeRateResult) : Prop :=
  exists stored, stored_rate E (rate_value r) = inr stored.

(** The row the table holds for a quote whose rate the column takes. *)
Definition stored_as (E : Env) (r : ExchangeRateResult) : rate_row :=
  mkRow (source_currency r) (exchanged_currency r) (valuation_date r)
        (Service.column_value E (rate_value r)).

(** Both currencies of a quote are in the [Currency] table. *)
Definition known (E : Env) (r : ExchangeRateResult) : bool :=
  bool_decide (source_currency r ∈ currencies E)
  && bool_decide (exchanged_currency r ∈ currencies E).

(** The order of [order_by('valuation_date', 'exchanged_currency')]. *)
Definition row_le (r r' : rate_row) : Prop := Service.row_leb r r' = true.

(** The quotes of a list stored under the key [k], in order. *)
Definition of_key (k : string * string * Z) (l : list ExchangeRateResult)
  : list ExchangeRateResult :=
  List.filter (fun r => bool_decide (result_key r = k)) l.

(** ** The scheduled tasks *)

(** The date ranges of the batches of a historical load: windows of
    [batch_size] days from [start] on, the last one cut at [end_date]. *)
Definition batches (batch_size start end_date : Z) : list (Z * Z) :=
  (fun i => (start + i * batch_size,
             Z.min (start + i * batch_size + (batch_size - 1)) end_date))
  <$> seqZ 0 ((end_date - start + batch_size) / batch_size).

(** The days of a window. *)
Definition days_of (window : Z * Z) : list Z := seqZ window.1 (window.2 - window.1 + 1).

(** Loading one window after another, counting the rows loaded and noting
    the windows that failed. *)
Fixpoint run_batches (E : Env) (source_currency exchanged_currency : string)
    (provider : option string) (windows : list (Z * Z)) (processed : Z)
    (errors : list string) : M (Z * list string) :=
  match windows with
  | [] => ret (processed, errors)
  | window :: rest =>
      do outcome <-
        attempt (Service.load_historical_rates E source_currency exchanged_currency
                                               window.1 window.2 provider) ;;
      match outcome with
      | inr rates =>
          run_batches E source_currency exchanged_currency provider rest
                      (processed + Z.of_nat (List.length rates)) errors
      | inl e =>
          run_batches E source_currency exchanged_currency provider rest processed
                      (errors ++ ["Batch failed: " +:+ Date.isoformat window.1 +:+ " to "
                                  +:+ Date.isoformat window.2 +:+ ": " +:+ exn_msg e])
      end
  end.

(** The ordered pairs of different codes of a list. *)
Definition distinct_pairs (codes : list string) : list (string * string) :=
  List.filter (fun st => negb (bool_decide (st.1 = st.2))) (list_prod codes codes).

(** What [round(amount * rate, 2)] comes to in the arithmetic context. *)
Definition converted (amount rate : decimal) : exn + decimal :=
  match Dec.ctx_mul amount rate with
  | Some product => trap invalid_operation (Dec.ctx_round product 2)
  | None => inl overflow_signal
  end.

End Vocabulary.

(** * Properties *)

(** ** Strings and sorting *)

Lemma upper_ascii_idemp (c : ascii) : upper_ascii (upper_ascii c) = upper_ascii c.
Proof. destruct c as [[] [] [] [] [] [] [] []]; reflexivity. Qed.

Lemma upper_idemp (s : string) : upper (upper s) = upper s.
Proof. induction s as [|c s IH]; simpl; [reflexivity|]. by rewrite upper_ascii_idemp, IH. Qed.

Lemma insert_by_date_perm r l : insert_by_date r l ≡ₚ r :: l.
Proof.
  induction l as [|r' l IH]; simpl; [reflexivity|].
  destruct (valuation_date r <=? valuation_date r'); [reflexivity|].
  rewrite IH. apply perm_swap.
Qed.

Lemma sorted_by_date_perm l : sorted_by_date l ≡ₚ l.
Proof.
  induction l as [|r l IH]; simpl; [reflexivity|].
  rewrite insert_by_date_perm. by rewrite IH.
Qed.

Lemma insert_by_date_sorted r l :
  Sorted Z.le (dates l) -> Sorted Z.le (dates (insert_by_date r l)).
Proof.
  induction l as [|r' l IH]; simpl; intros Hs.
  - repeat constructor.
  - destruct (Z.leb_spec (valuation_date r) (valuation_date r')) as [Hle|Hlt]; simpl.
    + constructor; [exact Hs | constructor; exact Hle].
    + apply Sorted_inv in Hs as [Hs Hhd].
      constructor; [by apply IH|].
      destruct l as [|r'' l]; simpl.
      * constructor. lia.
      * destruct (Z.leb_spec (valuation_date r) (valuation_date r'')); simpl.
        -- constructor. lia.
        -- apply HdRel_inv in Hhd. by constructor.
Qed.

Lemma sorted_by_date_sorted l : Sorted Z.le (dates (sorted_by_date l)).
Proof.
  induction l as [|r l IH]; simpl; [constructor|]. by apply insert_by_date_sorted.
Qed.

Lemma sorted_by_date_NoDup l : NoDup (dates l) -> NoDup (dates (sorted_by_date l)).
Proof.
  unfold dates. by rewrite sorted_by_date_perm.
Qed.

(** ** Decimal arithmetic *)

Section DecimalFacts.


Lemma div_half_even_close n m :
  0 < m -> 2 * Z.abs (div_half_even n m * m - n) <= m.
Proof.
  intros Hm. unfold div_half_even.
  pose proof (Z.div_mod n m ltac:(lia)) as Hdiv.
  pose proof (Z.mod_pos_bound n m Hm) as Hmod.
  set (q := n / m) in *. set (r := n mod m) in *.
  destruct (Z.ltb_spec (2 * r) m); [nia|].
  destruct (Z.ltb_spec m (2 * r)); [nia|].
  destruct (Z.even q); nia.
Qed.

(** Rounding to the nearest integer does not pass an integer bound. *)
Lemma div_half_even_bound n m N :
  0 < m -> Z.abs n <= N * m -> Z.abs (div_half_even n m) <= N.
Proof.
  intros Hm Hn. pose proof (div_half_even_close n m Hm) as Hc.
  set (q := div_half_even n m) in *. clearbody q. nia.
Qed.

Lemma pow10_pos k : 0 < 10 ^ k \/ (k < 0 /\ 10 ^ k = 0).
Proof.
  destruct (Z.le_gt_cases 0 k); [left; by apply Z.pow_pos_nonneg|].
  right. split; [done|]. by apply Z.pow_neg_r.
Qed.

Lemma pow10_add a b : 0 <= a -> 0 <= b -> 10 ^ (a + b) = 10 ^ a * 10 ^ b.
Proof. intros. by apply Z.pow_add_r. Qed.

(** The magnitude bound at any scale that clears the exponent. *)
Lemma at_most_scale d bound k :
  0 <= k -> - expo d <= k ->
  at_most d bound <-> Z.abs (coef d) * 10 ^ (expo d + k) <= bound * 10 ^ k.
Proof.
  intros Hk He. unfold at_most.
  destruct (Z.le_gt_cases 0 (expo d)) as [Hpos|Hneg].
  - rewrite (Z.max_r 0 (expo d)), (Z.max_l 0 (- expo d)) by lia.
    rewrite pow10_add by lia. simpl (10 ^ 0).
    assert (0 < 10 ^ k) by (apply Z.pow_pos_nonneg; lia). nia.
  - rewrite (Z.max_l 0 (expo d)), (Z.max_r 0 (- expo d)) by lia.
    replace k with ((expo d + k) + - expo d) at 2 by lia.
    rewrite (pow10_add (expo d + k) (- expo d)) by lia. simpl (10 ^ 0).
    assert (0 < 10 ^ (expo d + k)) by (apply Z.pow_pos_nonneg; lia).
    assert (0 < 10 ^ (- expo d)) by (apply Z.pow_pos_nonneg; lia). nia.
Qed.

Lemma at_most_add a b A B :
  at_most a A -> at_most b B -> at_most (Dec.add a b) (A + B).
Proof.
  intros Ha Hb.
  set (k := Z.max 0 (- Z.min (expo a) (expo b))).
  apply (at_most_scale a A k) in Ha; [|lia..].
  apply (at_most_scale b B k) in Hb; [|lia..].
  apply (at_most_scale _ _ k); [lia|unfold Dec.add; simpl; lia|].
  unfold Dec.add, coef_at. cbn [coef expo].
  set (e := Z.min (expo a) (expo b)) in *.
  assert (Hpa : 10 ^ (expo a + k) = 10 ^ (expo a - e) * 10 ^ (e + k)).
  { rewrite <- pow10_add by lia. f_equal. lia. }
  assert (Hpb : 10 ^ (expo b + k) = 10 ^ (expo b - e) * 10 ^ (e + k)).
  { rewrite <- pow10_add by lia. f_equal. lia. }
  rewrite Hpa in Ha. rewrite Hpb in Hb.
  assert (0 < 10 ^ (e + k)) by (apply Z.pow_pos_nonneg; lia).
  assert (0 < 10 ^ (expo a - e)) by (apply Z.pow_pos_nonneg; lia).
  assert (0 < 10 ^ (expo b - e)) by (apply Z.pow_pos_nonneg; lia).
  nia.
Qed.

Lemma at_most_mul a b A B :
  at_most a A -> at_most b B -> at_most (Dec.mul a b) (A * B).
Proof.
  intros Ha Hb.
  set (ka := Z.max 0 (- expo a)). set (kb := Z.max 0 (- expo b)).
  apply (at_most_scale a A ka) in Ha; [|lia..].
  apply (at_most_scale b B kb) in Hb; [|lia..].
  apply (at_most_scale _ _ (ka + kb)); [lia|unfold Dec.mul; simpl; lia|].
  unfold Dec.mul. cbn [coef expo].
  replace (expo a + expo b + (ka + kb)) with ((expo a + ka) + (expo b + kb)) by lia.
  rewrite (pow10_add (expo a + ka) (expo b + kb)) by lia.
  rewrite (pow10_add ka kb) by lia. rewrite Z.abs_mul.
  assert (0 < 10 ^ (expo a + ka)) by (apply Z.pow_pos_nonneg; lia).
  assert (0 < 10 ^ (expo b + kb)) by (apply Z.pow_pos_nonneg; lia).
  assert (H0a : 0 <= Z.abs (coef a) * 10 ^ (expo a + ka))
    by (apply Z.mul_nonneg_nonneg; lia).
  assert (H0b : 0 <= Z.abs (coef b) * 10 ^ (expo b + kb))
    by (apply Z.mul_nonneg_nonneg; lia).
  pose proof (Z.mul_le_mono_nonneg _ _ _ _ H0a Ha H0b Hb) as Hab.
  clear -Hab. set (x := Z.abs (coef a)) in *. set (y := Z.abs (coef b)) in *.
  set (pa := 10 ^ (expo a + ka)) in *. set (pb := 10 ^ (expo b + kb)) in *.
  set (qa := 10 ^ ka) in *. set (qb := 10 ^ kb) in *. clearbody x y pa pb qa qb.
  nia.
Qed.

Lemma digits_of_lower fuel : forall n, 0 < n -> 10 ^ (digits_of fuel n - 1) <= n.
Proof.
  induction fuel as [|fuel IH]; intros n Hn; simpl; [lia|].
  destruct (Z.ltb_spec n 10) as [Hlt|Hge]; [simpl; lia|].
  assert (Hdiv : 0 < n / 10) by (apply Z.div_str_pos; lia).
  specialize (IH (n / 10) Hdiv).
  replace (1 + digits_of fuel (n / 10) - 1) with (digits_of fuel (n / 10)) by lia.
  pose proof (Z.mul_div_le n 10 ltac:(lia)) as Hle.
  destruct (Z.le_gt_cases 1 (digits_of fuel (n / 10))) as [Hd|Hd].
  - replace (digits_of fuel (n / 10)) with (1 + (digits_of fuel (n / 10) - 1)) by lia.
    rewrite pow10_add by lia. simpl (10 ^ 1). lia.
  - destruct (Z.le_gt_cases 0 (digits_of fuel (n / 10))).
    + replace (digits_of fuel (n / 10)) with 0 by lia. simpl. lia.
    + rewrite Z.pow_neg_r by lia. lia.
Qed.

Lemma digits_of_pos fuel n : 0 <= digits_of fuel n.
Proof. revert n. induction fuel as [|fuel IH]; intros n; simpl; [lia|]. destruct (n <? 10); [lia|]. specialize (IH (n / 10)). lia. Qed.

Lemma ndigits_lower n : n <> 0 -> 1 <= ndigits n /\ 10 ^ (ndigits n - 1) <= Z.abs n.
Proof.
  intros Hn. unfold ndigits. split.
  - simpl. destruct (Z.abs n <? 10); [lia|]. pose proof (digits_of_pos (Z.to_nat (Z.log2 (Z.abs n))) (Z.abs n / 10)). lia.
  - apply digits_of_lower. lia.
Qed.

(** A result of at most 28 digits whose exponent the context allows comes
    into the context as it is. *)
Lemma fix_exact d :
  Z.abs (coef d) < 10 ^ prec -> Etiny <= expo d <= Etop -> Dec._fix d = Some d.
Proof.
  intros Hc He. unfold Dec._fix.
  destruct (Z.eqb_spec (coef d) 0) as [Hz|Hnz].
  { destruct d as [c e]. simpl in *. subst c. do 2 f_equal.
    unfold Etiny, Etop, Emax, Emin, prec in *. lia. }
  destruct (ndigits_lower (coef d) Hnz) as [Hnd1 Hnd].
  set (nd := ndigits (coef d)) in *. clearbody nd.
  assert (Hsmall : nd <= prec).
  { destruct (Z.le_gt_cases nd prec) as [|Hbig]; [done|exfalso].
    assert (10 ^ prec <= 10 ^ (nd - 1)) by (apply Z.pow_le_mono_r; lia). lia. }
  cbv zeta.
  destruct (Z.ltb_spec Etop (nd + expo d - prec)) as [Hov|_]; [lia|].
  destruct (Z.ltb_spec (expo d) (Z.max (nd + expo d - prec) Etiny)) as [Hround|_]; [lia|].
  reflexivity.
Qed.

(** A result within a bound of fewer than 28 digits comes into the context
    without a signal, and stays within the bound. *)
Lemma fix_at_most d bound :
  0 <= bound < 10 ^ prec -> at_most d bound ->
  exists d', Dec._fix d = Some d' /\ at_most d' bound.
Proof.
  intros [Hb0 Hb] Hd. unfold Dec._fix.
  destruct (Z.eqb_spec (coef d) 0) as [Hz|Hnz].
  { eexists. split; [reflexivity|]. unfold at_most. cbn [coef expo]. simpl (Z.abs 0).
    assert (0 <= 10 ^ Z.max 0 (- Z.min (Z.max (expo d) Etiny) Emax)) by (apply Z.pow_nonneg; lia).
    nia. }
  destruct (ndigits_lower (coef d) Hnz) as [Hnd1 Hnd].
  set (nd := ndigits (coef d)) in *. clearbody nd.
  set (k := Z.max 0 (- expo d)).
  pose proof (proj1 (at_most_scale d bound k ltac:(lia) ltac:(lia)) Hd) as Hs.
  assert (Hsmall : nd + expo d <= prec).
  { destruct (Z.le_gt_cases (nd + expo d) prec) as [|Hbig]; [done|exfalso].
    assert (H1 : 10 ^ (prec + k) <= 10 ^ (nd - 1 + (expo d + k))).
    { apply Z.pow_le_mono_r; lia. }
    rewrite !pow10_add in H1 by (unfold prec; lia).
    assert (0 < 10 ^ (expo d + k)) by (apply Z.pow_pos_nonneg; lia).
    assert (0 < 10 ^ k) by (apply Z.pow_pos_nonneg; lia).
    nia. }
  cbv zeta.
  destruct (Z.ltb_spec Etop (nd + expo d - prec)) as [Hov|_]; [unfold Etop, Emax, prec in *; lia|].
  set (exp_min := Z.max (nd + expo d - prec) Etiny).
  assert (Hem : exp_min <= 0) by (unfold exp_min, Etiny, Emin, prec in *; lia).
  destruct (Z.ltb_spec (expo d) exp_min) as [Hround|Hkeep]; [|by eexists].
  assert (Hneg : expo d < 0) by lia.
  assert (Hc : Z.abs (coef d) <= bound * 10 ^ (- exp_min) * 10 ^ (exp_min - expo d)).
  { rewrite <- Z.mul_assoc, <- pow10_add by lia.
    replace (- exp_min + (exp_min - expo d)) with (- expo d) by lia.
    unfold at_most in Hd. rewrite (Z.max_l 0 (expo d)), (Z.max_r 0 (- expo d)) in Hd by lia.
    simpl (10 ^ 0) in Hd. lia. }
  set (c := if nd + expo d <? exp_min then 0
            else div_half_even (coef d) (10 ^ (exp_min - expo d))).
  assert (Hcb : Z.abs c <= bound * 10 ^ (- exp_min)).
  { unfold c. destruct (nd + expo d <? exp_min).
    - simpl (Z.abs 0). assert (0 <= 10 ^ (- exp_min)) by (apply Z.pow_nonneg; lia). nia.
    - apply div_half_even_bound; [apply Z.pow_pos_nonneg; lia|exact Hc]. }
  clearbody c.
  destruct (Z.leb_spec (10 ^ prec) (Z.abs c)) as [Hcarry|Hnocarry].
  - assert (Hlt : exp_min < 0).
    { destruct (Z.eq_dec exp_min 0) as [H0|]; [|lia]. rewrite H0 in Hcb. simpl in Hcb. lia. }
    destruct (Z.ltb_spec Etop (exp_min + 1)) as [Hov|_]; [unfold Etop, Emax, prec in *; lia|].
    eexists. split; [reflexivity|]. unfold at_most. cbn [coef expo].
    rewrite (Z.max_l 0 (exp_min + 1)), (Z.max_r 0 (- (exp_min + 1))) by lia.
    simpl (10 ^ 0). rewrite Z.mul_1_r.
    replace (- exp_min) with (1 + - (exp_min + 1)) in Hcb by lia.
    rewrite pow10_add in Hcb by lia. simpl (10 ^ 1) in Hcb.
    set (N := bound * 10 ^ (- (exp_min + 1))) in *.
    assert (HN : Z.abs c <= N * 10) by lia. clear Hcb.
    assert (c / 10 <= N) by (apply Z.div_le_upper_bound; lia).
    assert (- N <= c / 10) by (apply Z.div_le_lower_bound; lia).
    lia.
  - eexists. split; [reflexivity|]. unfold at_most. cbn [coef expo].
    rewrite (Z.max_l 0 exp_min), (Z.max_r 0 (- exp_min)) by lia.
    simpl (10 ^ 0). lia.
Qed.

Lemma quantize_at_most d bound e :
  e <= 0 -> at_most d bound ->
  expo (quantize d e) = e /\ Z.abs (coef (quantize d e)) <= bound * 10 ^ (- e).
Proof.
  intros He Hd. unfold quantize.
  destruct (Z.leb_spec e (expo d)) as [Hle|Hlt]; cbn [coef expo]; (split; [reflexivity|]).
  - set (k := Z.max 0 (- expo d) ).
    apply (at_most_scale d bound (- e)) in Hd; [|lia..].
    unfold coef_at. rewrite Z.abs_mul.
    rewrite (Z.abs_eq (10 ^ (expo d - e))) by (apply Z.pow_nonneg; lia).
    replace (expo d - e) with (expo d + - e) by lia. exact Hd.
  - apply div_half_even_bound; [apply Z.pow_pos_nonneg; lia|].
    rewrite <- Z.mul_assoc, <- pow10_add by lia.
    replace (- e + (e - expo d)) with (- expo d) by lia.
    unfold at_most in Hd. rewrite (Z.max_l 0 (expo d)), (Z.max_r 0 (- expo d)) in Hd by lia.
    simpl (10 ^ 0) in Hd. lia.
Qed.

End DecimalFacts.

(** ** Date arithmetic *)

Lemma date_plus_inr d days r :
  date_plus d days = inr r ->
  r = d + days /\ Date.min_ordinal <= r <= Date.max_ordinal.
Proof.
  unfold date_plus, timedelta.
  destruct (Z.abs days <=? Date.max_delta_days); [|discriminate].
  destruct (Z.leb_spec Date.min_ordinal (d + days)); [|discriminate].
  destruct (Z.leb_spec (d + days) Date.max_ordinal); [|discriminate].
  simpl. intros [= <-]. lia.
Qed.

Lemma date_plus_in_calendar d days :
  Z.abs days <= Date.max_delta_days ->
  Date.min_ordinal <= d + days <= Date.max_ordinal ->
  date_plus d days = inr (d + days).
Proof.
  intros Hdays Hd. unfold date_plus, timedelta.
  destruct (Z.leb_spec (Z.abs days) Date.max_delta_days); [|lia].
  destruct (Z.leb_spec Date.min_ordinal (d + days)); [|lia].
  destruct (Z.leb_spec (d + days) Date.max_ordinal); [|lia]. reflexivity.
Qed.

(** A date addition that fails raises OverflowError. *)
Lemma date_plus_inl d days e : date_plus d days = inl e -> exn_cls e = OverflowError.
Proof.
  unfold date_plus, timedelta.
  destruct (Z.abs days <=? Date.max_delta_days); [|by intros [= <-]].
  destruct ((Date.min_ordinal <=? d + days) && (d + days <=? Date.max_ordinal));
    [discriminate|by intros [= <-]].
Qed.

(** ** The synthetic generator *)

Section MockFacts.
Context `{RT : PyRuntime}.

(** [_apply_variation] comes to the variation of the date applied to the
    base rate, whatever the generator state it is entered with; it touches
    the generator only. *)
Lemma apply_variation_spec E self base_rate d w :
  exists w', Mock._apply_variation E self base_rate d w = (varied self base_rate d, w')
             /\ w_cache w' = w_cache w /\ w_sent w' = w_sent w /\ w_rates w' = w_rates w
             /\ w_tried w' = w_tried w /\ w_adapters w' = w_adapters w.
Proof.
  unfold Mock._apply_variation, varied, varied_product, variation, bind, Mock.seed_int,
    Mock.uniform, Mock.seed_entropy, dec_add, dec_mul, dec_round, lift, modify, ret. simpl.
  destruct (random_uniform _ _ _) as [x r]. simpl.
  destruct (Dec.ctx_add Dec.one (Decimal_of_float x)) as [factor|]; simpl; [|by eauto 10].
  destruct (Dec.ctx_mul base_rate factor) as [varied_rate|]; simpl; [|by eauto 10].
  eauto 10.
Qed.

(** The generator after [_apply_variation]: reseeded from OS entropy, once,
    unless the product overflowed before the reseed was reached. *)
Lemma apply_variation_reseeds E self base_rate d w :
  let w' := (Mock._apply_variation E self base_rate d w).2 in
  match varied_product self base_rate d with
  | Some _ => w_rng w' = os_entropy E (w_reseeds w) /\ w_reseeds w' = S (w_reseeds w)
  | None => w_reseeds w' = w_reseeds w
  end.
Proof.
  unfold Mock._apply_variation, varied_product, variation, bind, Mock.seed_int,
    Mock.uniform, Mock.seed_entropy, dec_add, dec_mul, dec_round, lift, modify, ret. simpl.
  destruct (random_uniform _ _ _) as [x r]. simpl.
  destruct (Dec.ctx_add Dec.one (Decimal_of_float x)) as [factor|]; simpl; [|done].
  destruct (Dec.ctx_mul base_rate factor) as [varied_rate|]; simpl; [|done].
  done.
Qed.

Lemma get_base_rate_listed self s t o w :
  listed_base_rate self s t = Some o ->
  Mock._get_base_rate self s t w = (o, w).
Proof.
  unfold listed_base_rate, Mock._get_base_rate. intros H.
  destruct (Mock.base_rates self !! _); [by simplify_eq|].
  destruct (Mock.via_eur self s t) as [[source_to_eur eur_to_target]|]; [|discriminate].
  simpl in H. by simplify_eq.
Qed.

Lemma get_base_rate_unlisted self s t w :
  listed_base_rate self s t = None ->
  (Mock._get_base_rate self s t w).1 = inr (drawn_base_rate (w_rng w))
  /\ w_reseeds (Mock._get_base_rate self s t w).2 = w_reseeds w.
Proof.
  unfold listed_base_rate, Mock._get_base_rate, drawn_base_rate. intros H.
  destruct (Mock.base_rates self !! _); [discriminate|].
  destruct (Mock.via_eur self s t) as [legs|]; [discriminate|].
  unfold bind, Mock.uniform, ret. by destruct (random_uniform _ _ (w_rng w)) as [x r].
Qed.

(** [_get_base_rate] comes to the base rate of the pair in the state of the
    generator; it touches the generator only, and does not reseed it. *)
Lemma get_base_rate_spec self s t w :
  exists w', Mock._get_base_rate self s t w = (base_rate_of self s t (w_rng w), w')
             /\ w_cache w' = w_cache w /\ w_sent w' = w_sent w /\ w_rates w' = w_rates w
             /\ w_tried w' = w_tried w /\ w_adapters w' = w_adapters w
             /\ w_reseeds w' = w_reseeds w.
Proof.
  unfold base_rate_of.
  destruct (listed_base_rate self s t) as [o|] eqn:Hl.
  - rewrite (get_base_rate_listed _ _ _ _ _ Hl). by eauto 10.
  - unfold listed_base_rate, Mock._get_base_rate, drawn_base_rate in *.
    destruct (Mock.base_rates self !! _); [discriminate|].
    destruct (Mock.via_eur self s t) as [legs|]; [discriminate|].
    unfold bind, Mock.uniform, ret. destruct (random_uniform _ _ (w_rng w)) as [x r]. simpl.
    by eauto 10.
Qed.

Lemma mock_rate_same_currency E self s t d w :
  upper s = upper t ->
  Mock.get_exchange_rate E self s t d w
  = (inr (mkResult (upper s) (upper t) d (lit 1000000 (-6)) "Mock Provider"), w).
Proof.
  intros Heq. unfold Mock.get_exchange_rate, bind, ret.
  destruct (decide (upper s = upper t)); [reflexivity|contradiction].
Qed.

(** What a lookup for a pair of different codes comes to: the quote of the
    variation of the date applied to the base rate of the pair. *)
Lemma mock_rate_outcome E self s t d w :
  upper s <> upper t ->
  exists w',
    Mock.get_exchange_rate E self s t d w
    = (quoted s t d (and_then (base_rate_of self s t (w_rng w))
                              (fun base_rate => varied self base_rate d)), w')
    /\ w_cache w' = w_cache w /\ w_sent w' = w_sent w /\ w_rates w' = w_rates w
    /\ w_tried w' = w_tried w /\ w_adapters w' = w_adapters w.
Proof.
  intros Hne. unfold Mock.get_exchange_rate, bind.
  destruct (decide (upper s = upper t)); [contradiction|].
  destruct (get_base_rate_spec self s t w) as (w1 & -> & Hc & Hs & Hr & Ht & Ha & _).
  destruct (base_rate_of self s t (w_rng w)) as [e|base_rate]; simpl; [by eauto 10|].
  destruct (apply_variation_spec E self base_rate d w1)
    as (w2 & -> & Hc2 & Hs2 & Hr2 & Ht2 & Ha2).
  exists w2. split; [|repeat split; congruence].
  by destruct (varied self base_rate d).
Qed.

Lemma mock_rate_listed E self s t d o w :
  upper s <> upper t ->
  listed_base_rate self s t = Some o ->
  (Mock.get_exchange_rate E self s t d w).1
  = quoted s t d (and_then o (fun base_rate => varied self base_rate d)).
Proof.
  intros Hne Hl. destruct (mock_rate_outcome E self s t d w Hne) as (w' & -> & _).
  unfold base_rate_of. by rewrite Hl.
Qed.

Lemma mock_rate_unlisted E self s t d w :
  upper s <> upper t ->
  listed_base_rate self s t = None ->
  (Mock.get_exchange_rate E self s t d w).1
  = quoted s t d (varied self (drawn_base_rate (w_rng w)) d).
Proof.
  intros Hne Hl. destruct (mock_rate_outcome E self s t d w Hne) as (w' & -> & _).
  unfold base_rate_of. by rewrite Hl.
Qed.

(** What the mock adapter's lookup leaves alone, whether it returns or
    raises, and what a quote it returns carries. *)
Lemma mock_rate_frame E self s t d w :
  let out := Mock.get_exchange_rate E self s t d w in
  (w_sent out.2 = w_sent w /\ w_cache out.2 = w_cache w /\ w_rates out.2 = w_rates w)
  /\ (forall q, out.1 = inr q -> mock_quote s t q /\ valuation_date q = d).
Proof.
  cbv zeta. destruct (decide (upper s = upper t)) as [Heq|Hne].
  - rewrite mock_rate_same_currency by done. split; [done|].
    by intros q [= <-].
  - destruct (mock_rate_outcome E self s t d w Hne) as (w' & -> & Hc & Hs & Hr & _).
    split; [done|]. intros q. simpl.
    destruct (and_then _ _) as [e|rate]; simpl; [discriminate|]. by intros [= <-].
Qed.

(** The signals of the arithmetic are the only exceptions of a lookup. *)
Lemma varied_signals self base_rate d e :
  varied self base_rate d = inl e -> e = invalid_operation \/ e = overflow_signal.
Proof.
  unfold varied. destruct (varied_product self base_rate d) as [varied_rate|].
  - destruct (Dec.ctx_round varied_rate 6); simpl; [discriminate|]. intros [= <-]. by left.
  - intros [= <-]. by right.
Qed.

Lemma base_rate_signals self s t rng e :
  base_rate_of self s t rng = inl e -> e = overflow_signal.
Proof.
  unfold base_rate_of, listed_base_rate.
  destruct (Mock.base_rates self !! _); [discriminate|].
  destruct (Mock.via_eur self s t) as [[a b]|]; simpl; [|discriminate].
  destruct (Dec.ctx_mul a b); simpl; [discriminate|]. by intros [= <-].
Qed.

(** A base rate of at most [bound] and a variation of at most 1: the varied
    rate is returned, at six places and at most [2 * bound] in magnitude. *)
Lemma varied_returns self base_rate d bound :
  0 <= bound -> 2 * bound * 10 ^ 6 < 10 ^ 28 ->
  at_most base_rate bound -> at_most (variation self d) 1 ->
  exists rate, varied self base_rate d = inr rate
               /\ expo rate = -6 /\ Z.abs (coef rate) <= 2 * bound * 10 ^ 6.
Proof.
  intros Hb0 Hb Hbase Hvar. unfold varied, varied_product.
  assert (Hone : at_most Dec.one 1) by (vm_compute; discriminate).
  destruct (fix_at_most (Dec.add Dec.one (variation self d)) 2) as (factor & Hf & Hfb);
    [unfold Dec.prec; lia|by apply (at_most_add _ _ 1 1)|].
  unfold Dec.ctx_add. rewrite Hf. simpl.
  destruct (fix_at_most (Dec.mul base_rate factor) (bound * 2)) as (vr & Hv & Hvb);
    [unfold Dec.prec; lia|by apply at_most_mul|].
  unfold Dec.ctx_mul. rewrite Hv.
  destruct (quantize_at_most vr (bound * 2) (-6) ltac:(lia) Hvb) as [He Hc].
  change (- -6) with 6 in Hc.
  change (Dec.ctx_round vr 6) with (Dec.ctx_quantize Dec.prec vr (-6)).
  unfold Dec.ctx_quantize.
  destruct (Z.leb_spec (10 ^ Dec.prec) (Z.abs (coef (quantize vr (-6)))));
    [unfold Dec.prec in *; lia|].
  eexists. split; [reflexivity|]. split; [exact He|lia].
Qed.

(** A lookup for a steady pair on a date of tame variation returns a
    quote. *)
Lemma mock_rate_steady E self s t d bound w :
  1 <= bound -> 2 * bound * 10 ^ 6 < 10 ^ 28 ->
  steady self bound s t -> at_most (variation self d) 1 ->
  exists q w',
    Mock.get_exchange_rate E self s t d w = (inr q, w')
    /\ mock_quote s t q /\ valuation_date q = d
    /\ expo (rate_value q) = -6 /\ Z.abs (coef (rate_value q)) <= 2 * bound * 10 ^ 6
    /\ w_sent w' = w_sent w /\ w_cache w' = w_cache w /\ w_rates w' = w_rates w.
Proof.
  intros Hb0 Hb Hsteady Hvar.
  destruct (decide (upper s = upper t)) as [Heq|Hne].
  { rewrite mock_rate_same_currency by done. do 2 eexists. split; [reflexivity|].
    cbn [rate_value valuation_date lit coef expo]. split; [done|]. split; [done|].
    split; [done|]. split; [|done]. change (Z.abs 1000000) with (10 ^ 6). nia. }
  destruct Hsteady as [Heq|Hbound]; [contradiction|].
  destruct (Hbound (w_rng w)) as (base_rate & Hl & Hbase).
  destruct (mock_rate_outcome E self s t d w Hne) as (w' & Hrun & Hc & Hs & Hr & _).
  rewrite Hl in Hrun. simpl in Hrun.
  destruct (varied_returns self base_rate d bound ltac:(lia) Hb Hbase Hvar)
    as (rate & Hrate & He & Hcoef).
  rewrite Hrate in Hrun. simpl in Hrun.
  do 2 eexists. split; [exact Hrun|]. simpl. by repeat split.
Qed.

(** C10 (as amended). The mock adapter's [get_exchange_rate] never signals
    an adapter error, RateNotFound and ProviderUnavailable included: for
    every pair of currency-code strings, every date and every process state
    the only exceptions it can raise are the two signals of the decimal
    arithmetic, InvalidOperation from the rounding to six places and
    Overflow from a product; it sends no request and leaves the cache and
    the stored rates alone, and a quote it returns carries the upper-cased
    codes, the requested date and the adapter's name. It returns a quote for
    every identity pair, and for any other pair whenever the base rate of
    the pair (the table's, the pivot's or the draw's) is at most 10^21 and
    the variation of the date at most 1 in magnitude, as with the default
    table and volatility. *)
Theorem mock_get_exchange_rate_total E (self : Mock.MockAdapter) (s t : string) (d : Z) (w : world) :
  let out := Mock.get_exchange_rate E self s t d w in
  (forall e, out.1 = inl e ->
     is_adapter_error e = false /\ (e = invalid_operation \/ e = overflow_signal))
  /\ (forall q, out.1 = inr q ->
        source_currency q = upper s /\ exchanged_currency q = upper t
        /\ valuation_date q = d /\ provider_name q = "Mock Provider")
  /\ (w_sent out.2 = w_sent w /\ w_cache out.2 = w_cache w /\ w_rates out.2 = w_rates w)
  /\ (upper s = upper t
      \/ (exists base_rate,
            base_rate_of self s t (w_rng w) = inr base_rate
            /\ at_most base_rate (10 ^ 21) /\ at_most (variation self d) 1) ->
      exists q, out.1 = inr q).
Proof.
  cbv zeta. destruct (mock_rate_frame E self s t d w) as [Hframe Hquote].
  split; [|split; [|split; [exact Hframe|]]].
  - intros e He.
    assert (Hsig : e = invalid_operation \/ e = overflow_signal).
    { destruct (decide (upper s = upper t)) as [Heq|Hne].
      { by rewrite mock_rate_same_currency in He. }
      destruct (mock_rate_outcome E self s t d w Hne) as (w' & Hrun & _).
      rewrite Hrun in He. simpl in He.
      destruct (base_rate_of self s t (w_rng w)) as [e'|base_rate] eqn:Hbase; simpl in He.
      - injection He as <-. right. by eapply base_rate_signals.
      - destruct (varied self base_rate d) as [e'|rate] eqn:Hv; simpl in He; [|discriminate].
        injection He as <-. by eapply varied_signals. }
    split; [|exact Hsig]. by destruct Hsig as [->| ->].
  - intros q Hq. destruct (Hquote q Hq) as ((Hs & Ht & Hn) & Hd). by repeat split.
  - intros [Heq|(base_rate & Hbase & Hb & Hvar)].
    { rewrite mock_rate_same_currency by done. eauto. }
    destruct (decide (upper s = upper t)) as [Heq|Hne].
    { rewrite mock_rate_same_currency by done. eauto. }
    destruct (mock_rate_outcome E self s t d w Hne) as (w' & -> & _).
    rewrite Hbase. simpl.
    destruct (varied_returns self base_rate d (10 ^ 21) ltac:(lia) ltac:(lia) Hb Hvar)
      as (rate & -> & _). simpl. eauto.
Qed.

(** C1 (as amended). For a pair that is an identity pair or whose base rate
    the table gives (a direct entry or the EUR pivot), the quote of
    [get_exchange_rate] is the same for every adapter instance with that
    table and volatility, in every process state and surroundings: it does
    not depend on call order, on earlier draws or on the seed an instance was
    built with. For any other pair the base rate is the draw of the
    process-wide generator in the state the call finds it in, and the quote
    is the variation of the date applied to that draw. *)
Theorem mock_rate_reproducible E1 E2 (self : Mock.MockAdapter) (s t : string) (d : Z)
    (w1 w2 : world) :
  (upper s = upper t \/ is_Some (listed_base_rate self s t) ->
   (Mock.get_exchange_rate E1 self s t d w1).1 = (Mock.get_exchange_rate E2 self s t d w2).1)
  /\ (upper s <> upper t -> listed_base_rate self s t = None ->
      (Mock.get_exchange_rate E1 self s t d w1).1
      = quoted s t d (varied self (drawn_base_rate (w_rng w1)) d)).
Proof.
  split; [|apply mock_rate_unlisted].
  intros [Heq|[o Hl]].
  - by rewrite !mock_rate_same_currency.
  - destruct (decide (upper s = upper t)) as [Heq|Hne].
    + by rewrite !mock_rate_same_currency.
    + by rewrite !(mock_rate_listed _ _ _ _ _ o).
Qed.

End MockFacts.

Lemma mock_rate_reproducible_witness :
  (Mock.get_exchange_rate (Ref.env 738900 Ref.offline [] []) Ref.default_mock
                          "EUR" "USD" 738900 (Ref.fresh [])).1
  = (Mock.get_exchange_rate (Ref.env 738950 Ref.offline [] []) Ref.default_mock
                            "EUR" "USD" 738900 (Ref.fresh [mkDec 25 (-2)])).1.
Proof.
  refine (proj1 (mock_rate_reproducible _ _ Ref.default_mock "EUR" "USD" 738900 _ _) _).
  right. vm_compute. eauto.
Defined.

(** C1 (as stated) fails: the pair JPY/USD has no entry and no EUR pivot in
    the default table, so its base rate is drawn from the process-wide
    generator; two calls in a row for the same pair and date, the first with
    the generator about to return 0.0 and the second after the reseed from OS
    entropy (about to return 0.5), give the rates 0.480750 and 1.201875. *)
Lemma mock_rate_unlisted_pair_varies :
  let E := Ref.env 738900 Ref.offline [] [] in
  let first := Mock.get_exchange_rate E Ref.default_mock "JPY" "USD" 738900
                                      (Ref.fresh [mkDec 0 0]) in
  let second := Mock.get_exchange_rate E Ref.default_mock "JPY" "USD" 738900 first.2 in
  first.1 = inr (mkResult "JPY" "USD" 738900 (mkDec 480750 (-6)) "Mock Provider")
  /\ second.1 = inr (mkResult "JPY" "USD" 738900 (mkDec 1201875 (-6)) "Mock Provider")
  /\ first.1 <> second.1.
Proof.
  vm_compute. repeat split; discriminate.
Qed.

(** The default table and volatility on the reference runtime: every entry
    of the table is at most 2, and the variation of every date at most 1. *)
Lemma default_mock_tame : tame Ref.default_mock.
Proof.
  intros d. unfold variation, at_most.
  change (Mock.volatility Ref.default_mock) with (mkDec 5 (-2)).
  unfold random_uniform, random_seed, float_neg, Decimal_of_float. simpl.
  change (((-2) `min` ((-2) `min` (-2) + -3))) with (-5).
  unfold coef_at, Dec.mul, Dec.add, Ref.neg, coef_at. cbn [coef expo].
  set (m := Mock.date_factor d mod 1000).
  assert (0 <= m < 1000) by (apply Z.mod_pos_bound; lia).
  clearbody m.
  change (10 ^ (-2 - -5)) with 1000. change ((-2) `min` (-2)) with (-2).
  change (10 ^ (-2 - -2)) with 1. change (10 ^ (-2 + -3 - -5)) with 1.
  change (10 ^ (0 `max` (-5))) with 1. change (10 ^ (0 `max` (- (-5)))) with 100000.
  lia.
Qed.

Lemma default_mock_steady s t rate :
  Mock.DEFAULT_BASE_RATES !! (upper s, upper t) = Some rate -> at_most rate 2 ->
  steady Ref.default_mock 2 s t.
Proof.
  intros Hrate Hbound. right. intros rng. exists rate.
  unfold base_rate_of, listed_base_rate.
  change (Mock.base_rates Ref.default_mock) with Mock.DEFAULT_BASE_RATES.
  by rewrite Hrate.
Qed.

Lemma mock_get_exchange_rate_total_witness :
  exists q,
    (Mock.get_exchange_rate (Ref.env 738900 Ref.offline [] []) Ref.default_mock
                            "EUR" "USD" 738900 (Ref.fresh [])).1 = inr q.
Proof.
  apply (mock_get_exchange_rate_total (Ref.env 738900 Ref.offline [] []) Ref.default_mock
           "EUR" "USD" 738900 (Ref.fresh [])).
  right. exists (mkDec 108 (-2)). split; [reflexivity|]. split.
  - vm_compute. discriminate.
  - vm_compute. discriminate.
Defined.

(** C10 (as stated) fails. A mock adapter whose table gives EUR/USD the base
    rate 1E+23 raises decimal.InvalidOperation for that pair: with a
    volatility of 0.05 the varied rate is at least 9.5E+22, which takes more
    than the 28 digits of the context at six places. So does the adapter
    with the default table and a volatility of 1e30. *)
Lemma mock_rate_invalid_operation :
  let E := Ref.env 738900 Ref.offline [] [] in
  (Mock.get_exchange_rate E Ref.inflated_mock "EUR" "USD" 738900 (Ref.fresh [])).1
  = inl invalid_operation
  /\ (Mock.get_exchange_rate E Ref.volatile_mock "EUR" "USD" 738900 (Ref.fresh [])).1
     = inl invalid_operation.
Proof. split; reflexivity. Qed.

(** ** The remote adapter: single-date lookup *)

Section BeaconFacts.
Context `{RT : PyRuntime}.

Lemma make_request_spec E req w :
  exists o, Beacon._make_request E req w = (o, set_sent (w_sent w ++ [req]) w).
Proof.
  unfold Beacon._make_request, bind, get_world, modify, raise, ret.
  destruct (upstream E (w_sent w) req) as [data| | | |]; eauto.
  destruct (items_get "error" data); eauto.
Qed.

Lemma rate_of_target_pure target msg rates w :
  exists o, Beacon.rate_of_target target msg rates w = (o, w).
Proof.
  unfold Beacon.rate_of_target, raise, ret.
  repeat case_match; eauto.
Qed.

Lemma beacon_rate_same_currency E s t d w :
  upper s = upper t ->
  Beacon.get_exchange_rate E s t d w
  = (inr (mkResult (upper s) (upper t) d (lit 1000000 (-6)) "CurrencyBeacon"), w).
Proof.
  intros Heq. unfold Beacon.get_exchange_rate.
  destruct (decide (upper s = upper t)); [reflexivity|contradiction].
Qed.

Lemma beacon_rate_cached E s t d q w :
  upper s <> upper t ->
  w_cache w !! (upper s, upper t, d) = Some q ->
  Beacon.get_exchange_rate E s t d w = (inr q, w).
Proof.
  intros Hne Hc. unfold Beacon.get_exchange_rate, bind, Beacon.cache_get.
  destruct (decide (upper s = upper t)); [contradiction|]. by rewrite Hc.
Qed.

(** A lookup that reaches the upstream service: one request, and either a
    quote dated by the rule, cached under the requested date, or an adapter
    error with the cache as it was. *)
Lemma beacon_rate_fetched E s t d w :
  upper s <> upper t ->
  w_cache w !! (upper s, upper t, d) = None ->
  exists o w',
    Beacon.get_exchange_rate E s t d w = (o, w')
    /\ w_sent w' = w_sent w ++ [single_date_request E (upper s) d]
    /\ same_but_cache_sent w w'
    /\ match o with
       | inr q =>
           source_currency q = upper s /\ exchanged_currency q = upper t
           /\ valuation_date q = Z.min d (today E)
           /\ w_cache w' = <[(upper s, upper t, d) := q]> (w_cache w)
       | inl e =>
           Beacon.is_unavailable_or_not_found e = true /\ w_cache w' = w_cache w
       end.
Proof.
  intros Hne Hc. unfold Beacon.get_exchange_rate, bind, Beacon.cache_get.
  destruct (decide (upper s = upper t)); [contradiction|]. rewrite Hc.
  unfold try_except, bind, single_date_request.
  assert (Hreq : (if today E <=? (if today E <? d then today E else d)
                  then Beacon._make_request E (Latest (upper s))
                  else Beacon._make_request E
                         (Historical (upper s) (if today E <? d then today E else d)))
                 = Beacon._make_request E (if today E <=? d then Latest (upper s)
                                           else Historical (upper s) d)).
  { destruct (Z.ltb_spec (today E) d); [|by destruct (today E <=? d)].
    rewrite Z.leb_refl. destruct (Z.leb_spec (today E) d); [reflexivity|lia]. }
  rewrite Hreq. clear Hreq.
  assert (Hdate : (if today E <=? (if today E <? d then today E else d)
                   then today E else (if today E <? d then today E else d))
                  = Z.min d (today E)).
  { destruct (Z.ltb_spec (today E) d).
    - rewrite Z.leb_refl. lia.
    - destruct (Z.leb_spec (today E) d); lia. }
  rewrite Hdate. clear Hdate.
  set (req := if today E <=? d then Latest (upper s) else Historical (upper s) d).
  destruct (make_request_spec E req w) as [o ->].
  destruct o as [e|data]; simpl.
  - destruct (Beacon.is_unavailable_or_not_found e) eqn:He; unfold reraise, raise;
      (do 2 eexists; split; [reflexivity|]; simpl; split; [reflexivity|];
       split; [by repeat split|]; by split).
  - match goal with |- context [Beacon.rate_of_target ?a ?b ?c ?d] =>
      destruct (rate_of_target_pure a b c d) as [o ->] end.
    destruct o as [e|rate]; simpl.
    + destruct (Beacon.is_unavailable_or_not_found e) eqn:He; unfold reraise, raise;
        (do 2 eexists; split; [reflexivity|]; simpl; split; [reflexivity|];
         split; [by repeat split|]; by split).
    + unfold Beacon.cache_set, modify, ret. simpl.
      do 2 eexists. split; [reflexivity|]. simpl.
      split; [reflexivity|]. split; [by repeat split|]. by repeat split.
Qed.

(** C5. A single-date lookup of the remote adapter never forwards a date to
    /historical that is not the requested date, strictly in the past. When
    the lookup reaches the upstream service (the pair is not an identity pair
    and the date is not cached) it sends exactly one request: /latest when
    the requested date is today or later, a future date being clamped to
    today, the date of the quote returned; /historical with the exact date
    when it is strictly past, the quote being dated so. *)
Theorem beacon_single_date_endpoint E (s t : string) (d : Z) (w : world) :
  let out := Beacon.get_exchange_rate E s t d w in
  (forall base d', Historical base d' ∈ w_sent out.2 ->
     Historical base d' ∈ w_sent w \/ (d' = d /\ d < today E))
  /\ (upper s <> upper t ->
      w_cache w !! (upper s, upper t, d) = None ->
      (today E <= d ->
         w_sent out.2 = w_sent w ++ [Latest (upper s)]
         /\ forall q, out.1 = inr q -> valuation_date q = today E)
      /\ (d < today E ->
         w_sent out.2 = w_sent w ++ [Historical (upper s) d]
         /\ forall q, out.1 = inr q -> valuation_date q = d)).
Proof.
  cbv zeta.
  destruct (decide (upper s = upper t)) as [Heq|Hne].
  { rewrite beacon_rate_same_currency by done. split; [by left|done]. }
  destruct (w_cache w !! (upper s, upper t, d)) as [cached|] eqn:Hc.
  { rewrite (beacon_rate_cached E s t d cached) by done. split; [by left|done]. }
  destruct (beacon_rate_fetched E s t d w Hne Hc) as (o & w' & -> & Hsent & _ & Ho).
  cbn [fst snd]. unfold single_date_request in Hsent. split.
  - intros base d'. rewrite Hsent, elem_of_app, list_elem_of_singleton.
    intros [Hin|Heq]; [by left|right].
    destruct (Z.leb_spec (today E) d); [discriminate|]. by simplify_eq.
  - intros _ _. split.
    + intros Hle. destruct (Z.leb_spec (today E) d); [|lia].
      split; [exact Hsent|]. intros q ->. destruct Ho as (_ & _ & -> & _). lia.
    + intros Hlt. destruct (Z.leb_spec (today E) d); [lia|].
      split; [exact Hsent|]. intros q ->. destruct Ho as (_ & _ & -> & _). lia.
Qed.

End BeaconFacts.

Lemma beacon_single_date_endpoint_witness :
  let E := Ref.env 738900 Ref.offline [] [] in
  let out := Beacon.get_exchange_rate E "eur" "usd" 738907 (Ref.fresh []) in
  w_sent out.2 = w_sent (Ref.fresh []) ++ [Latest (upper "eur")]
  /\ forall q, out.1 = inr q -> valuation_date q = today E.
Proof.
  apply (beacon_single_date_endpoint (Ref.env 738900 Ref.offline [] []) "eur" "usd" 738907
                                     (Ref.fresh [])).
  - discriminate.
  - reflexivity.
  - simpl. lia.
Defined.

(** ** The remote adapter: the per-day fallback *)

Section FallbackFacts.
Context `{RT : PyRuntime}.

Lemma cache_dated_insert source target c d q :
  cache_dated source target c -> valuation_date q = d ->
  cache_dated source target (<[(source, target, d) := q]> c).
Proof.
  intros Hc Hq d' q'. destruct (decide (d' = d)) as [->|Hne].
  - rewrite lookup_insert_eq. by intros [= <-].
  - rewrite lookup_insert_ne by congruence. apply Hc.
Qed.

(** One lookup of the loop, for a date that is not in the future: the stored
    rates and the log are untouched; from a cache dated by its keys, the
    cache stays so and a quote found is dated with the date looked up. *)
Lemma fallback_lookup_spec E source target cur w :
  upper source = source -> upper target = target -> cur <= today E ->
  exists o w',
    Beacon.fallback_lookup E source target cur w = (o, w')
    /\ same_but_cache_sent w w'
    /\ (cache_dated source target (w_cache w) ->
        cache_dated source target (w_cache w')
        /\ forall q, o = inr q -> valuation_date q = cur).
Proof.
  intros Hs Ht Hcur. unfold Beacon.fallback_lookup, bind, Beacon.cache_get.
  destruct (w_cache w !! (source, target, cur)) as [q|] eqn:Hc.
  - do 2 eexists. split; [reflexivity|]. split; [by repeat split|].
    intros Hd. split; [done|]. intros q' [= <-]. by apply Hd.
  - destruct (decide (upper source = upper target)) as [Heq|Hne].
    + rewrite (beacon_rate_same_currency E _ _ _ _ Heq).
      do 2 eexists. split; [reflexivity|]. split; [by repeat split|].
      intros Hd. split; [done|]. by intros q' [= <-].
    + destruct (beacon_rate_fetched E source target cur w Hne) as (o & w' & -> & _ & Hsame & Ho).
      { by rewrite Hs, Ht. }
      do 2 eexists. split; [reflexivity|]. split; [exact Hsame|].
      intros Hd. rewrite Hs, Ht in Ho. destruct o as [e|q].
      * destruct Ho as [_ ->]. split; [done|]. discriminate.
      * destruct Ho as (_ & _ & Hq & ->).
        assert (valuation_date q = cur) by lia.
        split; [by apply cache_dated_insert|]. by intros q' [= <-].
Qed.

Lemma same_but_cache_sent_trans w1 w2 w3 :
  same_but_cache_sent w1 w2 -> same_but_cache_sent w2 w3 -> same_but_cache_sent w1 w3.
Proof. unfold same_but_cache_sent. intuition congruence. Qed.

Lemma same_but_remote_refl w : same_but_remote w w.
Proof. by repeat split. Qed.

Lemma same_but_remote_trans w1 w2 w3 :
  same_but_remote w1 w2 -> same_but_remote w2 w3 -> same_but_remote w1 w3.
Proof. unfold same_but_remote. intuition congruence. Qed.

Lemma same_but_remote_step w w' :
  same_but_cache_sent w w' -> same_but_remote w (set_slept (S (w_slept w')) w').
Proof. unfold same_but_cache_sent, same_but_remote. simpl. intuition congruence. Qed.

Lemma same_but_remote_lookup w w' :
  same_but_cache_sent w w' -> same_but_remote w w'.
Proof. unfold same_but_cache_sent, same_but_remote. intuition congruence. Qed.

(** The loop returns (it never raises) the quotes it entered with followed by
    those it collected; from a cache dated by its keys, the collected quotes
    are dated from [cur] on, in strictly increasing order. *)
Lemma fallback_loop_spec E fuel source target end_date :
  upper source = source -> upper target = target ->
  forall cur results ec w,
  exists more w',
    Beacon.fallback_loop E fuel source target end_date cur results ec w
    = (inr (results ++ more), w')
    /\ same_but_remote w w'
    /\ (cache_dated source target (w_cache w) ->
        Forall (fun d => cur <= d) (dates more) /\ Sorted Z.lt (dates more)).
Proof.
  intros Hs Ht. induction fuel as [|fuel IH]; intros cur results ec w; simpl.
  - exists [], w. rewrite app_nil_r. split; [reflexivity|].
    split; [apply same_but_remote_refl|]. intros _. split; constructor.
  - destruct ((cur <=? end_date) && (cur <=? today E)) eqn:Hcond; cycle 1.
    { exists [], w. rewrite app_nil_r. split; [reflexivity|].
      split; [apply same_but_remote_refl|]. intros _. split; constructor. }
    apply andb_true_iff in Hcond as [_ Hcur%Z.leb_le].
    unfold bind at 1, attempt.
    destruct (fallback_lookup_spec E source target cur w Hs Ht Hcur)
      as (o & w1 & -> & Hsame & Hinv).
    destruct o as [e|q].
    + destruct (is_rate_not_found e).
      * unfold bind at 1, Beacon.sleep, modify.
        destruct (IH (cur + 1) results 0 (set_slept (S (w_slept w1)) w1))
          as (more & w' & -> & Hsame' & Hmore).
        exists more, w'. split; [reflexivity|].
        split; [eapply same_but_remote_trans; [by apply same_but_remote_step|done]|].
        intros Hd. destruct (Hinv Hd) as [Hd1 _]. destruct (Hmore Hd1) as [Hge Hsorted].
        split; [|done]. eapply Forall_impl; [exact Hge|]. simpl. intros; lia.
      * destruct (Beacon.max_errors <=? ec + 1).
        -- exists [], w1. rewrite app_nil_r. split; [reflexivity|].
           split; [by apply same_but_remote_lookup|]. intros _. split; constructor.
        -- unfold bind at 1, Beacon.sleep, modify.
           destruct (IH (cur + 1) results (ec + 1) (set_slept (S (w_slept w1)) w1))
             as (more & w' & -> & Hsame' & Hmore).
           exists more, w'. split; [reflexivity|].
           split; [eapply same_but_remote_trans; [by apply same_but_remote_step|done]|].
           intros Hd. destruct (Hinv Hd) as [Hd1 _]. destruct (Hmore Hd1) as [Hge Hsorted].
           split; [|done]. eapply Forall_impl; [exact Hge|]. simpl. intros; lia.
    + unfold bind at 1, Beacon.sleep, modify.
      destruct (IH (cur + 1) (results ++ [q]) 0 (set_slept (S (w_slept w1)) w1))
        as (more & w' & -> & Hsame' & Hmore).
      exists (q :: more), w'. split; [by rewrite <- app_assoc|].
      split; [eapply same_but_remote_trans; [by apply same_but_remote_step|done]|].
      intros Hd. destruct (Hinv Hd) as [Hd1 Hq]. destruct (Hmore Hd1) as [Hge Hsorted].
      specialize (Hq q eq_refl). unfold dates in *. rewrite fmap_cons, Hq.
      set (ds := valuation_date <$> more) in *. clearbody ds. split.
      * constructor; [lia|]. eapply Forall_impl; [exact Hge|]. simpl. intros; lia.
      * constructor; [exact Hsorted|].
        destruct ds as [|d ds]; constructor.
        apply Forall_cons in Hge as [Hge _]. lia.
Qed.

Lemma Sorted_lt_NoDup (l : list Z) : Sorted Z.lt l -> NoDup l.
Proof.
  intros Hs. apply Sorted_StronglySorted in Hs; [|intros ???; lia].
  induction Hs as [|x l Hs IH Hx]; constructor; [|exact IH].
  intros Hin. rewrite List.Forall_forall in Hx.
  apply list_elem_of_In in Hin. specialize (Hx _ Hin). lia.
Qed.

(** The fallback path returns, sorted ascending by date; from a cache dated
    by its keys no two quotes share a date. *)
Lemma fallback_historical_spec E source target start_date end_date w :
  upper source = source -> upper target = target ->
  exists quotes w',
    Beacon._fallback_historical_rates E source target start_date end_date w
    = (inr quotes, w')
    /\ same_but_remote w w'
    /\ Sorted Z.le (dates quotes)
    /\ (cache_dated source target (w_cache w) -> NoDup (dates quotes)).
Proof.
  intros Hs Ht. unfold Beacon._fallback_historical_rates, bind.
  destruct (fallback_loop_spec E (Z.to_nat (end_date - start_date + 1)) source target
              end_date Hs Ht start_date [] 0 w) as (more & w' & -> & Hsame & Hmore).
  simpl. unfold ret. do 2 eexists. split; [reflexivity|]. split; [exact Hsame|].
  split; [apply sorted_by_date_sorted|].
  intros Hd. apply sorted_by_date_NoDup, Sorted_lt_NoDup. by apply Hmore.
Qed.

Lemma bind_attempt {A B} (m : M A) (k : exn + A -> M B) (w : world) :
  bind (attempt m) k w = k (m w).1 (m w).2.
Proof. unfold bind, attempt. by destruct (m w). Qed.

(** More fuel than the dates left does not change the loop. *)
Lemma fallback_loop_fuel E source target end_date fuel :
  forall fuel' cur results ec w,
  (Z.to_nat (end_date - cur + 1) <= fuel)%nat ->
  (Z.to_nat (end_date - cur + 1) <= fuel')%nat ->
  Beacon.fallback_loop E fuel source target end_date cur results ec w
  = Beacon.fallback_loop E fuel' source target end_date cur results ec w.
Proof.
  induction fuel as [|fuel IH]; intros fuel' cur results ec w Hf Hf'.
  - assert (end_date < cur) by lia.
    destruct fuel'; simpl; [reflexivity|].
    destruct (Z.leb_spec cur end_date); [lia|reflexivity].
  - destruct fuel' as [|fuel'].
    + assert (end_date < cur) by lia. simpl.
      destruct (Z.leb_spec cur end_date); [lia|reflexivity].
    + simpl. destruct (Z.leb_spec cur end_date); [|reflexivity].
      destruct (cur <=? today E); [|reflexivity]. simpl.
      rewrite !bind_attempt.
      destruct (Beacon.fallback_lookup E source target cur w) as [o w1]. simpl.
      assert (Hn : (Z.to_nat (end_date - (cur + 1) + 1) <= fuel)%nat) by lia.
      assert (Hn' : (Z.to_nat (end_date - (cur + 1) + 1) <= fuel')%nat) by lia.
      destruct o as [e|q].
      * destruct (is_rate_not_found e).
        -- unfold bind. simpl. by apply IH.
        -- destruct (Beacon.max_errors <=? ec + 1); [reflexivity|].
           unfold bind. simpl. by apply IH.
      * unfold bind. simpl. by apply IH.
Qed.

(** The loop returns, whatever the lookups do. *)
Lemma fallback_loop_returns E fuel source target end_date :
  forall cur results ec w,
  exists more w',
    Beacon.fallback_loop E fuel source target end_date cur results ec w
    = (inr (results ++ more), w').
Proof.
  induction fuel as [|fuel IH]; intros cur results ec w; simpl.
  - exists [], w. by rewrite app_nil_r.
  - destruct ((cur <=? end_date) && (cur <=? today E)); cycle 1.
    { exists [], w. by rewrite app_nil_r. }
    rewrite bind_attempt.
    destruct (Beacon.fallback_lookup E source target cur w) as [[e|q] w1]; simpl.
    + destruct (is_rate_not_found e); [apply IH|].
      destruct (Beacon.max_errors <=? ec + 1); [|apply IH].
      exists [], w1. by rewrite app_nil_r.
    + unfold bind at 1, Beacon.sleep, modify.
      destruct (IH (cur + 1) (results ++ [q]) 0 (set_slept (S (w_slept w1)) w1))
        as (more & w' & ->).
      exists (q :: more), w'. by rewrite <- app_assoc.
Qed.


End FallbackFacts.

(** ** The remote adapter: date ranges *)

Section RangeFacts.
Context `{RT : PyRuntime}.

Lemma make_request_json E req w data :
  upstream E (w_sent w) req = HttpJson data ->
  items_get "error" data = None ->
  Beacon._make_request E req w = (inr data, set_sent (w_sent w ++ [req]) w).
Proof.
  intros Hup Herr. unfold Beacon._make_request, bind, get_world, modify. simpl.
  by rewrite Hup, Herr.
Qed.

(** When the rates container of the /timeseries response is a list,
    [get_historical_rates] is the per-day fallback over the requested range
    (its end clamped to today); what it returns is sorted ascending by
    valuation date, and holds no two quotes with the same date provided every
    quote cached for the pair is dated as the date of its cache key. *)
Lemma timeseries_list_falls_back E (s t : string) (start_date end_date : Z) (w : world)
    (data : list (string * json)) (l : list json) :
  start_date <= end_date ->
  start_date <= today E ->
  upstream E (w_sent w)
           (Timeseries (upper s) start_date (Z.min end_date (today E)) (upper t))
  = HttpJson data ->
  items_get "error" data = None ->
  Beacon.timeseries_container data = JList l ->
  Beacon.get_historical_rates E s t start_date end_date w
  = Beacon._fallback_historical_rates E (upper s) (upper t) start_date
      (Z.min end_date (today E))
      (set_sent (w_sent w ++ [Timeseries (upper s) start_date (Z.min end_date (today E))
                                         (upper t)]) w)
  /\ exists quotes w',
      Beacon.get_historical_rates E s t start_date end_date w = (inr quotes, w')
      /\ Sorted Z.le (dates quotes)
      /\ (cache_dated (upper s) (upper t) (w_cache w) -> NoDup (dates quotes)).
Proof.
  intros Hrange Hstart Hup Herr Hlist.
  set (w1 := set_sent _ w).
  destruct (fallback_historical_spec E (upper s) (upper t) start_date
              (Z.min end_date (today E)) w1 (upper_idemp s) (upper_idemp t))
    as (quotes & w' & Hfb & _ & Hsorted & Hnodup).
  assert (Heq : Beacon.get_historical_rates E s t start_date end_date w
                = Beacon._fallback_historical_rates E (upper s) (upper t) start_date
                    (Z.min end_date (today E)) w1).
  { unfold Beacon.get_historical_rates.
    destruct (Z.ltb_spec end_date start_date); [lia|].
    destruct (Z.ltb_spec (today E) start_date); [lia|].
    assert (Hmin : (if today E <? end_date then today E else end_date)
                   = Z.min end_date (today E)).
    { destruct (Z.ltb_spec (today E) end_date); lia. }
    rewrite Hmin. unfold try_except, bind at 1.
    rewrite (make_request_json E _ w data Hup Herr), Hlist.
    fold w1. by rewrite Hfb. }
  split; [exact Heq|].
  exists quotes, w'. rewrite Heq. split; [exact Hfb|]. split; [exact Hsorted|].
  exact Hnodup.
Qed.

End RangeFacts.

(** C6. A run in which the list returned for a list-shaped /timeseries
    response holds two quotes of one date. On day 738899 a lookup of EUR/USD
    for the next day, 738900, is clamped: the quote of /latest, dated 738899,
    is cached under the requested date 738900. On day 738900, with that entry
    still alive, the /timeseries response is a list and the fallback over
    738899..738900 fetches the quote of 738899 and takes the cached quote for
    738900: the result is sorted, and both its quotes are dated 738899. *)
Theorem timeseries_list_duplicate_dates :
  let day1 := Ref.env 738899 Ref.restricted_plan [] [] in
  let day2 := Ref.env 738900 Ref.restricted_plan [] [] in
  let w1 := (Beacon.get_exchange_rate day1 "EUR" "USD" 738900 (Ref.fresh [])).2 in
  let out := Beacon.get_historical_rates day2 "EUR" "USD" 738899 738900 w1 in
  w_cache w1 !! ("EUR", "USD", 738900)
  = Some (mkResult "EUR" "USD" 738899 (mkDec 108 (-2)) "CurrencyBeacon")
  /\ out.1 = inr [mkResult "EUR" "USD" 738899 (mkDec 107 (-2)) "CurrencyBeacon";
                 mkResult "EUR" "USD" 738899 (mkDec 108 (-2)) "CurrencyBeacon"]
  /\ (forall quotes, out.1 = inr quotes -> ~ NoDup (dates quotes)).
Proof.
  vm_compute. split; [reflexivity|]. split; [reflexivity|].
  intros quotes [= <-]. intros Hnd.
  apply NoDup_cons in Hnd as [Hnotin _]. apply Hnotin. by left.
Qed.

(** ** Date ranges of both adapters *)

Section HistoricalFacts.
Context `{RT : PyRuntime}.

(** Past the end date the mock adapter's loop is over, whatever fuel is left. *)
Lemma mock_historical_loop_exit E fuel self s t end_date cur results w :
  end_date < cur ->
  Mock.historical_loop E fuel self s t end_date cur results w = (inr results, w).
Proof.
  intros Hlt. destruct fuel; simpl; [reflexivity|].
  destruct (Z.leb_spec cur end_date); [lia|reflexivity].
Qed.

(** The mock adapter's range, when it returns: one quote of the adapter per
    day from [cur] to the end date. *)
Lemma mock_historical_loop_spec E self s t end_date fuel :
  forall cur results w all w',
  fuel = Z.to_nat (end_date - cur + 1) ->
  Mock.historical_loop E fuel self s t end_date cur results w = (inr all, w') ->
  exists more,
    all = results ++ more
    /\ dates more = seqZ cur (end_date - cur + 1)
    /\ Forall (mock_quote s t) more.
Proof.
  induction fuel as [|fuel IH]; intros cur results w all w' Hfuel.
  - simpl. intros [= <- <-]. exists []. rewrite app_nil_r, seqZ_nil by lia. by repeat split.
  - simpl. destruct (Z.leb_spec cur end_date); [|lia].
    unfold bind at 1.
    destruct (mock_rate_frame E self s t cur w) as [_ Hquote].
    destruct (Mock.get_exchange_rate E self s t cur w) as [[e|q] w1]; [discriminate|].
    destruct (Hquote q eq_refl) as [Hq Hd].
    unfold bind at 1, date_add, lift.
    destruct (date_plus cur 1) as [e|next] eqn:Hnext; [discriminate|].
    apply date_plus_inr in Hnext as [-> _].
    intros Hrun. destruct (IH (cur + 1) (results ++ [q]) w1 all w') as (more & -> & Hdates & Hall);
      [lia|exact Hrun|].
    exists (q :: more). split; [by rewrite <- app_assoc|].
    split; [|by constructor].
    unfold dates in *. rewrite fmap_cons, Hd, Hdates.
    rewrite (seqZ_cons cur) by lia. do 2 f_equal; lia.
Qed.

Lemma Sorted_le_seqZ m n : Sorted Z.le (seqZ m n).
Proof.
  destruct (Z.le_gt_cases n 0) as [Hn|Hn]; [rewrite seqZ_nil by lia; constructor|].
  rewrite <- (Z2Nat.id n) by lia. generalize (Z.to_nat n) as k. clear n Hn.
  intros k. revert m. induction k as [|k IH]; intros m.
  - rewrite seqZ_nil by lia. constructor.
  - rewrite seqZ_cons by lia.
    replace (Z.pred (Z.of_nat (S k))) with (Z.of_nat k) by lia.
    constructor; [apply IH|].
    destruct k as [|k]; [rewrite seqZ_nil by lia; constructor|].
    rewrite seqZ_cons by lia. constructor. lia.
Qed.

(** What the mock adapter returns for a range is the days of the range in
    ascending order. *)
Lemma mock_historical_sorted E self s t start_date end_date w quotes w' :
  Mock.get_historical_rates E self s t start_date end_date w = (inr quotes, w') ->
  dates quotes = seqZ start_date (end_date - start_date + 1)
  /\ Sorted Z.le (dates quotes).
Proof.
  unfold Mock.get_historical_rates. intros Hrun.
  destruct (mock_historical_loop_spec E self s t end_date _ start_date [] w quotes w'
              eq_refl Hrun) as (more & -> & Hdates & _).
  split; [exact Hdates|]. cbn [app]. rewrite Hdates. apply Sorted_le_seqZ.
Qed.

(** C8, the mock adapter. With the start date after the end date
    [MockAdapter.get_historical_rates] raises nothing: its loop body never
    runs and it returns the empty list, in the state it was called in (where
    [CurrencyBeaconAdapter.get_historical_rates] raises ValueError, see
    [beacon_historical_inverted_range]). *)
Theorem mock_historical_inverted_range E (self : Mock.MockAdapter) (s t : string)
    (start_date end_date : Z) (w : world) :
  end_date < start_date ->
  Mock.get_historical_rates E self s t start_date end_date w = (inr [], w).
Proof.
  intros Hlt. unfold Mock.get_historical_rates. by apply mock_historical_loop_exit.
Qed.

(** The remote adapter rejects a range whose start is after its end. *)
Lemma beacon_historical_inverted_range E s t start_date end_date w :
  end_date < start_date ->
  Beacon.get_historical_rates E s t start_date end_date w
  = (inl (Exn ValueError "start_date must be before end_date"), w).
Proof.
  intros Hlt. unfold Beacon.get_historical_rates.
  destruct (Z.ltb_spec end_date start_date); [reflexivity|lia].
Qed.

Lemma timeseries_entries_returns source target entries :
  forall results w,
  exists quotes w', Beacon.timeseries_entries source target entries results w = (inr quotes, w').
Proof.
  induction entries as [|[date_str rates] entries IH]; intros results w; simpl.
  - unfold ret. eauto.
  - destruct (Beacon.parse_entry_date date_str); [|apply IH].
    destruct (Beacon.parse_entry_rate target rates); [|apply IH].
    unfold bind, Beacon.cache_set, modify. apply IH.
Qed.

(** Whatever the remote adapter returns for a range is in ascending order of
    date. *)
Lemma beacon_historical_sorted E s t start_date end_date w quotes w' :
  Beacon.get_historical_rates E s t start_date end_date w = (inr quotes, w') ->
  Sorted Z.le (dates quotes).
Proof.
  unfold Beacon.get_historical_rates.
  destruct (end_date <? start_date); [discriminate|].
  destruct (today E <? start_date); [intros [= <- _]; constructor|].
  set (end' := if today E <? end_date then today E else end_date).
  assert (Hfb : forall w0 quotes0 w0',
             Beacon._fallback_historical_rates E (upper s) (upper t) start_date end' w0
             = (inr quotes0, w0') -> Sorted Z.le (dates quotes0)).
  { intros w0 quotes0 w0' Heq.
    destruct (fallback_historical_spec E (upper s) (upper t) start_date end' w0
                (upper_idemp s) (upper_idemp t)) as (q' & w'' & Heq' & _ & Hsorted & _).
    rewrite Heq in Heq'. by simplify_eq. }
  unfold try_except, bind at 1.
  destruct (Beacon._make_request E _ w) as [[e|data] w1]; [apply Hfb|].
  destruct (Beacon.timeseries_container data) as [| | | |l|entries].
  1-5: destruct (Beacon._fallback_historical_rates E (upper s) (upper t) start_date end' w1)
         as [[e|q1] w2] eqn:Heq; [apply Hfb|intros [= <- _]; by eapply Hfb].
  unfold bind.
  destruct (timeseries_entries_returns (upper s) (upper t) entries [] w1)
    as (results & w2 & ->).
  destruct results as [|r results].
  - destruct (Beacon._fallback_historical_rates E (upper s) (upper t) start_date end' w2)
      as [[e|q1] w3] eqn:Heq; [apply Hfb|intros [= <- _]; by eapply Hfb].
  - unfold ret. intros [= <- _]. apply (sorted_by_date_sorted (r :: results)).
Qed.

(** C9, the remote adapter. [CurrencyBeaconAdapter.get_exchange_rates_for_date]
    never returns a list of quotes: whatever the upstream service answers,
    the local [rates] is read before any assignment, and the handler turns
    the resulting error, like any failed request, into ProviderUnavailable. *)
Theorem beacon_rates_for_date_never_succeeds E (s : string) (d : Z)
    (targets : option (list string)) (w : world) :
  exists msg w',
    Beacon.get_exchange_rates_for_date E s d targets w
    = (inl (Exn ProviderUnavailableError msg), w').
Proof.
  unfold Beacon.get_exchange_rates_for_date, try_except, bind at 1.
  match goal with |- context [(if ?c then Beacon._make_request E ?a else Beacon._make_request E ?b) w] =>
    assert (Hreq : exists o w1, (if c then Beacon._make_request E a
                                 else Beacon._make_request E b) w = (o, w1))
      by (destruct c; [destruct (make_request_spec E a w) as [o Ho]
                      |destruct (make_request_spec E b w) as [o Ho]]; eauto)
  end.
  destruct Hreq as (o & w1 & ->).
  destruct o as [e|data]; unfold raise; eauto.
Qed.

(** The mock adapter's batch for a date, when it returns: a quote per
    target, none for the source itself. *)
Lemma mock_rates_for_targets_spec E self s d targets :
  forall results w all w',
  Mock.rates_for_targets E self s d targets results w = (inr all, w') ->
  exists more,
    all = results ++ more
    /\ exchanged_currency <$> more
       = List.filter (fun c => negb (bool_decide (c = upper s))) (upper <$> targets)
    /\ Forall (fun q => source_currency q = upper s /\ valuation_date q = d) more.
Proof.
  induction targets as [|target targets IH]; intros results w all w'; simpl.
  - intros [= <- <-]. exists []. by rewrite app_nil_r.
  - destruct (decide (upper target <> upper s)) as [Hne|Heq].
    + unfold bind at 1.
      destruct (mock_rate_frame E self s target d w) as [_ Hquote].
      destruct (Mock.get_exchange_rate E self s target d w) as [[e|q] w1]; [discriminate|].
      destruct (Hquote q eq_refl) as [(Hqs & Hqt & _) Hd].
      intros Hrun. destruct (IH (results ++ [q]) w1 all w' Hrun) as (more & -> & Hmore & Hall).
      exists (q :: more). split; [by rewrite <- app_assoc|].
      rewrite bool_decide_eq_false_2 by done. cbn [negb].
      split; [rewrite fmap_cons, Hqt; f_equal; exact Hmore|by constructor].
    + intros Hrun. destruct (IH results w all w' Hrun) as (more & -> & Hmore & Hall).
      exists more. split; [reflexivity|].
      rewrite bool_decide_eq_true_2; [by split|].
      by destruct (decide (upper target = upper s)); [|exfalso; apply Heq].
Qed.

End HistoricalFacts.

Lemma mock_historical_inverted_range_witness :
  Mock.get_historical_rates (Ref.env 738900 Ref.offline [] []) Ref.default_mock
                            "EUR" "USD" 738900 738895 (Ref.fresh [])
  = (inr [], Ref.fresh []).
Proof.
  apply (mock_historical_inverted_range (Ref.env 738900 Ref.offline [] []) Ref.default_mock
           "EUR" "USD" 738900 738895 (Ref.fresh [])).
  lia.
Defined.

(** ** Frames: what the adapters leave alone *)

Section KeepsMonad.
Context `{RT : PyRuntime} {B : Type} (f : world -> B).

Lemma keeps_ret {A} (a : A) : keeps f (ret a).
Proof. by intros w. Qed.

Lemma keeps_raise {A} c msg : keeps f (raise (A := A) c msg).
Proof. by intros w. Qed.

Lemma keeps_reraise {A} e : keeps f (reraise (A := A) e).
Proof. by intros w. Qed.

Lemma keeps_get_world : keeps f get_world.
Proof. by intros w. Qed.

Lemma keeps_modify g : (forall w, f (g w) = f w) -> keeps f (modify g).
Proof. intros Hg w. apply Hg. Qed.

Lemma keeps_bind {A C} (m : M A) (k : A -> M C) :
  keeps f m -> (forall a, keeps f (k a)) -> keeps f (bind m k).
Proof.
  intros Hm Hk w. unfold bind. specialize (Hm w).
  destruct (m w) as [[e|a] w1]; simpl in *; [done|]. by rewrite Hk.
Qed.

Lemma keeps_bind_returns {A C} (P : A -> Prop) (m : M A) (k : A -> M C) :
  keeps f m -> returns P m -> (forall a, P a -> keeps f (k a)) -> keeps f (bind m k).
Proof.
  intros Hm HP Hk w. unfold bind. specialize (Hm w). specialize (HP w).
  destruct (m w) as [[e|a] w1]; simpl in *; [done|]. rewrite Hk; eauto.
Qed.

Lemma keeps_try_except {A} (body : M A) handler :
  keeps f body -> (forall e, keeps f (handler e)) -> keeps f (try_except body handler).
Proof.
  intros Hm Hh w. unfold try_except. specialize (Hm w).
  destruct (body w) as [[e|a] w1]; simpl in *; [|done]. by rewrite Hh.
Qed.

Lemma keeps_attempt {A} (body : M A) : keeps f body -> keeps f (attempt body).
Proof. intros Hm w. unfold attempt. specialize (Hm w). by destruct (body w). Qed.

End KeepsMonad.

Create HintDb keeps discriminated.

#[export] Hint Resolve keeps_ret keeps_raise keeps_reraise keeps_get_world keeps_attempt : keeps.

(** Break a [keeps] goal along the structure of the code. *)
Ltac keeps_step :=
  match goal with
  | |- keeps _ (bind _ _) => apply keeps_bind; [|intros ?]
  | |- keeps _ (try_except _ _) => apply keeps_try_except; [|intros ?]
  | |- keeps _ (attempt _) => apply keeps_attempt
  | |- keeps _ (modify _) => apply keeps_modify; intros ?; simpl; (done || eauto)
  | |- keeps _ (match ?x with _ => _ end) => destruct x
  | |- keeps _ (let _ := _ in _) => simpl
  | |- keeps _ _ => solve [eauto with keeps]
  end.

Ltac keeps_auto := repeat keeps_step.

Section KeepsAdapters.
Context `{RT : PyRuntime} {B : Type} (f : world -> B).

(** [f] does not look at what the adapters write: the generator, the cache,
    the requests sent and the sleeps. *)
Hypothesis f_rng : forall r w, f (set_rng r w) = f w.
Hypothesis f_reseeds : forall n w, f (set_reseeds n w) = f w.
Hypothesis f_cache : forall c w, f (set_cache c w) = f w.
Hypothesis f_sent : forall s w, f (set_sent s w) = f w.
Hypothesis f_slept : forall n w, f (set_slept n w) = f w.

Lemma keeps_uniform a b : keeps f (Mock.uniform a b).
Proof. intros w. unfold Mock.uniform. destruct (random_uniform _ _ _). apply f_rng. Qed.

Lemma keeps_seed_int n : keeps f (Mock.seed_int n).
Proof. unfold Mock.seed_int. keeps_auto. Qed.

Lemma keeps_seed_entropy E : keeps f (Mock.seed_entropy E).
Proof. unfold Mock.seed_entropy. apply keeps_modify. intros w. by rewrite f_reseeds, f_rng. Qed.

Hint Resolve keeps_uniform keeps_seed_int keeps_seed_entropy : keeps.

Lemma keeps_mock_init config : keeps f (Mock.init config).
Proof. unfold Mock.init. keeps_auto. Qed.

Lemma keeps_mock_rate E self s t d : keeps f (Mock.get_exchange_rate E self s t d).
Proof.
  unfold Mock.get_exchange_rate, Mock._get_base_rate, Mock._apply_variation. keeps_auto.
Qed.

Hint Resolve keeps_mock_rate : keeps.

Lemma keeps_mock_rates_for_date E self s d targets :
  keeps f (Mock.get_exchange_rates_for_date E self s d targets).
Proof.
  unfold Mock.get_exchange_rates_for_date. generalize (@nil ExchangeRateResult).
  induction (default _ targets) as [|target l IH]; intros results; simpl; keeps_auto.
Qed.

Lemma keeps_mock_historical E self s t start_date end_date :
  keeps f (Mock.get_historical_rates E self s t start_date end_date).
Proof.
  unfold Mock.get_historical_rates.
  generalize (Z.to_nat (end_date - start_date + 1)) as fuel.
  generalize (@nil ExchangeRateResult) start_date. intros results cur fuel.
  revert results cur.
  induction fuel as [|fuel IH]; intros results cur; simpl; keeps_auto.
Qed.

Lemma keeps_cache_get key : keeps f (Beacon.cache_get key).
Proof. by intros w. Qed.

Lemma keeps_cache_set key q : keeps f (Beacon.cache_set key q).
Proof. unfold Beacon.cache_set. keeps_auto. Qed.

Lemma keeps_sleep : keeps f Beacon.sleep.
Proof. unfold Beacon.sleep. keeps_auto. Qed.

Lemma keeps_make_request E req : keeps f (Beacon._make_request E req).
Proof. intros w. destruct (make_request_spec E req w) as [o ->]. apply f_sent. Qed.

Lemma keeps_rate_of_target target msg rates : keeps f (Beacon.rate_of_target target msg rates).
Proof. intros w. by destruct (rate_of_target_pure target msg rates w) as [o ->]. Qed.

Hint Resolve keeps_cache_get keeps_cache_set keeps_sleep keeps_make_request
  keeps_rate_of_target : keeps.

Lemma keeps_beacon_rate E s t d : keeps f (Beacon.get_exchange_rate E s t d).
Proof. unfold Beacon.get_exchange_rate. keeps_auto. Qed.

Hint Resolve keeps_beacon_rate : keeps.

Lemma keeps_beacon_latest E s t : keeps f (Beacon.get_latest_rate E s t).
Proof. unfold Beacon.get_latest_rate. keeps_auto. Qed.

Lemma keeps_quotes_of_items source actual_date items :
  forall results, keeps f (Beacon.quotes_of_items source actual_date items results).
Proof.
  induction items as [|[currency rate] items IH]; intros results; simpl; keeps_auto.
Qed.

Lemma keeps_json_items rates : keeps f (Beacon.json_items rates).
Proof. unfold Beacon.json_items. keeps_auto. Qed.

Hint Resolve keeps_quotes_of_items keeps_json_items : keeps.

Lemma keeps_beacon_rates_for_date E s d targets :
  keeps f (Beacon.get_exchange_rates_for_date E s d targets).
Proof.
  unfold Beacon.get_exchange_rates_for_date, Beacon.read_local. keeps_auto.
Qed.

Lemma keeps_fallback E source target start_date end_date :
  keeps f (Beacon._fallback_historical_rates E source target start_date end_date).
Proof.
  unfold Beacon._fallback_historical_rates. apply keeps_bind; [|intros; keeps_auto].
  generalize (Z.to_nat (end_date - start_date + 1)) as fuel.
  generalize (@nil ExchangeRateResult) 0 start_date. intros results ec cur fuel.
  revert results ec cur.
  induction fuel as [|fuel IH]; intros results ec cur; simpl;
    unfold Beacon.fallback_lookup; keeps_auto.
Qed.

Hint Resolve keeps_fallback : keeps.

Lemma keeps_timeseries_entries source target entries :
  forall results, keeps f (Beacon.timeseries_entries source target entries results).
Proof.
  induction entries as [|[date_str rates] entries IH]; intros results; simpl; keeps_auto.
Qed.

Hint Resolve keeps_timeseries_entries : keeps.

Lemma keeps_beacon_historical E s t start_date end_date :
  keeps f (Beacon.get_historical_rates E s t start_date end_date).
Proof. unfold Beacon.get_historical_rates. keeps_auto. Qed.

Lemma mock_adapter_keeps E self : adapter_keeps f (Manager.mock_adapter E self).
Proof.
  repeat split; simpl; intros.
  - apply keeps_mock_rate.
  - apply keeps_mock_rates_for_date.
  - apply keeps_mock_historical.
  - apply keeps_mock_rate.
Qed.

Lemma beacon_adapter_keeps E : adapter_keeps f (Manager.beacon_adapter E).
Proof.
  repeat split; simpl; intros.
  - apply keeps_beacon_rate.
  - apply keeps_beacon_rates_for_date.
  - apply keeps_beacon_historical.
  - apply keeps_beacon_latest.
Qed.

Lemma no_adapter_keeps type_name : adapter_keeps f (Manager.no_adapter type_name).
Proof. repeat split; simpl; intros; apply keeps_raise. Qed.

Lemma instance_of_keeps E cls config : adapter_keeps f (Manager.instance_of E cls config).
Proof.
  destruct cls; [apply mock_adapter_keeps|apply beacon_adapter_keeps|apply no_adapter_keeps..].
Qed.

End KeepsAdapters.

(** ** The provider manager *)

Section ManagerFacts.
Context `{RT : PyRuntime}.

Lemma provider_leb_total p q :
  Manager.provider_leb p q = false -> Manager.provider_leb q p = true.
Proof.
  unfold Manager.provider_leb. intros H.
  apply orb_false_iff in H as [Hlt H].
  apply Z.ltb_ge in Hlt.
  destruct (Z.ltb_spec (priority q) (priority p)); [reflexivity|].
  assert (Heq : priority p = priority q) by lia.
  rewrite Heq, Z.eqb_refl in *. simpl in *.
  destruct (String.leb_total (name p) (name q)); congruence.
Qed.

Lemma insert_provider_perm p l : Manager.insert_provider p l ≡ₚ p :: l.
Proof.
  induction l as [|q l IH]; simpl; [reflexivity|].
  destruct (Manager.provider_leb p q); [reflexivity|].
  rewrite IH. apply perm_swap.
Qed.

Lemma order_by_perm l : Manager.order_by_priority_name l ≡ₚ l.
Proof.
  induction l as [|p l IH]; simpl; [reflexivity|].
  by rewrite insert_provider_perm, IH.
Qed.

Lemma insert_provider_sorted p l :
  Sorted provider_le l -> Sorted provider_le (Manager.insert_provider p l).
Proof.
  induction l as [|q l IH]; simpl; intros Hs.
  - repeat constructor.
  - destruct (Manager.provider_leb p q) eqn:Hpq.
    + constructor; [exact Hs|]. by constructor.
    + apply Sorted_inv in Hs as [Hs Hhd].
      constructor; [by apply IH|].
      destruct l as [|q' l]; simpl.
      * constructor. by apply provider_leb_total.
      * destruct (Manager.provider_leb p q') eqn:Hpq'.
        -- constructor. by apply provider_leb_total.
        -- apply HdRel_inv in Hhd. by constructor.
Qed.

Lemma order_by_sorted l : Sorted provider_le (Manager.order_by_priority_name l).
Proof.
  induction l as [|p l IH]; simpl; [constructor|]. by apply insert_provider_sorted.
Qed.

(** The providers tried are the active rows in ascending (priority, name)
    order. *)
Lemma active_providers_spec E :
  Sorted provider_le (Manager.get_active_providers E)
  /\ (forall p, p ∈ Manager.get_active_providers E <-> p ∈ providers E /\ is_active p = true)
  /\ (NoDup (name <$> providers E) -> NoDup (name <$> Manager.get_active_providers E)).
Proof.
  unfold Manager.get_active_providers. split; [apply order_by_sorted|]. split.
  - intros p. rewrite order_by_perm, list_elem_of_filter. tauto.
  - intros Hnd. rewrite order_by_perm.
    induction (providers E) as [|q l IH]; [constructor|].
    rewrite fmap_cons in Hnd. apply NoDup_cons in Hnd as [Hq Hl].
    rewrite filter_cons. destruct (decide (is_active q = true)); [|by apply IH].
    rewrite fmap_cons. apply NoDup_cons. split; [|by apply IH].
    intros Hin. apply Hq.
    apply list_elem_of_fmap in Hin as (q' & -> & Hin).
    apply list_elem_of_filter in Hin as [_ Hin].
    apply list_elem_of_fmap. eauto.
Qed.

(** The known paths name the two adapter classes. *)
Lemma importable_classes path cls :
  Manager.importable path = Some cls ->
  cls = MockAdapterClass \/ cls = CurrencyBeaconAdapterClass.
Proof.
  unfold Manager.importable. repeat case_decide; intros [= <-]; auto.
Qed.

(** Resolving the adapter of a provider whose path names an adapter class:
    the instance of that class for the provider's config; the process state
    changes at most in the generator (a seed the mock adapter is configured
    with) and in the adapter cache. *)
Lemma get_adapter_spec E path config cls w :
  Manager.importable path = Some cls ->
  adapters_cache_wf w ->
  exists w',
    Manager.get_adapter E path config w = (inr (Manager.instance_of E cls config), w')
    /\ adapters_cache_wf w'
    /\ w_cache w' = w_cache w /\ w_sent w' = w_sent w /\ w_rates w' = w_rates w
    /\ w_tried w' = w_tried w /\ w_slept w' = w_slept w.
Proof.
  intros Himp Hwf. unfold Manager.get_adapter, bind, get_world. simpl.
  destruct (Manager.cached_class (path, config) (w_adapters w)) as [cls'|] eqn:Hc.
  - apply Hwf in Hc. assert (cls' = cls) as -> by congruence.
    exists w. by repeat split.
  - unfold Manager._import_adapter_class. rewrite Himp. unfold ret at 1.
    assert (Hnew : forall w1, w_adapters w1 = (path, config, cls) :: w_adapters w ->
              adapters_cache_wf w1).
    { intros w1 Hw1 path' config' cls'. rewrite Hw1. simpl.
      destruct (decide ((path, config) = (path', config'))) as [[= <- <-]|Hne].
      - intros [= <-]. exact Himp.
      - apply Hwf. }
    destruct (importable_classes path cls Himp) as [-> | ->]; simpl.
    + unfold bind, Mock.init. simpl.
      destruct (cfg_seed config) as [seed|]; simpl;
        unfold bind, Mock.seed_int, modify, ret; simpl;
        (eexists; split; [reflexivity|]; split; [by apply Hnew|]; by repeat split).
    + unfold ret, modify. simpl.
      eexists; split; [reflexivity|]; split; [by apply Hnew|]; by repeat split.
Qed.

Section Failover.
Context (E : Env) {R : Type} (operation : Manager.Adapter -> M R).

(** What an attempt on each provider comes to, and an invariant [I] of the
    process state under which it does. *)
Context (I : world -> Prop) (outcome : Provider -> exn + R).

Lemma failover_loop_all_fail :
  attempt_determined E operation I outcome ->
  forall ps last_error w,
    (forall p, p ∈ ps -> p ∈ Manager.get_active_providers E) -> I w ->
    Forall (fails outcome) ps ->
    exists w',
      Manager.failover_loop E operation ps last_error w
      = (inl (aggregate (last_error_after outcome ps last_error)), w')
      /\ w_tried w' = w_tried w ++ (name <$> ps).
Proof.
  intros Hdet. induction ps as [|p ps IH]; intros last_error w Hin HI Hfail.
  - exists w. simpl. unfold raise. by rewrite app_nil_r.
  - apply Forall_cons in Hfail as [(e & He & Hadapter) Hfail].
    destruct (Hdet p w) as (Ho & HI' & Htried); [apply Hin; by left|done|].
    simpl. unfold try_except.
    destruct (Manager.try_provider E operation p w) as [o w1]. simpl in *.
    rewrite Ho, He, Hadapter.
    destruct (IH (Some e) w1) as (w' & -> & Htried'); [|done|done|].
    { intros q Hq. apply Hin. by right. }
    exists w'. split; [reflexivity|].
    rewrite Htried', Htried, <- app_assoc. reflexivity.
Qed.

Lemma failover_loop_first_success :
  attempt_determined E operation I outcome ->
  forall failed p rest r last_error w,
    (forall q, q ∈ failed ++ p :: rest -> q ∈ Manager.get_active_providers E) -> I w ->
    Forall (fails outcome) failed -> outcome p = inr r ->
    exists w',
      Manager.failover_loop E operation (failed ++ p :: rest) last_error w = (inr r, w')
      /\ w_tried w' = w_tried w ++ (name <$> failed ++ [p]).
Proof.
  intros Hdet. induction failed as [|q failed IH]; intros p rest r last_error w Hin HI Hfail Hp.
  - destruct (Hdet p w) as (Ho & HI' & Htried); [apply Hin; by left|done|].
    simpl. unfold try_except.
    destruct (Manager.try_provider E operation p w) as [o w1]. simpl in *.
    rewrite Ho, Hp. by exists w1.
  - apply Forall_cons in Hfail as [(e & He & Hadapter) Hfail].
    destruct (Hdet q w) as (Ho & HI' & Htried); [apply Hin; by left|done|].
    simpl. unfold try_except.
    destruct (Manager.try_provider E operation q w) as [o w1]. simpl in *.
    rewrite Ho, He, Hadapter.
    destruct (IH p rest r (Some e) w1) as (w' & -> & Htried'); [|done|done|done|].
    { intros q' Hq'. apply Hin. by right. }
    exists w'. split; [reflexivity|].
    rewrite Htried', Htried, <- app_assoc. reflexivity.
Qed.

Lemma last_error_after_snoc ps p e last_error :
  outcome p = inl e -> last_error_after outcome (ps ++ [p]) last_error = Some e.
Proof. intros He. unfold last_error_after. by rewrite foldl_app; simpl; rewrite He. Qed.

End Failover.

(** C2. [execute_with_failover] goes through the active providers in
    ascending (priority, name) order, trying each at most once: with no
    active provider it raises the aggregate error at once, the process state
    untouched (no adapter is resolved or invoked); it returns the result of
    the first provider whose attempt succeeds, having tried exactly the
    providers before it, which failed with adapter errors, and that one, in
    order; and when every provider fails with an adapter error it raises the
    aggregate error carrying the message of the last provider's error, having
    tried every active provider once, in order. (The outcome of an attempt on
    each provider is given by [outcome], under an invariant [I] of the
    process state.) *)
Theorem execute_with_failover_spec E {R : Type} (operation : Manager.Adapter -> M R)
    (I : world -> Prop) (outcome : Provider -> exn + R) (w : world) :
  attempt_determined E operation I outcome ->
  I w ->
  let active := Manager.get_active_providers E in
  let out := Manager.execute_with_failover E operation w in
  (Sorted provider_le active
   /\ (forall p, p ∈ active <-> p ∈ providers E /\ is_active p = true)
   /\ (NoDup (name <$> providers E) -> NoDup (name <$> active)))
  /\ (active = [] ->
      out = (inl (Exn ExchangeRateAdapterError
                      "No active exchange rate providers configured"), w))
  /\ (forall failed p rest r,
        active = failed ++ p :: rest ->
        Forall (fails outcome) failed -> outcome p = inr r ->
        out.1 = inr r /\ w_tried out.2 = w_tried w ++ (name <$> failed ++ [p]))
  /\ (forall failed p e,
        active = failed ++ [p] ->
        Forall (fails outcome) failed -> outcome p = inl e -> is_adapter_error e = true ->
        out.1 = inl (Exn ExchangeRateAdapterError
                         ("All providers failed. Last error: " +:+ exn_msg e))
        /\ w_tried out.2 = w_tried w ++ (name <$> active)).
Proof.
  intros Hdet HI. cbv zeta. split; [apply active_providers_spec|].
  unfold Manager.execute_with_failover.
  destruct (Manager.get_active_providers E) as [|q active'] eqn:Hl.
  { split; [done|]. split.
    - intros failed p rest r Hactive. by destruct failed.
    - intros failed p e Hactive. by destruct failed. }
  split; [done|]. split.
  - intros failed p rest r Hactive Hfail Hp.
    destruct (failover_loop_first_success E operation I outcome Hdet failed p rest r None w)
      as (w' & Heq & Htried); try done.
    { intros q' Hq'. by rewrite Hl, Hactive. }
    by rewrite Hactive, Heq.
  - intros failed p e Hactive Hfail Hp Hadapter.
    destruct (failover_loop_all_fail E operation I outcome Hdet (q :: active') None w)
      as (w' & Heq & Htried); try done.
    { intros q' Hq'. by rewrite Hl. }
    { rewrite Hactive. apply Forall_app. split; [done|]. constructor; [|constructor].
      by exists e. }
    rewrite Heq. cbn [fst snd]. split; [|exact Htried].
    rewrite Hactive, (last_error_after_snoc outcome failed p e None Hp). reflexivity.
Qed.

End ManagerFacts.

(** ** The manager keeps what the adapters keep *)

Section KeepsManager.
Context `{RT : PyRuntime} {B : Type} (f : world -> B).

Hypothesis f_rng : forall r w, f (set_rng r w) = f w.
Hypothesis f_reseeds : forall n w, f (set_reseeds n w) = f w.
Hypothesis f_cache : forall c w, f (set_cache c w) = f w.
Hypothesis f_sent : forall s w, f (set_sent s w) = f w.
Hypothesis f_slept : forall n w, f (set_slept n w) = f w.
Hypothesis f_adapters : forall a w, f (set_adapters a w) = f w.
Hypothesis f_tried : forall t w, f (set_tried t w) = f w.

Lemma keeps_get_adapter E path config : keeps f (Manager.get_adapter E path config).
Proof.
  unfold Manager.get_adapter, Manager._import_adapter_class, Manager.construct.
  pose proof (keeps_mock_init f f_rng). keeps_auto.
Qed.

Lemma returns_construct E cls config :
  returns (adapter_keeps f) (Manager.construct E cls config).
Proof.
  intros w a w'. destruct cls; simpl.
  - unfold bind. destruct (Mock.init (Some config) w) as [[e|self] w1]; [discriminate|].
    unfold ret. intros [= <- _]. by apply mock_adapter_keeps.
  - unfold ret. intros [= <- _]. by apply beacon_adapter_keeps.
  - discriminate.
  - unfold ret. intros [= <- _]. by apply no_adapter_keeps.
Qed.

Lemma returns_get_adapter E path config :
  returns (adapter_keeps f) (Manager.get_adapter E path config).
Proof.
  intros w a w'. unfold Manager.get_adapter, bind, get_world. simpl.
  destruct (Manager.cached_class _ _) as [cls|].
  - intros [= <- _]. by apply instance_of_keeps.
  - destruct (Manager._import_adapter_class E path w) as [[e|cls] w1]; [discriminate|].
    pose proof (returns_construct E cls config w1) as Hc.
    destruct (Manager.construct E cls config w1) as [[e|adapter] w2]; [discriminate|].
    unfold modify, ret. simpl. intros [= <- _]. by eapply Hc.
Qed.

Lemma keeps_try_provider E {R} (operation : Manager.Adapter -> M R) p :
  (forall a, adapter_keeps f a -> keeps f (operation a)) ->
  keeps f (Manager.try_provider E operation p).
Proof.
  intros Hop. unfold Manager.try_provider, Manager.get_adapter_for_provider.
  eapply keeps_bind_returns; [apply keeps_get_adapter|apply returns_get_adapter|].
  intros a Ha. unfold Manager.log_trying. keeps_auto.
Qed.

Lemma keeps_execute_with_failover E {R} (operation : Manager.Adapter -> M R) :
  (forall a, adapter_keeps f a -> keeps f (operation a)) ->
  keeps f (Manager.execute_with_failover E operation).
Proof.
  intros Hop. unfold Manager.execute_with_failover.
  destruct (Manager.get_active_providers E) as [|p ps] eqn:Hl; [keeps_auto|].
  generalize (@None exn). generalize (p :: ps). clear Hl p ps.
  intros ps. induction ps as [|p ps IH]; intros last_error; simpl; [keeps_auto|].
  apply keeps_try_except; [by apply keeps_try_provider|].
  intros e. destruct (is_adapter_error e); [apply IH|keeps_auto].
Qed.

End KeepsManager.

(** ** The stored rates *)

Section ServiceFacts.
Context `{RT : PyRuntime}.

Import Service.

Lemma has_key_true k r : has_key k r = true <-> row_key r = k.
Proof. unfold has_key. apply bool_decide_eq_true. Qed.

Lemma filter_has_key_nil k rows :
  List.filter (has_key k) rows = [] <-> k ∉ row_key <$> rows.
Proof.
  induction rows as [|r rows IH]; simpl.
  - split; [intros _; apply not_elem_of_nil|done].
  - rewrite not_elem_of_cons. destruct (has_key k r) eqn:Hk.
    + apply has_key_true in Hk. split; [discriminate|]. intros [Hne _]. by destruct Hne.
    + rewrite IH. split; [|tauto]. intros Hnot. split; [|done].
      intros ->. assert (has_key (row_key r) r = true) by by apply has_key_true. congruence.
Qed.

Lemma filter_has_key_unique k rows :
  unique_keys rows ->
  List.filter (has_key k) rows = []
  \/ exists r, List.filter (has_key k) rows = [r] /\ row_key r = k.
Proof.
  unfold unique_keys. induction rows as [|r rows IH]; simpl; [by left|].
  rewrite NoDup_cons. intros [Hnotin Hnd].
  destruct (has_key k r) eqn:Hk.
  - right. exists r. apply has_key_true in Hk. split; [|done].
    f_equal. apply filter_has_key_nil. by rewrite <- Hk.
  - by apply IH.
Qed.

Lemma overwrite_keys k row rows :
  row_key row = k -> row_key <$> overwrite k row rows = row_key <$> rows.
Proof.
  intros Hrow. induction rows as [|r rows IH]; simpl; [done|].
  f_equal; [|exact IH].
  destruct (has_key k r) eqn:Hk; [|done]. apply has_key_true in Hk. congruence.
Qed.

Lemma overwrite_filter_same k row rows :
  row_key row = k ->
  List.filter (has_key k) (overwrite k row rows)
  = map (fun _ => row) (List.filter (has_key k) rows).
Proof.
  intros Hrow. induction rows as [|r rows IH]; simpl; [done|].
  destruct (has_key k r) eqn:Hk; simpl.
  - assert (has_key k row = true) as -> by by apply has_key_true. simpl. by rewrite IH.
  - by rewrite Hk.
Qed.

Lemma overwrite_filter_other k k' row rows :
  row_key row = k -> k' <> k ->
  List.filter (has_key k') (overwrite k row rows) = List.filter (has_key k') rows.
Proof.
  intros Hrow Hne. induction rows as [|r rows IH]; simpl; [done|].
  destruct (has_key k r) eqn:Hk; simpl.
  - apply has_key_true in Hk.
    assert (has_key k' row = false) as ->.
    { apply not_true_iff_false. rewrite has_key_true. congruence. }
    assert (has_key k' r = false) as ->.
    { apply not_true_iff_false. rewrite has_key_true. congruence. }
    exact IH.
  - destruct (has_key k' r); by rewrite IH.
Qed.

Lemma to_column_spec E rate w : to_column E rate w = (stored_rate E rate, w).
Proof. unfold to_column, stored_rate. by destruct (_ <? _). Qed.

Lemma column_value_fits E rate : fits_column rate -> column_value E rate = rate.
Proof.
  intros [He Hc]. unfold column_value, Dec.exact_at, Dec.quantize, Dec.coef_at.
  destruct rate as [c e]. simpl in *. subst e.
  change (-6 <=? -6) with true. simpl orb. cbv iota.
  change (-6 - -6) with 0. change (10 ^ 0) with 1. by rewrite Z.mul_1_r.
Qed.

Lemma stored_rate_fits E rate : fits_column rate -> stored_rate E rate = inr rate.
Proof.
  intros Hfits. unfold stored_rate. rewrite (column_value_fits E rate Hfits).
  destruct Hfits as [_ Hc]. by apply Z.ltb_lt in Hc as ->.
Qed.

Lemma stored_rate_inr E rate stored :
  stored_rate E rate = inr stored -> stored = column_value E rate.
Proof. unfold stored_rate. destruct (_ <? _); congruence. Qed.

Lemma accepted_fits E r : fits_column (rate_value r) -> accepted E r.
Proof. intros Hfits. exists (rate_value r). by apply stored_rate_fits. Qed.

Lemma stored_as_fits E r : fits_column (rate_value r) -> stored_as E r = row_of r.
Proof. intros Hfits. unfold stored_as, row_of. by rewrite column_value_fits. Qed.

(** [update_or_create] on a table without duplicate keys. When the column
    takes the rate, it returns the instance with the rate as given and leaves
    exactly one row under the key, holding the rate as the column holds it;
    the rows of every other key stay and the table stays without duplicate
    keys. When the column refuses the rate, it raises the error of the save
    and the state is as before. *)
Lemma update_or_create_spec E s t d rate w :
  unique_keys (w_rates w) ->
  match stored_rate E rate with
  | inr stored =>
      exists created rows',
        update_or_create E s t d rate w
        = (inr (mkRow s t d rate, created), set_rates rows' w)
        /\ unique_keys rows'
        /\ List.filter (has_key (s, t, d)) rows' = [mkRow s t d stored]
        /\ (forall k, k <> (s, t, d) ->
            List.filter (has_key k) rows' = List.filter (has_key k) (w_rates w))
  | inl e => update_or_create E s t d rate w = (inl e, w)
  end.
Proof.
  intros Huniq. unfold update_or_create, bind, get_world. cbv beta iota zeta.
  destruct (filter_has_key_unique (s, t, d) (w_rates w) Huniq) as [Hnil|(r & Hone & Hr)].
  - rewrite Hnil, to_column_spec.
    destruct (stored_rate E rate) as [e|stored]; [reflexivity|].
    unfold modify, ret. simpl.
    exists true, (w_rates w ++ [mkRow s t d stored]). split; [reflexivity|].
    split; [|split].
    + unfold unique_keys. rewrite fmap_app. apply NoDup_app. split; [exact Huniq|].
      split; [|apply NoDup_singleton].
      intros k Hin Hin'. apply list_elem_of_singleton in Hin'. subst k.
      by apply filter_has_key_nil in Hnil.
    + rewrite List.filter_app, Hnil. simpl.
      by assert (has_key (s, t, d) (mkRow s t d stored) = true) as -> by by apply has_key_true.
    + intros k Hk. rewrite List.filter_app. simpl.
      assert (has_key k (mkRow s t d stored) = false) as ->.
      { apply not_true_iff_false. rewrite has_key_true. unfold row_key. simpl. congruence. }
      by rewrite app_nil_r.
  - rewrite Hone, to_column_spec.
    destruct (stored_rate E rate) as [e|stored]; [reflexivity|].
    unfold modify, ret. simpl.
    exists false, (overwrite (s, t, d) (mkRow s t d stored) (w_rates w)).
    split; [reflexivity|]. split; [|split].
    + unfold unique_keys. by rewrite overwrite_keys.
    + rewrite overwrite_filter_same by done. by rewrite Hone.
    + intros k Hk. by apply overwrite_filter_other.
Qed.

Lemma save_rate_spec E result w :
  unique_keys (w_rates w) ->
  source_currency result ∈ currencies E ->
  exchanged_currency result ∈ currencies E ->
  match stored_rate E (rate_value result) with
  | inr stored =>
      exists rows',
        _save_rate_to_db E result w = (inr (row_of result), set_rates rows' w)
        /\ unique_keys rows'
        /\ List.filter (has_key (result_key result)) rows' = [stored_as E result]
        /\ (forall k, k <> result_key result ->
            List.filter (has_key k) rows' = List.filter (has_key k) (w_rates w))
  | inl e => _save_rate_to_db E result w = (inl e, w)
  end.
Proof.
  intros Huniq Hs Ht. unfold _save_rate_to_db, currency_get, bind.
  destruct (decide (source_currency result ∈ currencies E)); [|contradiction].
  destruct (decide (exchanged_currency result ∈ currencies E)); [|contradiction].
  unfold ret. cbv beta iota.
  pose proof (update_or_create_spec E (source_currency result) (exchanged_currency result)
              (valuation_date result) (rate_value result) w Huniq) as Hspec.
  destruct (stored_rate E (rate_value result)) as [err|stored] eqn:Hst.
  - by rewrite Hspec.
  - destruct Hspec as (created & rows' & -> & Hu & Hf & Ho).
    exists rows'. apply stored_rate_inr in Hst. subst stored. by repeat split.
Qed.

Lemma preserves_keeps {A} (m : M A) : keeps w_rates m -> preserves_unique m.
Proof. intros Hk w Hu. by rewrite Hk. Qed.

Lemma preserves_bind {A C} (m : M A) (k : A -> M C) :
  preserves_unique m -> (forall a, preserves_unique (k a)) -> preserves_unique (bind m k).
Proof.
  intros Hm Hk w Hu. unfold bind. specialize (Hm w Hu).
  destruct (m w) as [[e|a] w1]; simpl in *; [done|]. by apply Hk.
Qed.

Lemma preserves_update_or_create E s t d rate :
  preserves_unique (update_or_create E s t d rate).
Proof.
  intros w Hu. pose proof (update_or_create_spec E s t d rate w Hu) as Hspec.
  destruct (stored_rate E rate) as [e|stored].
  - by rewrite Hspec.
  - by destruct Hspec as (c & rows' & -> & Hu' & _).
Qed.

Lemma preserves_save E result : preserves_unique (_save_rate_to_db E result).
Proof.
  unfold _save_rate_to_db, currency_get.
  apply preserves_bind; [apply preserves_keeps; keeps_auto|intros source].
  apply preserves_bind; [apply preserves_keeps; keeps_auto|intros target].
  apply preserves_bind; [apply preserves_update_or_create|intros rc].
  apply preserves_keeps; keeps_auto.
Qed.


Lemma keeps_get_rate_from_db s t d : keeps w_rates (_get_rate_from_db s t d).
Proof. unfold _get_rate_from_db, rates_get. keeps_auto. Qed.

Lemma keeps_provider_get E provider_name : keeps w_rates (provider_get E provider_name).
Proof. unfold provider_get. keeps_auto. Qed.

Lemma keeps_fetch E s t d provider : keeps w_rates (_fetch_from_provider E s t d provider).
Proof.
  unfold _fetch_from_provider. destruct (given provider) as [provider_name|].
  - apply keeps_try_except; [|intros; keeps_auto].
    apply keeps_bind; [apply keeps_provider_get|]. intros p.
    eapply keeps_bind_returns;
      [by apply keeps_get_adapter|by apply (returns_get_adapter w_rates)|].
    intros a Ha. apply Ha.
  - apply keeps_execute_with_failover; try done. intros a Ha. apply Ha.
Qed.

Lemma preserves_resolve E s t d provider :
  preserves_unique (get_exchange_rate_data E s t d provider).
Proof.
  unfold get_exchange_rate_data.
  apply preserves_bind; [apply preserves_keeps, keeps_get_rate_from_db|].
  intros [row|]; [apply preserves_keeps; keeps_auto|].
  apply preserves_bind; [apply preserves_keeps, keeps_fetch|].
  intros result. apply preserves_save.
Qed.



End ServiceFacts.

(** ** Same-currency pairs *)

Section IdentityFacts.
Context `{RT : PyRuntime}.

Import Service.

Lemma instance_same_currency E path cls config s t d w :
  Manager.importable path = Some cls ->
  upper s = upper t ->
  exists q, Manager.get_exchange_rate (Manager.instance_of E cls config) s t d w = (inr q, w)
            /\ result_key q = (upper s, upper t, d) /\ rate_value q = rate_one.
Proof.
  intros Himp Heq. destruct (importable_classes path cls Himp) as [-> | ->]; simpl.
  - rewrite mock_rate_same_currency by done. eauto.
  - rewrite beacon_rate_same_currency by done. eauto.
Qed.

Lemma rate_one_fits : fits_column rate_one.
Proof. split; [reflexivity|]. vm_compute. reflexivity. Qed.

Lemma get_rate_from_db_hit s t d row w :
  List.filter (has_key (s, t, d)) (w_rates w) = [row] ->
  _get_rate_from_db s t d w = (inr (Some row), w).
Proof.
  intros H. unfold _get_rate_from_db, try_except, rates_get, bind, get_world.
  cbn -[List.filter]. by rewrite H.
Qed.

Lemma get_rate_from_db_miss s t d w :
  List.filter (has_key (s, t, d)) (w_rates w) = [] ->
  _get_rate_from_db s t d w = (inr None, w).
Proof.
  intros H. unfold _get_rate_from_db, try_except, rates_get, bind, get_world.
  cbn -[List.filter]. by rewrite H.
Qed.

(** C4 (as amended). For a pair whose codes are equal after upper-casing and
    any date, [get_exchange_rate] of the mock adapter and of the remote
    adapter returns the rate 1.000000, in any process state and without
    changing it. The service's [get_exchange_rate_data] has no such
    short-circuit: it returns the stored row of the key when there is one,
    whatever its rate; when there is none, the currency is known and the
    first active provider names an adapter class, it fetches the rate
    1.000000 from that adapter, stores it and returns it. *)
Theorem same_currency_rate_is_one E (s t : string) (d : Z) (w : world) :
  upper s = upper t ->
  (forall self,
     Mock.get_exchange_rate E self s t d w
     = (inr (mkResult (upper s) (upper t) d rate_one "Mock Provider"), w))
  /\ Beacon.get_exchange_rate E s t d w
     = (inr (mkResult (upper s) (upper t) d rate_one "CurrencyBeacon"), w)
  /\ (forall row provider,
        List.filter (has_key (upper s, upper t, d)) (w_rates w) = [row] ->
        get_exchange_rate_data E s t d provider w = (inr row, w))
  /\ (forall p ps cls provider,
        given provider = None ->
        List.filter (has_key (upper s, upper t, d)) (w_rates w) = [] ->
        upper s ∈ currencies E ->
        Manager.get_active_providers E = p :: ps ->
        Manager.importable (adapter_path p) = Some cls ->
        adapters_cache_wf w ->
        exists w',
          get_exchange_rate_data E s t d provider w
          = (inr (mkRow (upper s) (upper t) d rate_one), w')
          /\ w_rates w' = w_rates w ++ [mkRow (upper s) (upper t) d rate_one]).
Proof.
  intros Heq. split; [intros; by apply mock_rate_same_currency|].
  split; [by apply beacon_rate_same_currency|]. split.
  - intros row provider Hrow.
    unfold get_exchange_rate_data, bind. by rewrite (get_rate_from_db_hit _ _ _ row).
  - intros p ps cls provider Hgiven Hnone Hknown Hactive Himp Hwf.
    unfold get_exchange_rate_data, bind at 1. rewrite get_rate_from_db_miss by done.
    unfold bind at 1, _fetch_from_provider. rewrite Hgiven.
    unfold Manager.execute_with_failover. rewrite Hactive.
    cbn [Manager.failover_loop].
    unfold try_except, Manager.try_provider, bind at 1, Manager.get_adapter_for_provider.
    destruct (get_adapter_spec E (adapter_path p) (provider_config p) cls w Himp Hwf)
      as (w1 & -> & _ & _ & _ & Hrates & _).
    unfold bind at 1, Manager.log_trying, modify.
    destruct (instance_same_currency E (adapter_path p) cls (provider_config p)
                (upper s) (upper t) d
                (set_tried (w_tried w1 ++ [name p]) w1) Himp) as (q & -> & Hq & Hone).
    { by rewrite !upper_idemp. }
    rewrite !upper_idemp in Hq. unfold result_key in Hq. injection Hq as Hqs Hqt Hqd.
    unfold _save_rate_to_db, bind at 1, currency_get. rewrite Hqs.
    destruct (decide (upper s ∈ currencies E)); [|contradiction].
    unfold ret at 1, bind at 1. rewrite Hqt, <- Heq.
    destruct (decide (upper s ∈ currencies E)); [|contradiction].
    unfold ret at 1, bind at 1, update_or_create, bind at 1, get_world.
    cbn -[List.filter to_column]. rewrite Hqd, Hrates, Hone. rewrite Heq in Hnone |- *.
    rewrite Hnone. unfold bind at 1. rewrite to_column_spec, (stored_rate_fits _ _ rate_one_fits).
    unfold bind, modify, ret. cbn -[List.filter].
    eexists. split; [reflexivity|]. reflexivity.
Qed.

End IdentityFacts.

Lemma same_currency_rate_is_one_witness :
  let E := Ref.env 738900 Ref.offline ["EUR"] [Ref.p_mock] in
  exists w',
    Service.get_exchange_rate_data E "eur" "EUR" 738900 None (Ref.fresh [])
    = (inr (mkRow (upper "eur") (upper "EUR") 738900 rate_one), w')
    /\ w_rates w' = w_rates (Ref.fresh []) ++ [mkRow (upper "eur") (upper "EUR") 738900 rate_one].
Proof.
  destruct (same_currency_rate_is_one (Ref.env 738900 Ref.offline ["EUR"] [Ref.p_mock])
              "eur" "EUR" 738900 (Ref.fresh [])) as (_ & _ & _ & H).
  - reflexivity.
  - apply (H Ref.p_mock [] MockAdapterClass None).
    + reflexivity.
    + reflexivity.
    + vm_compute. apply list_elem_of_here.
    + reflexivity.
    + reflexivity.
    + intros path config cls. simpl. discriminate.
Defined.

(** C4 (as stated) fails for the service. With no active provider, resolving
    EUR/EUR finds no stored row and raises instead of returning the rate 1;
    and with a row stored under (EUR, EUR, 738900) at the rate 2, resolving
    that key returns the stored row, rate 2. *)
Lemma resolve_same_currency_not_one :
  let lonely := Ref.env 738900 Ref.offline ["EUR"] [] in
  let E := Ref.env 738900 Ref.offline ["EUR"] [Ref.p_mock] in
  let stored := set_rates [mkRow "EUR" "EUR" 738900 (mkDec 2 0)] (Ref.fresh []) in
  Service.get_exchange_rate_data lonely "EUR" "EUR" 738900 None (Ref.fresh [])
  = (inl (Exn ExchangeRateAdapterError "No active exchange rate providers configured"),
     Ref.fresh [])
  /\ Service.get_exchange_rate_data E "EUR" "EUR" 738900 None stored
     = (inr (mkRow "EUR" "EUR" 738900 (mkDec 2 0)), stored).
Proof. split; reflexivity. Qed.

(** ** The properties at work on the reference runtime *)

Lemma two_providers_active :
  Manager.get_active_providers Ref.two_providers = [Ref.p_beacon; Ref.p_mock].
Proof. reflexivity. Qed.

(** With the upstream service timing out, the remote adapter fails and the
    mock adapter quotes EUR/USD, in every cold process state. *)
Lemma two_providers_determined :
  attempt_determined Ref.two_providers Ref.fetch_eur_usd cold Ref.eur_usd_outcome.
Proof.
  intros p w Hin [Hcache Hwf]. rewrite two_providers_active in Hin.
  apply elem_of_cons in Hin as [->|Hin];
    [|apply list_elem_of_singleton in Hin as ->].
  - destruct (get_adapter_spec Ref.two_providers (adapter_path Ref.p_beacon)
                (provider_config Ref.p_beacon) CurrencyBeaconAdapterClass w eq_refl Hwf)
      as (w1 & Heq & Hwf1 & Hc1 & _ & _ & Ht1 & _).
    set (w2 := set_tried (w_tried w1 ++ [name Ref.p_beacon]) w1).
    assert (Hrun : Manager.try_provider Ref.two_providers Ref.fetch_eur_usd Ref.p_beacon w
                   = (inl (Exn ProviderUnavailableError
                               "CurrencyBeacon request timed out: timed out"),
                      set_sent (w_sent w2 ++ [Latest "EUR"]) w2)).
    { unfold Manager.try_provider, Manager.get_adapter_for_provider, bind at 1.
      rewrite Heq. unfold bind at 1, Manager.log_trying, modify. fold w2.
      assert (Hc2 : w_cache w2 !! ("EUR", "USD", 738900) = None).
      { subst w2. simpl. by rewrite Hc1, Hcache. }
      unfold Ref.fetch_eur_usd.
      cbn [Manager.get_exchange_rate Manager.instance_of Manager.beacon_adapter].
      unfold Beacon.get_exchange_rate, bind, Beacon.cache_get.
      change (upper "EUR") with "EUR". change (upper "USD") with "USD".
      destruct (decide ("EUR" = "USD")); [discriminate|].
      rewrite Hc2. reflexivity. }
    rewrite Hrun. cbn [fst snd]. split; [reflexivity|]. split; [|subst w2; simpl; by rewrite Ht1].
    split; [subst w2; simpl; by rewrite Hc1|exact Hwf1].
  - destruct (get_adapter_spec Ref.two_providers (adapter_path Ref.p_mock)
                (provider_config Ref.p_mock) MockAdapterClass w eq_refl Hwf)
      as (w1 & Heq & Hwf1 & Hc1 & _ & _ & Ht1 & _).
    set (w2 := set_tried (w_tried w1 ++ [name Ref.p_mock]) w1).
    assert (Hrun : Manager.try_provider Ref.two_providers Ref.fetch_eur_usd Ref.p_mock w
                   = Mock.get_exchange_rate Ref.two_providers Ref.default_mock
                                            "EUR" "USD" 738900 w2).
    { unfold Manager.try_provider, Manager.get_adapter_for_provider, bind at 1.
      rewrite Heq. reflexivity. }
    rewrite Hrun. split; [|split].
    + rewrite (mock_rate_listed _ _ "EUR" "USD" 738900 (inr (lit 108 (-2))));
        [reflexivity|discriminate|reflexivity].
    + split.
      * rewrite (keeps_mock_rate w_cache); [subst w2; simpl; by rewrite Hc1|done..].
      * intros path config cls.
        rewrite (keeps_mock_rate w_adapters); [apply Hwf1|done..].
    + rewrite (keeps_mock_rate w_tried); [subst w2; simpl; by rewrite Ht1|done..].
Qed.

Lemma fresh_is_cold : cold (Ref.fresh []).
Proof. split; [reflexivity|]. intros path config cls. discriminate. Qed.

Lemma execute_with_failover_spec_witness :
  let out := Manager.execute_with_failover Ref.two_providers Ref.fetch_eur_usd (Ref.fresh []) in
  out.1 = inr (mkResult "EUR" "USD" 738900 (mkDec 1038420 (-6)) "Mock Provider")
  /\ w_tried out.2 = w_tried (Ref.fresh []) ++ (name <$> [Ref.p_beacon] ++ [Ref.p_mock]).
Proof.
  destruct (execute_with_failover_spec Ref.two_providers Ref.fetch_eur_usd cold
              Ref.eur_usd_outcome (Ref.fresh []) two_providers_determined fresh_is_cold)
    as (_ & _ & Hfirst & _).
  apply (Hfirst [Ref.p_beacon] Ref.p_mock []).
  - reflexivity.
  - constructor; [|constructor]. eexists. split; reflexivity.
  - reflexivity.
Defined.



(** ** Runs of the model: the repository's adapter tests and the fallback *)

(** test_get_exchange_rate_same_currency, for both adapters. *)
Example mock_same_currency_run :
  (Mock.get_exchange_rate (Ref.env 738900 Ref.offline [] []) Ref.default_mock
                          "EUR" "EUR" 738900 (Ref.fresh [])).1
  = inr (mkResult "EUR" "EUR" 738900 (mkDec 1000000 (-6)) "Mock Provider").
Proof. reflexivity. Qed.

Example beacon_same_currency_run :
  (Beacon.get_exchange_rate (Ref.env 738900 Ref.offline [] []) "EUR" "EUR" 738900
                            (Ref.fresh [])).1
  = inr (mkResult "EUR" "EUR" 738900 (mkDec 1000000 (-6)) "CurrencyBeacon").
Proof. reflexivity. Qed.

(** test_get_historical_rates: five days back to today is six quotes, from
    the start date to the end date. *)
Example mock_historical_run :
  dates <$> returned (Mock.get_historical_rates (Ref.env 738900 Ref.offline [] [])
                        Ref.default_mock "EUR" "USD" 738895 738900 (Ref.fresh [])).1
  = Some [738895; 738896; 738897; 738898; 738899; 738900].
Proof. reflexivity. Qed.

(** test_get_exchange_rates_for_date *)
Example mock_rates_for_date_run :
  (fmap (M := list) exchanged_currency)
    <$> returned (Mock.get_exchange_rates_for_date (Ref.env 738900 Ref.offline [] [])
                    Ref.default_mock "EUR" 738900 (Some ["USD"; "GBP"]) (Ref.fresh [])).1
  = Some ["USD"; "GBP"].
Proof. reflexivity. Qed.

(** test_get_exchange_rate_api_call: the body [{'rates': {'USD': 1.08}}]. *)
Example beacon_api_call_run :
  (Beacon.get_exchange_rate (Ref.env 738900 Ref.restricted_plan [] []) "EUR" "USD" 738900
                            (Ref.fresh [])).1
  = inr (mkResult "EUR" "USD" 738900 (mkDec 108 (-2)) "CurrencyBeacon").
Proof. reflexivity. Qed.

(** test_handles_api_error: a timeout is ProviderUnavailable. *)
Example beacon_timeout_run :
  raised (Beacon.get_exchange_rate (Ref.env 738900 Ref.offline [] [])
                                   "EUR" "USD" 738900 (Ref.fresh [])).1
  = Some ProviderUnavailableError.
Proof. reflexivity. Qed.

(** test_rate_not_found: the body [{'rates': {}}]. *)
Example beacon_rate_not_found_run :
  raised (Beacon.get_exchange_rate (Ref.env 738900 Ref.no_rates [] [])
                                   "EUR" "XYZ" 738900 (Ref.fresh [])).1
  = Some RateNotFoundError.
Proof. reflexivity. Qed.

(** The upstream service times out on every request of a ten-day range: the
    fallback gives up after five lookups and four sleeps, with no quote. *)
Example fallback_gives_up_run :
  let out := Beacon.get_historical_rates (Ref.env 738900 Ref.offline [] [])
                                         "EUR" "USD" 738891 738900 (Ref.fresh []) in
  out.1 = inr []
  /\ w_sent out.2 = [Timeseries "EUR" 738891 738900 "USD"; Historical "EUR" 738891;
                     Historical "EUR" 738892; Historical "EUR" 738893;
                     Historical "EUR" 738894; Historical "EUR" 738895]
  /\ w_slept out.2 = 4%nat.
Proof. repeat split. Qed.

(** The upstream service has no rate for any day of a seven-day range: every
    day is looked up and skipped, the loop runs to the end. *)
Example fallback_skips_run :
  let out := Beacon._fallback_historical_rates (Ref.env 738900 Ref.no_rates [] [])
                                               "EUR" "USD" 738894 738900 (Ref.fresh []) in
  out.1 = inr [] /\ List.length (w_sent out.2) = 7%nat /\ w_slept out.2 = 7%nat.
Proof. repeat split. Qed.

(** * Further properties of the code *)

(** ** The mock adapter over targets and ranges *)

Section MockRanges.
Context `{RT : PyRuntime}.

Lemma mock_historical_loop_quotes E self s t end_date bound fuel :
  1 <= bound -> 2 * bound * 10 ^ 6 < 10 ^ 28 ->
  steady self bound s t -> tame self ->
  end_date < Date.max_ordinal ->
  forall cur results w,
  Date.min_ordinal <= cur ->
  fuel = Z.to_nat (end_date - cur + 1) ->
  exists more w',
    Mock.historical_loop E fuel self s t end_date cur results w = (inr (results ++ more), w')
    /\ dates more = seqZ cur (end_date - cur + 1)
    /\ Forall (mock_quote s t) more
    /\ Forall (within bound) more
    /\ w_sent w' = w_sent w /\ w_cache w' = w_cache w /\ w_rates w' = w_rates w.
Proof.
  intros Hb0 Hb Hsteady Htame Hend.
  induction fuel as [|fuel IH]; intros cur results w Hcur Hfuel.
  - exists [], w. simpl. rewrite app_nil_r, seqZ_nil by lia. by repeat split.
  - simpl. destruct (Z.leb_spec cur end_date); [|lia].
    unfold bind at 1.
    destruct (mock_rate_steady E self s t cur bound w Hb0 Hb Hsteady (Htame cur))
      as (q & w1 & -> & Hq & Hd & He & Hcoef & Hs1 & Hc1 & Hr1).
    unfold bind at 1, date_add, lift.
    rewrite date_plus_in_calendar
      by (unfold Date.max_delta_days, Date.min_ordinal, Date.max_ordinal in *; lia).
    destruct (IH (cur + 1) (results ++ [q]) w1)
      as (more & w' & -> & Hdates & Hall & Hwithin & Hs2 & Hc2 & Hr2); [lia|lia|].
    exists (q :: more), w'. split; [by rewrite <- app_assoc|].
    split; [|split; [by constructor|split; [by constructor|repeat split; congruence]]].
    unfold dates in *. rewrite fmap_cons, Hd, Hdates.
    rewrite (seqZ_cons cur) by lia. do 2 f_equal; lia.
Qed.

(** X1. [MockAdapter.get_historical_rates] on a range of the calendar that
    ends before its last day, for a pair of a base rate of at most [bound]
    (with [2 * bound] within 22 digits) and variations of at most 1: it
    returns one quote for each day from the start date to the end date, in
    that order (none when the start is after the end), each with the
    upper-cased codes of the pair and the adapter's name; it sends no request
    and leaves the cache and the stored rates as they were. *)
Theorem mock_historical_one_quote_per_day E (self : Mock.MockAdapter) (s t : string)
    (start_date end_date : Z) (bound : Z) (w : world) :
  1 <= bound -> 2 * bound * 10 ^ 6 < 10 ^ 28 ->
  steady self bound s t -> tame self ->
  Date.min_ordinal <= start_date -> end_date < Date.max_ordinal ->
  exists quotes w',
    Mock.get_historical_rates E self s t start_date end_date w = (inr quotes, w')
    /\ dates quotes = seqZ start_date (end_date - start_date + 1)
    /\ Forall (mock_quote s t) quotes
    /\ w_sent w' = w_sent w /\ w_cache w' = w_cache w /\ w_rates w' = w_rates w.
Proof.
  intros Hb0 Hb Hsteady Htame Hstart Hend. unfold Mock.get_historical_rates.
  destruct (mock_historical_loop_quotes E self s t end_date bound _ Hb0 Hb Hsteady Htame Hend
              start_date [] w Hstart eq_refl)
    as (more & w' & Heq & Hdates & Hall & _ & Hrest).
  exists more, w'. split; [exact Heq|]. split; [exact Hdates|]. split; [exact Hall|exact Hrest].
Qed.

Lemma mock_rates_for_targets_quotes E self s d bound targets :
  1 <= bound -> 2 * bound * 10 ^ 6 < 10 ^ 28 ->
  (forall target, target ∈ targets -> steady self bound s target) ->
  at_most (variation self d) 1 ->
  forall results w,
  exists more w',
    Mock.rates_for_targets E self s d targets results w = (inr (results ++ more), w')
    /\ exchanged_currency <$> more
       = List.filter (fun c => negb (bool_decide (c = upper s))) (upper <$> targets)
    /\ Forall (fun q => source_currency q = upper s /\ valuation_date q = d) more
    /\ w_sent w' = w_sent w /\ w_cache w' = w_cache w /\ w_rates w' = w_rates w.
Proof.
  intros Hb0 Hb Hsteady Hvar.
  induction targets as [|target targets IH]; intros results w; simpl.
  - exists [], w. rewrite app_nil_r. by repeat split.
  - assert (IH' := IH (fun target' Hin => Hsteady target' (list_elem_of_further _ _ _ Hin))).
    clear IH.
    destruct (decide (upper target <> upper s)) as [Hne|Heq].
    + unfold bind at 1.
      destruct (mock_rate_steady E self s target d bound w Hb0 Hb
                  (Hsteady target (list_elem_of_here _ _)) Hvar)
        as (q & w1 & -> & (Hqs & Hqt & _) & Hd & _ & _ & Hs1 & Hc1 & Hr1).
      destruct (IH' (results ++ [q]) w1) as (more & w' & -> & Hmore & Hall & Hs2 & Hc2 & Hr2).
      exists (q :: more), w'. split; [by rewrite <- app_assoc|].
      rewrite bool_decide_eq_false_2 by done. cbn [negb].
      split; [rewrite fmap_cons, Hqt; f_equal; exact Hmore|].
      split; [by constructor|repeat split; congruence].
    + destruct (IH' results w) as (more & w' & -> & Hmore & Hrest).
      exists more, w'. split; [reflexivity|].
      rewrite bool_decide_eq_true_2; [by split|].
      by destruct (decide (upper target = upper s)); [|exfalso; apply Heq].
Qed.

(** X2. [MockAdapter.get_exchange_rates_for_date] for targets whose base
    rates are at most [bound] (with [2 * bound] within 22 digits) on a date
    of a variation of at most 1: it returns one quote per entry of the
    target list (EUR, USD, GBP, CHF when no list is given), in the order of
    the list and with repeated entries repeated, leaving out the entries
    equal to the source after upper-casing; an empty list gives no quote.
    Every quote carries the upper-cased source and the requested date. *)
Theorem mock_rates_for_date_targets E (self : Mock.MockAdapter) (s : string) (d : Z)
    (targets : option (list string)) (bound : Z) (w : world) :
  1 <= bound -> 2 * bound * 10 ^ 6 < 10 ^ 28 ->
  (forall target, target ∈ default ["EUR"; "USD"; "GBP"; "CHF"] targets ->
                  steady self bound s target) ->
  at_most (variation self d) 1 ->
  exists quotes w',
    Mock.get_exchange_rates_for_date E self s d targets w = (inr quotes, w')
    /\ exchanged_currency <$> quotes
       = List.filter (fun c => negb (bool_decide (c = upper s)))
                     (upper <$> default ["EUR"; "USD"; "GBP"; "CHF"] targets)
    /\ Forall (fun q => source_currency q = upper s /\ valuation_date q = d) quotes
    /\ w_sent w' = w_sent w /\ w_cache w' = w_cache w /\ w_rates w' = w_rates w.
Proof.
  intros Hb0 Hb Hsteady Hvar. unfold Mock.get_exchange_rates_for_date.
  destruct (mock_rates_for_targets_quotes E self s d bound
              (default ["EUR"; "USD"; "GBP"; "CHF"] targets) Hb0 Hb Hsteady Hvar [] w)
    as (more & w' & Heq & H).
  exists more, w'. split; [exact Heq|exact H].
Qed.

(** X3. What a lookup of the mock adapter does to the process-wide random
    generator: for a same-currency pair nothing at all (the process state is
    as before); for any other pair a call that returns, or that raises
    decimal.InvalidOperation from the final rounding, has gone through
    [random.seed()], so the generator is left in a state taken from OS
    entropy, whatever state or seed it had before, and exactly one reseed is
    counted; a call that raises decimal.Overflow has not reached the reseed
    and counts none. *)
Theorem mock_rate_reseeds_generator E (self : Mock.MockAdapter) (s t : string) (d : Z)
    (w : world) :
  let out := Mock.get_exchange_rate E self s t d w in
  (upper s = upper t -> out.2 = w)
  /\ (upper s <> upper t ->
      (out.1 <> inl overflow_signal ->
       w_rng out.2 = os_entropy E (w_reseeds w) /\ w_reseeds out.2 = S (w_reseeds w))
      /\ (out.1 = inl overflow_signal -> w_reseeds out.2 = w_reseeds w)).
Proof.
  cbv zeta. split.
  - intros Heq. by rewrite mock_rate_same_currency.
  - intros Hne. unfold Mock.get_exchange_rate, bind.
    destruct (decide (upper s = upper t)); [contradiction|].
    destruct (get_base_rate_spec self s t w) as (w1 & -> & _ & _ & _ & _ & _ & Hre).
    destruct (base_rate_of self s t (w_rng w)) as [e|base_rate] eqn:Hbase.
    { apply base_rate_signals in Hbase as ->. simpl. split; [by intros []|done]. }
    pose proof (apply_variation_reseeds E self base_rate d w1) as Hres. cbv zeta in Hres.
    destruct (apply_variation_spec E self base_rate d w1) as (w2 & Heq & _).
    rewrite Heq in Hres |- *. cbn [fst snd] in Hres. rewrite Hre in Hres.
    unfold varied. destruct (varied_product self base_rate d) as [varied_rate|].
    + destruct (Dec.ctx_round varied_rate 6); cbn; (split; [intros _; exact Hres|discriminate]).
    + cbn. split; [by intros []|done].
Qed.

End MockRanges.

Lemma mock_historical_one_quote_per_day_witness :
  exists quotes w',
    Mock.get_historical_rates (Ref.env 738900 Ref.offline [] []) Ref.default_mock
                              "EUR" "USD" 738895 738900 (Ref.fresh [])
    = (inr quotes, w')
    /\ dates quotes = seqZ 738895 (738900 - 738895 + 1)
    /\ Forall (mock_quote "EUR" "USD") quotes
    /\ w_sent w' = w_sent (Ref.fresh []) /\ w_cache w' = w_cache (Ref.fresh [])
    /\ w_rates w' = w_rates (Ref.fresh []).
Proof.
  apply (mock_historical_one_quote_per_day (Ref.env 738900 Ref.offline [] [])
           Ref.default_mock "EUR" "USD" 738895 738900 2 (Ref.fresh [])).
  - lia.
  - reflexivity.
  - apply (default_mock_steady "EUR" "USD" (mkDec 108 (-2))); [reflexivity|].
    vm_compute. discriminate.
  - apply default_mock_tame.
  - unfold Date.min_ordinal. lia.
  - unfold Date.max_ordinal. lia.
Defined.

Lemma mock_rates_for_date_targets_witness :
  exists quotes w',
    Mock.get_exchange_rates_for_date (Ref.env 738900 Ref.offline [] []) Ref.default_mock
                                     "eur" 738900 None (Ref.fresh [])
    = (inr quotes, w')
    /\ exchanged_currency <$> quotes
       = List.filter (fun c => negb (bool_decide (c = upper "eur")))
                     (upper <$> default ["EUR"; "USD"; "GBP"; "CHF"] None)
    /\ Forall (fun q => source_currency q = upper "eur" /\ valuation_date q = 738900) quotes
    /\ w_sent w' = w_sent (Ref.fresh []) /\ w_cache w' = w_cache (Ref.fresh [])
    /\ w_rates w' = w_rates (Ref.fresh []).
Proof.
  apply (mock_rates_for_date_targets (Ref.env 738900 Ref.offline [] []) Ref.default_mock
           "eur" 738900 None 2 (Ref.fresh [])).
  - lia.
  - reflexivity.
  - intros target Hin. simpl in Hin.
    repeat (apply elem_of_cons in Hin as [->|Hin]).
    + left. reflexivity.
    + eapply default_mock_steady; [vm_compute; reflexivity|vm_compute; discriminate].
    + eapply default_mock_steady; [vm_compute; reflexivity|vm_compute; discriminate].
    + eapply default_mock_steady; [vm_compute; reflexivity|vm_compute; discriminate].
    + by apply elem_of_nil in Hin.
  - apply default_mock_tame.
Defined.

(** ** The remote adapter: failures, the cache and the latest rate *)

Section BeaconLookups.
Context `{RT : PyRuntime}.

(** X4. A failed single-date lookup of the remote adapter: the exception is
    ProviderUnavailable or RateNotFound, never anything else (so the failover
    of the manager can always go on to the next provider); exactly one
    request was sent, the one the endpoint rule names, and nothing was
    written to the cache. *)
Theorem beacon_rate_failure E (s t : string) (d : Z) (w : world) (e : exn) (w' : world) :
  Beacon.get_exchange_rate E s t d w = (inl e, w') ->
  (exn_cls e = ProviderUnavailableError \/ exn_cls e = RateNotFoundError)
  /\ is_adapter_error e = true
  /\ w_sent w' = w_sent w ++ [single_date_request E (upper s) d]
  /\ w_cache w' = w_cache w.
Proof.
  intros Hrun.
  destruct (decide (upper s = upper t)) as [Heq|Hne].
  { by rewrite beacon_rate_same_currency in Hrun. }
  destruct (w_cache w !! (upper s, upper t, d)) as [cached|] eqn:Hc.
  { by rewrite (beacon_rate_cached E s t d cached) in Hrun. }
  destruct (beacon_rate_fetched E s t d w Hne Hc) as (o & w1 & Heq & Hsent & _ & Ho).
  rewrite Hrun in Heq. injection Heq as <- <-.
  destruct Ho as [He Hcache]. unfold Beacon.is_unavailable_or_not_found in He.
  unfold is_adapter_error.
  destruct (exn_cls e); try discriminate; auto.
Qed.

(** X5. A quote returned by a single-date lookup is served again from the
    cache: repeating the call in the state the first call left, on the same
    or on any later day while the entry lives, returns the same quote and
    changes nothing, so no further request is sent. *)
Theorem beacon_rate_served_from_cache E E' (s t : string) (d : Z) (w : world)
    (q : ExchangeRateResult) (w' : world) :
  Beacon.get_exchange_rate E s t d w = (inr q, w') ->
  Beacon.get_exchange_rate E' s t d w' = (inr q, w').
Proof.
  intros Hrun.
  destruct (decide (upper s = upper t)) as [Heq|Hne].
  { rewrite beacon_rate_same_currency in Hrun by done. injection Hrun as <- <-.
    by rewrite beacon_rate_same_currency. }
  destruct (w_cache w !! (upper s, upper t, d)) as [cached|] eqn:Hc.
  { rewrite (beacon_rate_cached E s t d cached) in Hrun by done. injection Hrun as <- <-.
    by apply beacon_rate_cached. }
  destruct (beacon_rate_fetched E s t d w Hne Hc) as (o & w1 & Heq & _ & _ & Ho).
  rewrite Hrun in Heq. injection Heq as <- <-.
  destruct Ho as (_ & _ & _ & Hcache).
  apply beacon_rate_cached; [done|]. by rewrite Hcache, lookup_insert_eq.
Qed.

(** The message of RateNotFound apart, the rate of a target does not depend
    on the caller. *)
Lemma rate_of_target_message target msg msg' rates w :
  returned (Beacon.rate_of_target target msg rates w).1
  = returned (Beacon.rate_of_target target msg' rates w).1.
Proof.
  unfold Beacon.rate_of_target, raise, ret. repeat case_match; reflexivity.
Qed.

(** The latest rate and the rate of today's date. *)
Lemma beacon_latest_vs_dated E s t w :
  (Beacon.get_latest_rate E s t w).2 = (Beacon.get_exchange_rate E s t (today E) w).2
  /\ returned (Beacon.get_latest_rate E s t w).1
     = returned (Beacon.get_exchange_rate E s t (today E) w).1
  /\ (forall e, (Beacon.get_latest_rate E s t w).1 = inl e ->
        exn_cls e = ProviderUnavailableError).
Proof.
  unfold Beacon.get_latest_rate, Beacon.get_exchange_rate.
  destruct (decide (upper s = upper t)); [unfold ret; simpl; by repeat split|].
  rewrite Z.ltb_irrefl, Z.leb_refl.
  unfold bind, try_except, Beacon.cache_get.
  destruct (w_cache w !! (upper s, upper t, today E)) as [cached|];
    [unfold ret; simpl; by repeat split|].
  destruct (make_request_spec E (Latest (upper s)) w) as [o ->].
  set (w1 := set_sent _ w).
  destruct o as [e|data].
  { destruct (Beacon.is_unavailable_or_not_found e); unfold raise, reraise; simpl;
      repeat split; by intros e' [= <-]. }
  pose proof (rate_of_target_message (upper t)
                ("Latest rate not found for " +:+ upper s +:+ " -> " +:+ upper t)
                ("Rate not found for " +:+ upper s +:+ " -> " +:+ upper t +:+ " on "
                 +:+ Date.isoformat (today E))
                (Beacon.find_rates data) w1) as Hmsg.
  destruct (rate_of_target_pure (upper t)
              ("Latest rate not found for " +:+ upper s +:+ " -> " +:+ upper t)
              (Beacon.find_rates data) w1) as [o1 Ho1].
  destruct (rate_of_target_pure (upper t)
              ("Rate not found for " +:+ upper s +:+ " -> " +:+ upper t +:+ " on "
               +:+ Date.isoformat (today E))
              (Beacon.find_rates data) w1) as [o2 Ho2].
  rewrite Ho1, Ho2 in Hmsg |- *. simpl in Hmsg.
  destruct o1 as [e1|rate1], o2 as [e2|rate2]; simpl in Hmsg; try discriminate.
  - destruct (Beacon.is_unavailable_or_not_found e2); unfold raise, reraise; simpl;
      repeat split; by intros e' [= <-].
  - injection Hmsg as ->. unfold Beacon.cache_set, modify, ret. simpl.
    repeat split. discriminate.
Qed.

Lemma beacon_latest_state E s t w :
  (Beacon.get_latest_rate E s t w).2 = (Beacon.get_exchange_rate E s t (today E) w).2.
Proof. apply beacon_latest_vs_dated. Qed.

(** X6. [CurrencyBeaconAdapter.get_latest_rate] and [get_exchange_rate] for
    today's date go the same way: they return the same quote when either
    returns one and leave the same process state (cache and requests sent)
    in every case. They differ in failure only: whatever goes wrong, a
    missing target included, [get_latest_rate] raises ProviderUnavailable,
    never RateNotFound. *)
Theorem beacon_latest_agrees_with_today E (s t : string) (w : world) :
  let latest := Beacon.get_latest_rate E s t w in
  let dated := Beacon.get_exchange_rate E s t (today E) w in
  latest.2 = dated.2
  /\ returned latest.1 = returned dated.1
  /\ (forall e, latest.1 = inl e -> exn_cls e = ProviderUnavailableError).
Proof.
  cbv zeta.
  destruct (beacon_latest_vs_dated E s t w) as (Hstate & Hquote & Hclass).
  split; [exact Hstate|]. split; [exact Hquote|exact Hclass].
Qed.

End BeaconLookups.

Lemma beacon_rate_failure_witness :
  let e := Exn ProviderUnavailableError "CurrencyBeacon request timed out: timed out" in
  let w' := set_sent [Latest "EUR"] (Ref.fresh []) in
  (exn_cls e = ProviderUnavailableError \/ exn_cls e = RateNotFoundError)
  /\ is_adapter_error e = true
  /\ w_sent w' = w_sent (Ref.fresh [])
                 ++ [single_date_request (Ref.env 738900 Ref.offline [] []) (upper "EUR") 738900]
  /\ w_cache w' = w_cache (Ref.fresh []).
Proof.
  apply (beacon_rate_failure (Ref.env 738900 Ref.offline [] []) "EUR" "USD" 738900
                             (Ref.fresh [])).
  reflexivity.
Defined.

Lemma beacon_rate_served_from_cache_witness :
  let E := Ref.env 738900 Ref.restricted_plan [] [] in
  let E' := Ref.env 738901 Ref.offline [] [] in
  let q := mkResult "EUR" "USD" 738900 (mkDec 108 (-2)) "CurrencyBeacon" in
  let w' := (Beacon.get_exchange_rate E "EUR" "USD" 738900 (Ref.fresh [])).2 in
  Beacon.get_exchange_rate E' "EUR" "USD" 738900 w' = (inr q, w').
Proof.
  apply (beacon_rate_served_from_cache (Ref.env 738900 Ref.restricted_plan [] [])
                                       (Ref.env 738901 Ref.offline [] [])
                                       "EUR" "USD" 738900 (Ref.fresh [])).
  reflexivity.
Defined.

(** ** The remote adapter: ranges, the fallback and the cache *)

Section BeaconRanges.
Context `{RT : PyRuntime}.

Lemma cache_dated_all_insert c s t d q :
  cache_dated_all c -> valuation_date q = d -> cache_dated_all (<[(s, t, d) := q]> c).
Proof.
  intros Hc Hq s' t' d' q'.
  destruct (decide ((s, t, d) = (s', t', d'))) as [[= <- <- <-]|Hne].
  - rewrite lookup_insert_eq. by intros [= <-].
  - rewrite lookup_insert_ne by done. apply Hc.
Qed.

(** A lookup for a date that is not in the future keeps the cache dated. *)
Lemma beacon_rate_keeps_dated E s t d w :
  d <= today E -> cache_dated_all (w_cache w) ->
  cache_dated_all (w_cache (Beacon.get_exchange_rate E s t d w).2).
Proof.
  intros Hd Hc.
  destruct (decide (upper s = upper t)) as [Heq|Hne].
  { by rewrite beacon_rate_same_currency. }
  destruct (w_cache w !! (upper s, upper t, d)) as [cached|] eqn:Hhit.
  { by rewrite (beacon_rate_cached E s t d cached). }
  destruct (beacon_rate_fetched E s t d w Hne Hhit) as (o & w1 & -> & _ & _ & Ho).
  destruct o as [e|q]; simpl.
  - destruct Ho as [_ ->]. exact Hc.
  - destruct Ho as (_ & _ & Hq & ->). apply cache_dated_all_insert; [exact Hc|lia].
Qed.

(** A lookup never sleeps and sends at most one request. *)
Lemma beacon_rate_requests E s t d w :
  let w' := (Beacon.get_exchange_rate E s t d w).2 in
  same_but_cache_sent w w'
  /\ exists n, (n <= 1)%nat /\ List.length (w_sent w') = (List.length (w_sent w) + n)%nat.
Proof.
  cbv zeta.
  destruct (decide (upper s = upper t)) as [Heq|Hne].
  { rewrite beacon_rate_same_currency by done. split; [by repeat split|].
    exists 0%nat. simpl. lia. }
  destruct (w_cache w !! (upper s, upper t, d)) as [cached|] eqn:Hhit.
  { rewrite (beacon_rate_cached E s t d cached) by done. split; [by repeat split|].
    exists 0%nat. simpl. lia. }
  destruct (beacon_rate_fetched E s t d w Hne Hhit) as (o & w1 & -> & Hsent & Hsame & _).
  split; [exact Hsame|]. exists 1%nat. simpl. rewrite Hsent, length_app. simpl. lia.
Qed.

Lemma fallback_lookup_requests E source target cur w :
  let w' := (Beacon.fallback_lookup E source target cur w).2 in
  same_but_cache_sent w w'
  /\ exists n, (n <= 1)%nat /\ List.length (w_sent w') = (List.length (w_sent w) + n)%nat.
Proof.
  cbv zeta. unfold Beacon.fallback_lookup, bind, Beacon.cache_get.
  destruct (w_cache w !! (source, target, cur)).
  - split; [by repeat split|]. exists 0%nat. simpl. lia.
  - apply beacon_rate_requests.
Qed.

Lemma fallback_lookup_keeps_dated E source target cur w :
  cur <= today E -> cache_dated_all (w_cache w) ->
  cache_dated_all (w_cache (Beacon.fallback_lookup E source target cur w).2).
Proof.
  intros Hcur Hc. unfold Beacon.fallback_lookup, bind, Beacon.cache_get.
  destruct (w_cache w !! (source, target, cur)); [exact Hc|].
  by apply beacon_rate_keeps_dated.
Qed.

Lemma fallback_loop_keeps_dated E fuel source target end_date :
  forall cur results ec w,
  cache_dated_all (w_cache w) ->
  cache_dated_all
    (w_cache (Beacon.fallback_loop E fuel source target end_date cur results ec w).2).
Proof.
  induction fuel as [|fuel IH]; intros cur results ec w Hc; simpl; [exact Hc|].
  destruct ((cur <=? end_date) && (cur <=? today E)) eqn:Hcond; [|exact Hc].
  apply andb_true_iff in Hcond as [_ Hcur%Z.leb_le].
  rewrite bind_attempt.
  pose proof (fallback_lookup_keeps_dated E source target cur w Hcur Hc) as Hc1.
  destruct (Beacon.fallback_lookup E source target cur w) as [[e|q] w1]; simpl in *.
  - destruct (is_rate_not_found e); [by apply IH|].
    destruct (Beacon.max_errors <=? ec + 1); [exact Hc1|by apply IH].
  - by apply IH.
Qed.

Lemma fallback_keeps_dated E source target start_date end_date w :
  cache_dated_all (w_cache w) ->
  cache_dated_all
    (w_cache (Beacon._fallback_historical_rates E source target start_date end_date w).2).
Proof.
  intros Hc. unfold Beacon._fallback_historical_rates, bind.
  pose proof (fallback_loop_keeps_dated E (Z.to_nat (end_date - start_date + 1)) source target
                end_date start_date [] 0 w Hc) as Hc1.
  by destruct (Beacon.fallback_loop _ _ _ _ _ _ _ _ _) as [[e|quotes] w1].
Qed.

(** The entries of a /timeseries response: the loop returns, touches the
    cache only, and caches each quote under its own date. *)
Lemma timeseries_entries_spec source target entries :
  forall results w,
  exists quotes w',
    Beacon.timeseries_entries source target entries results w = (inr (results ++ quotes), w')
    /\ same_but_remote w w' /\ w_sent w' = w_sent w /\ w_slept w' = w_slept w
    /\ (cache_dated_all (w_cache w) -> cache_dated_all (w_cache w')).
Proof.
  induction entries as [|[date_str rates] entries IH]; intros results w; simpl.
  - exists [], w. rewrite app_nil_r. by repeat split.
  - destruct (Beacon.parse_entry_date date_str) as [rate_date|]; [|apply IH].
    destruct (Beacon.parse_entry_rate target rates) as [rate_value|]; [|apply IH].
    unfold bind at 1, Beacon.cache_set, modify.
    match goal with |- context [Beacon.timeseries_entries _ _ _ ?r ?w0] =>
      destruct (IH r w0) as (quotes & w' & -> & Hsame & Hsent & Hslept & Hdated) end.
    eexists (_ :: quotes), w'. split; [by rewrite <- app_assoc|].
    split; [|split; [exact Hsent|split; [exact Hslept|]]].
    + destruct Hsame as (? & ? & ? & ? & ?). by repeat split.
    + intros Hc. apply Hdated. simpl. by apply cache_dated_all_insert.
Qed.

(** A range that starts after today: no quote, no request. *)
Lemma beacon_historical_future E s t start_date end_date w :
  start_date <= end_date -> today E < start_date ->
  Beacon.get_historical_rates E s t start_date end_date w = (inr [], w).
Proof.
  intros Hrange Hfuture. unfold Beacon.get_historical_rates.
  destruct (Z.ltb_spec end_date start_date); [lia|].
  destruct (Z.ltb_spec (today E) start_date); [reflexivity|lia].
Qed.

(** The ways of [get_historical_rates] for a range that is in order and does
    not start in the future: after the /timeseries request (and the entries
    of its response, if any) it either is the per-day fallback or returns
    the quotes of the entries, sorted. *)
Lemma beacon_historical_shape E s t start_date end_date w :
  start_date <= end_date -> start_date <= today E ->
  exists w1,
    same_but_remote w w1
    /\ w_slept w1 = w_slept w
    /\ w_sent w1 = w_sent w ++ [Timeseries (upper s) start_date (Z.min end_date (today E))
                                           (upper t)]
    /\ (cache_dated_all (w_cache w) -> cache_dated_all (w_cache w1))
    /\ (Beacon.get_historical_rates E s t start_date end_date w
        = Beacon._fallback_historical_rates E (upper s) (upper t) start_date
            (Z.min end_date (today E)) w1
        \/ exists r results,
             Beacon.get_historical_rates E s t start_date end_date w
             = (inr (sorted_by_date (r :: results)), w1)).
Proof.
  intros Hrange Hstart.
  remember (Beacon.get_historical_rates E s t start_date end_date w) as out eqn:Hout.
  unfold Beacon.get_historical_rates in Hout.
  destruct (Z.ltb_spec end_date start_date); [lia|].
  destruct (Z.ltb_spec (today E) start_date); [lia|].
  assert (Hmin : (if today E <? end_date then today E else end_date)
                 = Z.min end_date (today E)).
  { destruct (Z.ltb_spec (today E) end_date); lia. }
  rewrite Hmin in Hout. set (end' := Z.min end_date (today E)) in *.
  set (req := Timeseries (upper s) start_date end' (upper t)) in *.
  unfold try_except, bind at 1 in Hout.
  destruct (make_request_spec E req w) as [o Ho]. rewrite Ho in Hout.
  set (w1 := set_sent (w_sent w ++ [req]) w) in *.
  assert (Hfb : forall w0,
             exists quotes w2,
               Beacon._fallback_historical_rates E (upper s) (upper t) start_date end' w0
               = (inr quotes, w2)).
  { intros w0.
    destruct (fallback_historical_spec E (upper s) (upper t) start_date end' w0
                (upper_idemp s) (upper_idemp t)) as (quotes & w2 & Heq & _). eauto. }
  assert (Hw1 : same_but_remote w w1 /\ w_slept w1 = w_slept w
                /\ w_sent w1 = w_sent w ++ [req]
                /\ (cache_dated_all (w_cache w) -> cache_dated_all (w_cache w1))).
  { by repeat split. }
  destruct o as [e|data]; [exists w1; split_and!; try apply Hw1; by left|].
  destruct (Beacon.timeseries_container data) as [| | | |l|entries].
  1-5: exists w1; split_and!; try apply Hw1; left; rewrite Hout;
       by destruct (Hfb w1) as (quotes & w2 & ->).
  unfold bind in Hout.
  destruct (timeseries_entries_spec (upper s) (upper t) entries [] w1)
    as (results & w2 & Hentries & Hsame & Hsent & Hslept & Hdated).
  rewrite Hentries in Hout. cbn [app] in Hout.
  exists w2. split_and!.
  - eapply same_but_remote_trans; [apply Hw1|exact Hsame].
  - by rewrite Hslept.
  - by rewrite Hsent.
  - intros Hc. by apply Hdated, Hw1.
  - destruct results as [|r results].
    + left. rewrite Hout. by destruct (Hfb w2) as (quotes & w3 & ->).
    + right. by exists r, results.
Qed.


(** X8. The cache of the remote adapter stays dated by its keys (every
    cached quote carries the date its key names) under a single-date lookup
    for a date that is not in the future, under [get_latest_rate], under
    [get_historical_rates], whatever the upstream service answers, and under
    [get_exchange_rates_for_date], which writes nothing: only a single-date
    lookup for a future date can cache a quote under a date it does not
    carry. *)
Theorem beacon_cache_stays_dated E (s t : string) (w : world) :
  cache_dated_all (w_cache w) ->
  (forall d, d <= today E ->
     cache_dated_all (w_cache (Beacon.get_exchange_rate E s t d w).2))
  /\ cache_dated_all (w_cache (Beacon.get_latest_rate E s t w).2)
  /\ (forall start_date end_date,
        cache_dated_all (w_cache (Beacon.get_historical_rates E s t start_date end_date w).2))
  /\ (forall d targets,
        w_cache (Beacon.get_exchange_rates_for_date E s d targets w).2 = w_cache w).
Proof.
  intros Hc. split_and!.
  - intros d Hd. by apply beacon_rate_keeps_dated.
  - rewrite beacon_latest_state. by apply beacon_rate_keeps_dated.
  - intros start_date end_date.
    destruct (Z.lt_ge_cases end_date start_date) as [Hinv|Hrange].
    { by rewrite beacon_historical_inverted_range. }
    destruct (Z.lt_ge_cases (today E) start_date) as [Hfuture|Hstart].
    { by rewrite beacon_historical_future. }
    destruct (beacon_historical_shape E s t start_date end_date w Hrange Hstart)
      as (w1 & _ & _ & _ & Hdated & [->|(r & results & ->)]).
    + by apply fallback_keeps_dated, Hdated.
    + by apply Hdated.
  - intros d targets.
    unfold Beacon.get_exchange_rates_for_date, try_except, bind at 1.
    match goal with |- context [(if ?c then Beacon._make_request E ?a
                                 else Beacon._make_request E ?b) w] =>
      assert (Hreq : exists o req, (if c then Beacon._make_request E a
                                    else Beacon._make_request E b) w
                                   = (o, set_sent (w_sent w ++ [req]) w))
        by (destruct c; [destruct (make_request_spec E a w) as [o Ho]
                        |destruct (make_request_spec E b w) as [o Ho]]; eauto)
    end.
    destruct Hreq as (o & req & ->). by destruct o.
Qed.

End BeaconRanges.


Lemma beacon_cache_stays_dated_witness :
  let E := Ref.env 738900 Ref.restricted_plan [] [] in
  cache_dated_all
    (w_cache (Beacon.get_historical_rates E "EUR" "USD" 738898 738900 (Ref.fresh [])).2).
Proof.
  refine (proj1 (proj2 (proj2 (beacon_cache_stays_dated
                                 (Ref.env 738900 Ref.restricted_plan [] []) "EUR" "USD"
                                 (Ref.fresh []) _))) 738898 738900).
  intros source target d q. simpl. by rewrite lookup_empty.
Defined.

Section FallbackBounds.
Context `{RT : PyRuntime}.




(** The requests and the sleeps of the loop. *)
Lemma fallback_loop_paced E fuel source target end_date :
  forall cur results ec w,
  exists requests sleeps : nat,
    let w' := (Beacon.fallback_loop E fuel source target end_date cur results ec w).2 in
    List.length (w_sent w') = (List.length (w_sent w) + requests)%nat
    /\ w_slept w' = (w_slept w + sleeps)%nat
    /\ (requests <= sleeps + 1)%nat
    /\ (sleeps <= Z.to_nat (Z.min end_date (today E) - cur + 1))%nat.
Proof.
  induction fuel as [|fuel IH]; intros cur results ec w; simpl.
  - exists 0%nat, 0%nat. simpl. lia.
  - destruct ((cur <=? end_date) && (cur <=? today E)) eqn:Hcond; cycle 1.
    { exists 0%nat, 0%nat. simpl. lia. }
    apply andb_true_iff in Hcond as [Hend%Z.leb_le Hcur%Z.leb_le].
    rewrite bind_attempt.
    destruct (fallback_lookup_requests E source target cur w)
      as ((_ & _ & Hslept & _) & n & Hn & Hsent).
    destruct (Beacon.fallback_lookup E source target cur w) as [o w1]. simpl in *.
    assert (Hnext : forall results' ec',
               exists requests sleeps : nat,
                 let w' := (Beacon.fallback_loop E fuel source target end_date (cur + 1)
                              results' ec' (set_slept (S (w_slept w1)) w1)).2 in
                 List.length (w_sent w') = (List.length (w_sent w) + requests)%nat
                 /\ w_slept w' = (w_slept w + sleeps)%nat
                 /\ (requests <= sleeps + 1)%nat
                 /\ (sleeps <= Z.to_nat (Z.min end_date (today E) - cur + 1))%nat).
    { intros results' ec'.
      destruct (IH (cur + 1) results' ec' (set_slept (S (w_slept w1)) w1))
        as (requests & sleeps & Hr & Hsl & Hle & Hbound).
      simpl in *. exists (n + requests)%nat, (S sleeps). simpl. lia. }
    destruct o as [e|q].
    + destruct (is_rate_not_found e); [apply Hnext|].
      destruct (Beacon.max_errors <=? ec + 1); [|apply Hnext].
      exists n, 0%nat. simpl. lia.
    + apply Hnext.
Qed.

(** X10. The pacing of the per-day fallback: it sleeps after every lookup
    but the one on which it gives up, so the requests it sends are at most
    one more than its sleeps, and it sleeps (and sends a request) at most
    once per day of the range up to today. *)
Theorem fallback_paced E (source target : string) (start_date end_date : Z) (w : world) :
  exists requests sleeps : nat,
    let w' := (Beacon._fallback_historical_rates E source target start_date end_date w).2 in
    List.length (w_sent w') = (List.length (w_sent w) + requests)%nat
    /\ w_slept w' = (w_slept w + sleeps)%nat
    /\ (requests <= sleeps + 1)%nat
    /\ (sleeps <= Z.to_nat (Z.min end_date (today E) - start_date + 1))%nat.
Proof.
  unfold Beacon._fallback_historical_rates, bind.
  destruct (fallback_loop_paced E (Z.to_nat (end_date - start_date + 1)) source target
              end_date start_date [] 0 w) as (requests & sleeps & H).
  exists requests, sleeps.
  destruct (fallback_loop_returns E (Z.to_nat (end_date - start_date + 1)) source target
              end_date start_date [] 0 w) as (more & w' & Heq).
  rewrite Heq in H |- *. exact H.
Qed.

End FallbackBounds.


(** ** The remote adapter when the upstream service is down *)

Section UpstreamDown.
Context `{RT : PyRuntime}.





End UpstreamDown.


(** ** The provider manager: the adapter cache and what failover lets through *)

Section ManagerEdges.
Context `{RT : PyRuntime}.

(** Importing an adapter class does not touch the process state. *)
Lemma import_adapter_class_state E path w :
  (Manager._import_adapter_class E path w).2 = w.
Proof.
  unfold Manager._import_adapter_class.
  destruct (Manager.importable path); [reflexivity|].
  destruct (import_other E path) as [e|cls]; [|reflexivity].
  by destruct (Manager.is_import_failure e).
Qed.

(** X12. [ProviderManager.get_adapter] builds an adapter once per adapter
    path and config: when a call returns an adapter, the same call in the
    state it left returns the same adapter and changes nothing, so the
    constructor (and the reseeding of the random generator a mock adapter
    with a [seed] does) is not run again. *)
Theorem get_adapter_reuses_instance E (path : string) (config : config) (w : world)
    (a : Manager.Adapter) (w' : world) :
  Manager.get_adapter E path config w = (inr a, w') ->
  Manager.get_adapter E path config w' = (inr a, w').
Proof.
  unfold Manager.get_adapter, bind, get_world. simpl.
  destruct (Manager.cached_class (path, config) (w_adapters w)) as [cls|] eqn:Hc.
  { intros [= <- <-]. by rewrite Hc. }
  pose proof (import_adapter_class_state E path w) as Hstate.
  destruct (Manager._import_adapter_class E path w) as [[e|cls] w1]; [discriminate|].
  simpl in Hstate. subst w1.
  destruct cls as [| |e|type_name]; simpl.
  - unfold bind, Mock.init. simpl.
    destruct (cfg_seed config) as [seed|]; simpl;
      unfold bind, Mock.seed_int, modify, ret; simpl;
      intros [= <- <-]; simpl;
      by destruct (decide ((path, config) = (path, config))).
  - unfold ret, modify. simpl. intros [= <- <-]. simpl.
    by destruct (decide ((path, config) = (path, config))).
  - unfold reraise. discriminate.
  - unfold ret, modify. simpl. intros [= <- <-]. simpl.
    by destruct (decide ((path, config) = (path, config))).
Qed.

(** X13. An active provider whose adapter path cannot be imported stops the
    failover. When it is the first in order, its adapter is not yet in the
    cache and splitting the path, importing the module or reading the
    attribute fails (ValueError, ImportError or AttributeError),
    [execute_with_failover] raises ImportError at once, since the import
    error is not an adapter error: the message names the path and ends with
    the message of the failure; no provider is announced or tried, the
    providers after it included, and the process state is untouched. *)
Theorem unimportable_adapter_aborts_failover E {R : Type}
    (operation : Manager.Adapter -> M R) (w : world) (p : Provider) (rest : list Provider)
    (cause : exn) :
  Manager.get_active_providers E = p :: rest ->
  Manager.cached_class (adapter_path p, provider_config p) (w_adapters w) = None ->
  Manager.importable (adapter_path p) = None ->
  import_other E (adapter_path p) = inl cause ->
  Manager.is_import_failure cause = true ->
  Manager.execute_with_failover E operation w
  = (inl (Exn ImportError
              ("Cannot import adapter class '" +:+ adapter_path p +:+ "': "
               +:+ exn_msg cause)), w).
Proof.
  intros Hactive Hc Himp Hcause Hfailure. unfold Manager.execute_with_failover.
  rewrite Hactive. cbn [Manager.failover_loop].
  unfold try_except, Manager.try_provider, bind at 1, Manager.get_adapter_for_provider,
    Manager.get_adapter, bind at 1, get_world.
  rewrite Hc.
  unfold bind at 1, Manager._import_adapter_class. rewrite Himp, Hcause, Hfailure.
  unfold raise, reraise. reflexivity.
Qed.

Section Propagation.
Context (E : Env) {R : Type} (operation : Manager.Adapter -> M R).
Context (I : world -> Prop) (outcome : Provider -> exn + R).

Lemma failover_loop_stops :
  attempt_determined E operation I outcome ->
  forall failed p rest e last_error w,
    (forall q, q ∈ failed ++ p :: rest -> q ∈ Manager.get_active_providers E) -> I w ->
    Forall (fails outcome) failed -> outcome p = inl e -> is_adapter_error e = false ->
    exists w',
      Manager.failover_loop E operation (failed ++ p :: rest) last_error w = (inl e, w')
      /\ w_tried w' = w_tried w ++ (name <$> failed ++ [p]).
Proof.
  intros Hdet. induction failed as [|q failed IH];
    intros p rest e last_error w Hin HI Hfail Hp Hother.
  - destruct (Hdet p w) as (Ho & HI' & Htried); [apply Hin; by left|done|].
    simpl. unfold try_except.
    destruct (Manager.try_provider E operation p w) as [o w1]. simpl in *.
    rewrite Ho, Hp, Hother. by exists w1.
  - apply Forall_cons in Hfail as [(e' & He & Hadapter) Hfail].
    destruct (Hdet q w) as (Ho & HI' & Htried); [apply Hin; by left|done|].
    simpl. unfold try_except.
    destruct (Manager.try_provider E operation q w) as [o w1]. simpl in *.
    rewrite Ho, He, Hadapter.
    destruct (IH p rest e (Some e') w1) as (w' & -> & Htried'); [|done|done|done|done|].
    { intros q' Hq'. apply Hin. by right. }
    exists w'. split; [reflexivity|].
    rewrite Htried', Htried, <- app_assoc. reflexivity.
Qed.

End Propagation.

(** X14. [execute_with_failover] fails over on adapter errors only: when the
    providers before [p] failed with adapter errors and the attempt on [p]
    raises any other exception (a ValueError for a range whose start is after
    its end, say), that exception leaves [execute_with_failover] as it is,
    not wrapped in the aggregate error, and the providers after [p] are not
    tried. *)
Theorem failover_propagates_other_errors E {R : Type} (operation : Manager.Adapter -> M R)
    (I : world -> Prop) (outcome : Provider -> exn + R) (w : world)
    (failed : list Provider) (p : Provider) (rest : list Provider) (e : exn) :
  attempt_determined E operation I outcome ->
  I w ->
  Manager.get_active_providers E = failed ++ p :: rest ->
  Forall (fails outcome) failed ->
  outcome p = inl e ->
  is_adapter_error e = false ->
  (Manager.execute_with_failover E operation w).1 = inl e
  /\ w_tried (Manager.execute_with_failover E operation w).2
     = w_tried w ++ (name <$> failed ++ [p]).
Proof.
  intros Hdet HI Hactive Hfail Hp Hother.
  unfold Manager.execute_with_failover.
  destruct (failover_loop_stops E operation I outcome Hdet failed p rest e None w)
    as (w' & Heq & Htried); try done.
  { intros q Hq. by rewrite Hactive. }
  rewrite Hactive. destruct (failed ++ p :: rest) eqn:Hl; [by destruct failed|].
  by rewrite Heq.
Qed.



End ManagerEdges.

Lemma get_adapter_reuses_instance_witness :
  let E := Ref.env 738900 Ref.offline [] [] in
  let first := Manager.get_adapter E "adapters.mock.MockAdapter" Ref.seeded (Ref.fresh []) in
  Manager.get_adapter E "adapters.mock.MockAdapter" Ref.seeded first.2
  = (inr (Manager.instance_of E MockAdapterClass Ref.seeded), first.2).
Proof.
  apply (get_adapter_reuses_instance (Ref.env 738900 Ref.offline [] [])
           "adapters.mock.MockAdapter" Ref.seeded (Ref.fresh [])).
  reflexivity.
Defined.

Lemma unimportable_adapter_aborts_failover_witness :
  Manager.execute_with_failover Ref.broken_first Ref.fetch_eur_usd (Ref.fresh [])
  = (inl (Exn ImportError
              ("Cannot import adapter class '" +:+ adapter_path Ref.p_broken +:+ "': "
               +:+ "No module named 'adapters.nowhere'")), Ref.fresh []).
Proof.
  apply (unimportable_adapter_aborts_failover Ref.broken_first Ref.fetch_eur_usd
           (Ref.fresh []) Ref.p_broken [Ref.p_mock]
           (Exn ImportError "No module named 'adapters.nowhere'")).
  - reflexivity.
  - reflexivity.
  - reflexivity.
  - reflexivity.
  - reflexivity.
Defined.

(** In every process state whose adapter cache is well formed, the range
    operation with an inverted range raises ValueError on the remote adapter
    and returns no quote on the mock adapter. *)
Lemma inverted_determined :
  attempt_determined Ref.two_providers Ref.fetch_inverted adapters_cache_wf
                     Ref.inverted_outcome.
Proof.
  intros p w Hin Hwf. rewrite two_providers_active in Hin.
  apply elem_of_cons in Hin as [->|Hin];
    [|apply list_elem_of_singleton in Hin as ->].
  - destruct (get_adapter_spec Ref.two_providers (adapter_path Ref.p_beacon)
                (provider_config Ref.p_beacon) CurrencyBeaconAdapterClass w eq_refl Hwf)
      as (w1 & Heq & Hwf1 & _ & _ & _ & Ht1 & _).
    assert (Hrun : Manager.try_provider Ref.two_providers Ref.fetch_inverted Ref.p_beacon w
                   = (inl (Exn ValueError "start_date must be before end_date"),
                      set_tried (w_tried w1 ++ [name Ref.p_beacon]) w1)).
    { unfold Manager.try_provider, Manager.get_adapter_for_provider, bind at 1.
      rewrite Heq. reflexivity. }
    rewrite Hrun. cbn [fst snd]. split; [reflexivity|]. split; [exact Hwf1|].
    simpl. by rewrite Ht1.
  - destruct (get_adapter_spec Ref.two_providers (adapter_path Ref.p_mock)
                (provider_config Ref.p_mock) MockAdapterClass w eq_refl Hwf)
      as (w1 & Heq & Hwf1 & _ & _ & _ & Ht1 & _).
    assert (Hrun : Manager.try_provider Ref.two_providers Ref.fetch_inverted Ref.p_mock w
                   = (inr [], set_tried (w_tried w1 ++ [name Ref.p_mock]) w1)).
    { unfold Manager.try_provider, Manager.get_adapter_for_provider, bind at 1.
      rewrite Heq. reflexivity. }
    rewrite Hrun. cbn [fst snd]. split; [reflexivity|]. split; [exact Hwf1|].
    simpl. by rewrite Ht1.
Qed.

Lemma failover_propagates_other_errors_witness :
  let out := Manager.execute_with_failover Ref.two_providers Ref.fetch_inverted
                                           (Ref.fresh []) in
  out.1 = inl (Exn ValueError "start_date must be before end_date")
  /\ w_tried out.2 = w_tried (Ref.fresh []) ++ (name <$> [] ++ [Ref.p_beacon]).
Proof.
  apply (failover_propagates_other_errors Ref.two_providers Ref.fetch_inverted
           adapters_cache_wf Ref.inverted_outcome (Ref.fresh []) [] Ref.p_beacon
           [Ref.p_mock]).
  - exact inverted_determined.
  - intros path config cls. discriminate.
  - reflexivity.
  - constructor.
  - reflexivity.
  - reflexivity.
Defined.


(** ** The service: resolving, storing and converting *)

Section ServiceEdges.
Context `{RT : PyRuntime}.

Import Service.

(** A quote that [_save_rate_to_db] stored: both its currencies are known,
    the row returned is its row, and the table holds under its key exactly
    the row of the quote as the column holds it, every other key as
    before. *)
Lemma save_rate_success E result w row w' :
  unique_keys (w_rates w) ->
  _save_rate_to_db E result w = (inr row, w') ->
  row = row_of result
  /\ unique_keys (w_rates w')
  /\ List.filter (has_key (result_key result)) (w_rates w') = [stored_as E result]
  /\ (forall k, k <> result_key result ->
      List.filter (has_key k) (w_rates w') = List.filter (has_key k) (w_rates w)).
Proof.
  intros Hu Hrun.
  assert (Hs : source_currency result ∈ currencies E).
  { unfold _save_rate_to_db, currency_get, bind at 1 in Hrun.
    destruct (decide (source_currency result ∈ currencies E)); [done|discriminate]. }
  assert (Ht : exchanged_currency result ∈ currencies E).
  { unfold _save_rate_to_db, currency_get, bind in Hrun.
    destruct (decide (source_currency result ∈ currencies E)); [|discriminate].
    unfold ret at 1 in Hrun.
    destruct (decide (exchanged_currency result ∈ currencies E)); [done|discriminate]. }
  pose proof (save_rate_spec E result w Hu Hs Ht) as Hspec.
  destruct (stored_rate E (rate_value result)) as [e|stored].
  { rewrite Hrun in Hspec. discriminate. }
  destruct Hspec as (rows' & Heq & Hu' & Hf & Ho).
  rewrite Hrun in Heq. injection Heq as -> ->. by repeat split.
Qed.

(** A failed [_save_rate_to_db] has changed nothing. *)
Lemma save_rate_failure E result w e w' :
  _save_rate_to_db E result w = (inl e, w') -> w' = w.
Proof.
  unfold _save_rate_to_db, currency_get, bind.
  destruct (decide (source_currency result ∈ currencies E)); [|by intros [= _ <-]].
  unfold ret at 1.
  destruct (decide (exchanged_currency result ∈ currencies E)); [|by intros [= _ <-]].
  unfold ret at 1, update_or_create, bind, get_world. cbv beta iota zeta.
  destruct (List.filter _ (w_rates w)) as [|r [|r' l]].
  - rewrite to_column_spec.
    destruct (stored_rate E (rate_value result)) as [err|stored]; [by intros [= _ <-]|].
    unfold modify, ret. simpl. discriminate.
  - rewrite to_column_spec.
    destruct (stored_rate E (rate_value result)) as [err|stored]; [by intros [= _ <-]|].
    unfold modify, ret. simpl. discriminate.
  - unfold raise. by intros [= _ <-].
Qed.

Lemma resolve_upper E s t d provider :
  get_exchange_rate_data E (upper s) (upper t) d provider
  = get_exchange_rate_data E s t d provider.
Proof. unfold get_exchange_rate_data. by rewrite !upper_idemp. Qed.

(** The ways of a resolution, on a table without duplicate keys: the stored
    row of the key, found at once; or a failure that has stored nothing; or
    the row of a quote fetched and stored. *)
Lemma resolve_cases E s t d provider w :
  unique_keys (w_rates w) ->
  (exists row,
     List.filter (has_key (upper s, upper t, d)) (w_rates w) = [row]
     /\ get_exchange_rate_data E s t d provider w = (inr row, w))
  \/ (List.filter (has_key (upper s, upper t, d)) (w_rates w) = []
      /\ ((exists e w', get_exchange_rate_data E s t d provider w = (inl e, w')
                        /\ w_rates w' = w_rates w)
          \/ (exists result w1 w',
                _fetch_from_provider E (upper s) (upper t) d provider w = (inr result, w1)
                /\ w_rates w1 = w_rates w
                /\ get_exchange_rate_data E s t d provider w = (inr (row_of result), w')
                /\ unique_keys (w_rates w')
                /\ List.filter (has_key (result_key result)) (w_rates w')
                   = [stored_as E result]
                /\ (forall k, k <> result_key result ->
                    List.filter (has_key k) (w_rates w')
                    = List.filter (has_key k) (w_rates w))))).
Proof.
  intros Hu.
  remember (get_exchange_rate_data E s t d provider w) as out eqn:Hout.
  destruct (filter_has_key_unique (upper s, upper t, d) (w_rates w) Hu)
    as [Hnil|(r & Hone & Hr)].
  - right. split; [exact Hnil|].
    unfold get_exchange_rate_data, bind at 1 in Hout.
    rewrite get_rate_from_db_miss in Hout by done. unfold bind in Hout.
    pose proof (keeps_fetch E (upper s) (upper t) d provider w) as Hk.
    destruct (_fetch_from_provider E (upper s) (upper t) d provider w) as [[e|result] w1];
      simpl in Hk.
    { left. by exists e, w1. }
    destruct (_save_rate_to_db E result w1) as [[e|row] w'] eqn:Hsave.
    + left. exists e, w'. split; [exact Hout|].
      by rewrite (save_rate_failure E result w1 e w' Hsave).
    + right. rewrite <- Hk in Hu.
      destruct (save_rate_success E result w1 row w' Hu Hsave) as (-> & Hu' & Hf & Ho).
      exists result, w1, w'. split_and!; try done.
      intros k Hne. rewrite Ho by done. by rewrite Hk.
  - left. exists r. split; [exact Hone|]. rewrite Hout.
    unfold get_exchange_rate_data, bind. by rewrite (get_rate_from_db_hit _ _ _ r).
Qed.

(** X16. A resolution is answered from the stored rates when it can be:
    after [get_exchange_rate_data] has returned a row stored under the key
    asked for (source, target, date), the same resolution, with or without a
    provider name, returns a row of that key and leaves the process state as
    it is: no provider is contacted and nothing is written. *)
Theorem resolve_again_hits_store E (s t : string) (d : Z) (provider provider' : option string)
    (w : world) (row : rate_row) (w' : world) :
  unique_keys (w_rates w) ->
  get_exchange_rate_data E s t d provider w = (inr row, w') ->
  row_key row = (upper s, upper t, d) ->
  exists row',
    get_exchange_rate_data E s t d provider' w' = (inr row', w')
    /\ row_key row' = row_key row.
Proof.
  intros Hu Hrun Hkey.
  assert (Hstored : exists stored,
             List.filter (has_key (upper s, upper t, d)) (w_rates w') = [stored]
             /\ row_key stored = row_key row).
  { destruct (resolve_cases E s t d provider w Hu)
      as [(r & Hone & Heq)|(Hnil & [(e & w1 & Heq & _)|(result & w1 & w2 & _ & _ & Heq & _ & Hf & _)])];
      rewrite Hrun in Heq.
    - injection Heq as <- <-. by exists row.
    - discriminate.
    - injection Heq as -> ->. exists (stored_as E result). split; [|reflexivity].
      rewrite <- Hkey. exact Hf. }
  destruct Hstored as (stored & Hstored & Hsame).
  exists stored. split; [|exact Hsame].
  unfold get_exchange_rate_data, bind. by rewrite (get_rate_from_db_hit _ _ _ stored).
Qed.

(** X17. What a resolution does to the stored rates, on a table without
    duplicate keys: a resolution that fails leaves the table as it was; one
    that returns a row leaves exactly one row under the key of that row and
    the rows of every other key as they were. *)
Theorem resolve_touches_one_key E (s t : string) (d : Z) (provider : option string)
    (w : world) :
  unique_keys (w_rates w) ->
  let out := get_exchange_rate_data E s t d provider w in
  (forall e, out.1 = inl e -> w_rates out.2 = w_rates w)
  /\ (forall row, out.1 = inr row ->
        row_key <$> List.filter (has_key (row_key row)) (w_rates out.2) = [row_key row]
        /\ forall k, k <> row_key row ->
             List.filter (has_key k) (w_rates out.2) = List.filter (has_key k) (w_rates w)).
Proof.
  intros Hu. cbv zeta.
  destruct (resolve_cases E s t d provider w Hu)
    as [(r & Hone & ->)|(Hnil & [(e & w1 & -> & Hr)|(result & w1 & w2 & _ & _ & -> & _ & Hf & Ho)])];
    cbn [fst snd].
  - split; [discriminate|]. intros row [= <-].
    assert (Hr : row_key r = (upper s, upper t, d)).
    { apply has_key_true. apply (proj1 (List.filter_In _ r (w_rates w))).
      rewrite Hone. by left. }
    rewrite Hr, Hone. split; [by rewrite <- Hr|done].
  - split; [done|discriminate].
  - split; [discriminate|]. intros row [= <-].
    change (row_key (row_of result)) with (result_key result).
    rewrite Hf. split; [reflexivity|exact Ho].
Qed.

End ServiceEdges.

Lemma resolve_again_hits_store_witness :
  let E := Ref.env 738900 Ref.offline ["EUR"; "USD"] [Ref.p_mock] in
  let first := Service.get_exchange_rate_data E "eur" "usd" 738900 None (Ref.fresh []) in
  exists row',
    Service.get_exchange_rate_data E "eur" "usd" 738900 (Some "Mock") first.2
    = (inr row', first.2)
    /\ row_key row' = row_key (mkRow "EUR" "USD" 738900 (mkDec 1038420 (-6))).
Proof.
  apply (resolve_again_hits_store (Ref.env 738900 Ref.offline ["EUR"; "USD"] [Ref.p_mock])
           "eur" "usd" 738900 None (Some "Mock") (Ref.fresh [])).
  - unfold unique_keys. simpl. constructor.
  - reflexivity.
  - reflexivity.
Defined.

Lemma resolve_touches_one_key_witness :
  let E := Ref.env 738900 Ref.offline ["EUR"; "USD"] [Ref.p_mock] in
  let w := Ref.fresh [] in
  let out := Service.get_exchange_rate_data E "EUR" "USD" 738900 None w in
  (forall e, out.1 = inl e -> w_rates out.2 = w_rates w)
  /\ (forall row, out.1 = inr row ->
        row_key <$> List.filter (Service.has_key (row_key row)) (w_rates out.2)
        = [row_key row]
        /\ forall k, k <> row_key row ->
             List.filter (Service.has_key k) (w_rates out.2)
             = List.filter (Service.has_key k) (w_rates w)).
Proof.
  apply (resolve_touches_one_key (Ref.env 738900 Ref.offline ["EUR"; "USD"] [Ref.p_mock])
                                 "EUR" "USD" 738900 None (Ref.fresh [])).
  unfold unique_keys. simpl. constructor.
Defined.

(** ** The service: batches, periods and conversions *)

Section ServiceBatches.
Context `{RT : PyRuntime}.

Import Service.

Lemma known_true E r :
  known E r = true <-> source_currency r ∈ currencies E /\ exchanged_currency r ∈ currencies E.
Proof.
  unfold known. rewrite andb_true_iff, !bool_decide_eq_true. tauto.
Qed.

Lemma bulk_save_loop_step E r results saved w :
  bulk_save_loop E (r :: results) saved w
  = if known E r
    then (do rc <- update_or_create E (source_currency r) (exchanged_currency r)
                                    (valuation_date r) (rate_value r) ;;
          bulk_save_loop E results (saved ++ [rc.1])) w
    else bulk_save_loop E results saved w.
Proof.
  cbn [bulk_save_loop]. unfold known.
  destruct (decide (source_currency r ∈ currencies E)) as [Hs|Hs].
  - rewrite (bool_decide_eq_true_2 _ Hs).
    destruct (decide (exchanged_currency r ∈ currencies E)) as [Ht|Ht].
    + by rewrite (bool_decide_eq_true_2 _ Ht).
    + by rewrite (bool_decide_eq_false_2 _ Ht).
  - by rewrite (bool_decide_eq_false_2 _ Hs).
Qed.

(** The loop of [_bulk_save_rates] on a table without duplicate keys, when
    the column takes the rate of every quote whose currencies are known: the
    rows of those quotes, in order; under each key the row of the last such
    quote of that key as the column holds it, or what was there. *)
Lemma bulk_save_loop_spec E results :
  forall saved w,
  unique_keys (w_rates w) ->
  Forall (accepted E) (List.filter (known E) results) ->
  exists rows',
    bulk_save_loop E results saved w
    = (inr (saved ++ (row_of <$> List.filter (known E) results)), set_rates rows' w)
    /\ unique_keys rows'
    /\ forall k,
         List.filter (has_key k) rows'
         = match last (of_key k (List.filter (known E) results)) with
           | Some r => [stored_as E r]
           | None => List.filter (has_key k) (w_rates w)
           end.
Proof.
  induction results as [|r results IH]; intros saved w Hu Hacc.
  - exists (w_rates w). simpl. rewrite app_nil_r. unfold ret.
    split; [by destruct w|]. by split.
  - rewrite bulk_save_loop_step. cbn [List.filter] in *.
    destruct (known E r) eqn:Hknown; [|by apply IH].
    apply Forall_cons in Hacc as [[stored Hst] Hacc].
    unfold bind at 1.
    pose proof (update_or_create_spec E (source_currency r) (exchanged_currency r)
                  (valuation_date r) (rate_value r) w Hu) as Hspec.
    rewrite Hst in Hspec. destruct Hspec as (created & rows1 & -> & Hu1 & Hf1 & Ho1).
    apply stored_rate_inr in Hst. subst stored.
    destruct (IH (saved ++ [row_of r]) (set_rates rows1 w) Hu1 Hacc)
      as (rows' & Heq & Hu' & Hf').
    exists rows'. cbn [fst]. split; [|split; [exact Hu'|]].
    + change (mkRow (source_currency r) (exchanged_currency r) (valuation_date r)
                    (rate_value r)) with (row_of r).
      rewrite Heq. rewrite fmap_cons, <- app_assoc. reflexivity.
    + intros k. rewrite Hf'. unfold of_key. cbn [List.filter].
      destruct (decide (result_key r = k)) as [<-|Hne].
      * rewrite bool_decide_eq_true_2 by done. rewrite last_cons.
        destruct (last _); [reflexivity|exact Hf1].
      * rewrite bool_decide_eq_false_2 by done.
        destruct (last _); [reflexivity|]. by apply Ho1.
Qed.





Lemma row_leb_total r r' : row_leb r r' = false -> row_leb r' r = true.
Proof.
  unfold row_leb. intros H.
  apply orb_false_iff in H as [Hlt H].
  apply Z.ltb_ge in Hlt.
  destruct (Z.ltb_spec (row_date r') (row_date r)); [reflexivity|].
  assert (Heq : row_date r = row_date r') by lia.
  rewrite Heq, Z.eqb_refl in *. simpl in *.
  destruct (String.leb_total (row_target r) (row_target r')); congruence.
Qed.

Lemma insert_row_perm r l : insert_row r l ≡ₚ r :: l.
Proof.
  induction l as [|r' l IH]; simpl; [reflexivity|].
  destruct (row_leb r r'); [reflexivity|].
  rewrite IH. apply perm_swap.
Qed.

Lemma order_by_date_target_perm l : order_by_date_target l ≡ₚ l.
Proof.
  induction l as [|r l IH]; simpl; [reflexivity|].
  by rewrite insert_row_perm, IH.
Qed.

Lemma insert_row_sorted r l : Sorted row_le l -> Sorted row_le (insert_row r l).
Proof.
  induction l as [|r' l IH]; simpl; intros Hs.
  - repeat constructor.
  - destruct (row_leb r r') eqn:Hrr.
    + constructor; [exact Hs|]. by constructor.
    + apply Sorted_inv in Hs as [Hs Hhd].
      constructor; [by apply IH|].
      destruct l as [|r'' l]; simpl.
      * constructor. by apply row_leb_total.
      * destruct (row_leb r r'') eqn:Hrr'.
        -- constructor. by apply row_leb_total.
        -- apply HdRel_inv in Hhd. by constructor.
Qed.

Lemma order_by_date_target_sorted l : Sorted row_le (order_by_date_target l).
Proof.
  induction l as [|r l IH]; simpl; [constructor|]. by apply insert_row_sorted.
Qed.

Lemma elem_of_list_filter_bool {A} (f : A -> bool) (l : list A) (x : A) :
  x ∈ List.filter f l <-> x ∈ l /\ f x = true.
Proof. rewrite !list_elem_of_In. apply List.filter_In. Qed.

Lemma filter_bool_sublist {A} (f : A -> bool) (l : list A) : List.filter f l `sublist_of` l.
Proof.
  induction l as [|x l IH]; simpl; [constructor|].
  destruct (f x); by constructor.
Qed.

(** X19. [get_rates_for_period] reads the stored rates and changes nothing.
    It returns exactly the stored rows of the upper-cased source whose date
    lies between the two dates (both included) and, when a non-empty list
    of targets is given, whose target is one of them upper-cased; the rows
    come in ascending order of (date, target code), each once when the table
    has no duplicate keys. An empty target list filters nothing, and a
    period whose end is before its start gives no row. *)
Theorem rates_for_period_spec (s : string) (date_from date_to : Z)
    (targets : option (list string)) (w : world) :
  exists rows,
    get_rates_for_period s date_from date_to targets w = (inr rows, w)
    /\ Sorted row_le rows
    /\ (forall r, r ∈ rows <->
          r ∈ w_rates w /\ row_source r = upper s /\ date_from <= row_date r <= date_to
          /\ (default [] targets = [] \/ row_target r ∈ upper <$> default [] targets))
    /\ (unique_keys (w_rates w) -> NoDup (row_key <$> rows))
    /\ (date_to < date_from -> rows = []).
Proof.
  unfold get_rates_for_period, bind, get_world, ret. cbn -[List.filter].
  set (period := List.filter (in_period (upper s) date_from date_to) (w_rates w)).
  set (queryset := match targets with
                   | Some (c :: cs) =>
                       List.filter (fun r => bool_decide (row_target r ∈ map upper (c :: cs)))
                                   period
                   | _ => period
                   end).
  assert (Hperiod : forall r, r ∈ period <->
            r ∈ w_rates w /\ row_source r = upper s /\ date_from <= row_date r <= date_to).
  { intros r. unfold period. rewrite elem_of_list_filter_bool. unfold in_period.
    rewrite !andb_true_iff, bool_decide_eq_true, !Z.leb_le. tauto. }
  assert (Hquery : forall r, r ∈ queryset <->
            r ∈ period
            /\ (default [] targets = [] \/ row_target r ∈ upper <$> default [] targets)).
  { intros r. unfold queryset. destruct targets as [[|c cs]|]; simpl.
    - split; [intros Hin; split; [done|by left]|tauto].
    - rewrite elem_of_list_filter_bool, bool_decide_eq_true.
      split; [intros [Hin Hin']; split; [done|by right]|].
      intros [Hin [Hnil|Hin']]; [discriminate|done].
    - split; [intros Hin; split; [done|by left]|tauto]. }
  assert (Hsub : queryset `sublist_of` w_rates w).
  { transitivity period; [|apply filter_bool_sublist].
    unfold queryset. destruct targets as [[|c cs]|]; try reflexivity.
    apply filter_bool_sublist. }
  exists (order_by_date_target queryset). split; [reflexivity|].
  split; [apply order_by_date_target_sorted|]. split; [|split].
  - intros r. rewrite order_by_date_target_perm, Hquery, Hperiod. tauto.
  - intros Hu. rewrite order_by_date_target_perm.
    eapply sublist_NoDup; [exact Hu|]. by apply fmap_sublist.
  - intros Hinv.
    assert (Hnil : queryset = []).
    { apply elem_of_nil_inv. intros r Hin.
      apply Hquery in Hin as [Hin _]. apply Hperiod in Hin. lia. }
    by rewrite Hnil.
Qed.

End ServiceBatches.


Section Conversions.
Context `{RT : PyRuntime}.

Import Service.

(** X20. [convert_amount]: for a pair whose codes are equal after
    upper-casing the amount comes back as it was given, not rounded, at the
    rate 1.000000, and neither the stored rates nor a provider is consulted
    (the process state is untouched). For any other pair the conversion
    leaves the process state as the resolution of the pair for the date
    (today when none is given) leaves it and fails as the resolution fails;
    when a row is resolved, the rate is that of the row and the converted
    amount is the product of amount and rate, brought into the 28 digits of
    the arithmetic context and then rounded to two places, half-even: the
    call raises decimal.Overflow or decimal.InvalidOperation when the
    product or the rounded amount does not fit the context. A product of at
    most 28 digits with an exponent the context allows is rounded once:
    the converted amount is the product at two places, when that takes at
    most 28 digits. *)
Theorem convert_amount_spec E (s t : string) (amount : decimal) (d : option Z) (w : world) :
  let resolved := get_exchange_rate_data E s t (default (today E) d) None w in
  (upper s = upper t ->
   convert_amount E s t amount d w
   = (inr (mkConversion (upper s) (upper t) amount amount rate_one (default (today E) d)), w))
  /\ (upper s <> upper t ->
      (convert_amount E s t amount d w).2 = resolved.2
      /\ (forall e, resolved.1 = inl e -> (convert_amount E s t amount d w).1 = inl e)
      /\ (forall row, resolved.1 = inr row ->
            (convert_amount E s t amount d w).1
            = match converted amount (row_rate row) with
              | inr rounded =>
                  inr (mkConversion (upper s) (upper t) amount rounded (row_rate row)
                                    (default (today E) d))
              | inl e => inl e
              end))
  /\ (forall rate,
        let product := Dec.mul amount rate in
        Z.abs (coef product) < 10 ^ Dec.prec ->
        Dec.Etiny <= expo product <= Dec.Etop ->
        Z.abs (coef (Dec.round product 2)) < 10 ^ Dec.prec ->
        converted amount rate = inr (Dec.round product 2)).
Proof.
  cbv zeta. unfold convert_amount. split; [|split].
  - intros Heq. destruct (decide (upper s = upper t)); [reflexivity|contradiction].
  - intros Hne. destruct (decide (upper s = upper t)); [contradiction|].
    unfold bind, dec_mul, dec_round, lift, converted, ret. rewrite resolve_upper.
    destruct (get_exchange_rate_data E s t (default (today E) d) None w) as [[e|row] w'].
    + cbn [fst snd]. split; [reflexivity|]. split; [by intros e' [= <-]|discriminate].
    + cbn [fst snd].
      destruct (Dec.ctx_mul amount (row_rate row)) as [product|] eqn:Hmul; cbn [trap].
      * destruct (Dec.ctx_round product 2) as [rounded|] eqn:Hround; cbn [trap fst snd];
          (split; [reflexivity|]); (split; [discriminate|]); intros row' [= <-];
          by rewrite Hmul, Hround.
      * cbn [fst snd]. split; [reflexivity|]. split; [discriminate|]. intros row' [= <-].
        by rewrite Hmul.
  - intros rate Hc He Hr. unfold converted, Dec.ctx_mul.
    rewrite (fix_exact _ Hc He). unfold Dec.ctx_round, Dec.ctx_quantize.
    fold (Dec.round (Dec.mul amount rate) 2).
    by apply Z.leb_gt in Hr as ->.
Qed.

Lemma no_provider_named E pname :
  (forall p, p ∈ providers E -> is_active p = true -> upper (name p) <> upper pname) ->
  List.filter (fun p => is_active p && iexact (name p) pname) (providers E) = [].
Proof.
  intros Hnone. induction (providers E) as [|p l IH]; [reflexivity|].
  simpl. destruct (is_active p) eqn:Hactive; simpl.
  - unfold iexact. rewrite bool_decide_eq_false_2.
    + apply IH. intros q Hq. apply Hnone. by right.
    + apply Hnone; [by left|done].
  - apply IH. intros q Hq. apply Hnone. by right.
Qed.

(** X21. A provider name that matches no active provider (names are
    compared without regard to case): fetching a single rate turns
    Provider.DoesNotExist into an adapter error, "Provider '...' not found or
    inactive", whereas [load_historical_rates] lets Provider.DoesNotExist
    itself through; in both cases no provider is tried and the process state
    is untouched. *)
Theorem unknown_provider_errors E (s t : string) (d d' : Z) (pname : string) (w : world) :
  pname <> "" ->
  (forall p, p ∈ providers E -> is_active p = true -> upper (name p) <> upper pname) ->
  _fetch_from_provider E s t d (Some pname) w
  = (inl (Exn ExchangeRateAdapterError ("Provider '" +:+ pname +:+ "' not found or inactive")),
     w)
  /\ raised (load_historical_rates E s t d d' (Some pname) w).1 = Some ProviderDoesNotExist
  /\ (load_historical_rates E s t d d' (Some pname) w).2 = w.
Proof.
  intros Hname Hnone.
  assert (Hgiven : given (Some pname) = Some pname) by by destruct pname.
  assert (Hget : provider_get E pname w
                 = (inl (Exn ProviderDoesNotExist "Provider matching query does not exist."),
                    w)).
  { unfold provider_get. by rewrite (no_provider_named E pname Hnone). }
  split; [|split].
  - unfold _fetch_from_provider. rewrite Hgiven. unfold try_except, bind. by rewrite Hget.
  - unfold load_historical_rates. rewrite Hgiven. unfold bind. by rewrite Hget.
  - unfold load_historical_rates. rewrite Hgiven. unfold bind. by rewrite Hget.
Qed.

End Conversions.

Lemma unknown_provider_errors_witness :
  Service._fetch_from_provider Ref.two_providers "EUR" "USD" 738900 (Some "retired")
                               (Ref.fresh [])
  = (inl (Exn ExchangeRateAdapterError ("Provider '" +:+ "retired" +:+ "' not found or inactive")),
     Ref.fresh [])
  /\ raised (Service.load_historical_rates Ref.two_providers "EUR" "USD" 738900 738905
                                           (Some "retired") (Ref.fresh [])).1
     = Some ProviderDoesNotExist
  /\ (Service.load_historical_rates Ref.two_providers "EUR" "USD" 738900 738905
                                    (Some "retired") (Ref.fresh [])).2
     = Ref.fresh [].
Proof.
  apply (unknown_provider_errors Ref.two_providers "EUR" "USD" 738900 738905 "retired"
                                 (Ref.fresh [])).
  - discriminate.
  - intros p Hp Hactive.
    apply elem_of_cons in Hp as [->|Hp]; [discriminate|].
    apply elem_of_cons in Hp as [->|Hp]; [discriminate|].
    apply list_elem_of_singleton in Hp as ->. discriminate.
Defined.

(** ** The scheduled tasks *)

Section TaskFacts.
Context `{RT : PyRuntime}.

Lemma batches_nil batch_size start end_date :
  1 <= batch_size -> end_date < start -> batches batch_size start end_date = [].
Proof.
  intros Hb Hlt. unfold batches.
  assert ((end_date - start + batch_size) / batch_size <= 0).
  { assert ((end_date - start + batch_size) / batch_size < 1); [|lia].
    apply Z.div_lt_upper_bound; lia. }
  by rewrite seqZ_nil.
Qed.

Lemma batches_cons batch_size start end_date :
  1 <= batch_size -> start <= end_date ->
  batches batch_size start end_date
  = (start, Z.min (start + (batch_size - 1)) end_date)
    :: batches batch_size (Z.min (start + (batch_size - 1)) end_date + 1) end_date.
Proof.
  intros Hb Hle.
  assert (Hshift : batches batch_size start end_date
                   = (start, Z.min (start + (batch_size - 1)) end_date)
                     :: batches batch_size (start + batch_size) end_date).
  { unfold batches.
    assert (Hn : (end_date - start + batch_size) / batch_size
                 = (end_date - (start + batch_size) + batch_size) / batch_size + 1).
    { rewrite <- Z.div_add by lia. f_equal. lia. }
    assert (0 <= (end_date - (start + batch_size) + batch_size) / batch_size).
    { apply Z.div_pos; lia. }
    rewrite Hn, seqZ_cons by lia. rewrite fmap_cons. f_equal.
    - f_equal; [lia|f_equal; lia].
    - replace (Z.pred ((end_date - (start + batch_size) + batch_size) / batch_size + 1))
        with ((end_date - (start + batch_size) + batch_size) / batch_size) by lia.
      replace (Z.succ 0) with (1 + 0) by lia.
      rewrite <- fmap_add_seqZ, <- list_fmap_compose.
      apply list_fmap_ext. intros _ i _. simpl. f_equal; [lia|f_equal; lia]. }
  rewrite Hshift. f_equal.
  destruct (Z.le_gt_cases (start + (batch_size - 1)) end_date) as [Hfull|Hcut].
  - rewrite Z.min_l by lia. f_equal. lia.
  - rewrite Z.min_r by lia. by rewrite !batches_nil by lia.
Qed.

(** The windows cover the days from the start to the end, each day once and
    in order; each window has at least one and at most [batch_size] days. *)
Lemma batches_cover batch_size end_date :
  1 <= batch_size ->
  forall n start,
  n = Z.to_nat (end_date - start + 1) ->
  List.concat (days_of <$> batches batch_size start end_date)
  = seqZ start (end_date - start + 1)
  /\ Forall (fun window => start <= window.1 <= window.2 /\ window.2 <= end_date
                           /\ window.2 - window.1 + 1 <= batch_size)
            (batches batch_size start end_date).
Proof.
  intros Hb n. induction (lt_wf n) as [n _ IH]. intros start Hn.
  destruct (Z.lt_ge_cases end_date start) as [Hlt|Hle].
  { rewrite batches_nil by lia. rewrite seqZ_nil by lia. by split. }
  rewrite batches_cons by lia.
  set (current_end := Z.min (start + (batch_size - 1)) end_date).
  destruct (IH (Z.to_nat (end_date - (current_end + 1) + 1)) ltac:(lia) (current_end + 1)
               eq_refl) as [Hdays Hall].
  split.
  - rewrite fmap_cons. cbn [List.concat]. rewrite Hdays. unfold days_of. cbn [fst snd].
    replace (end_date - start + 1)
      with ((current_end - start + 1) + (end_date - (current_end + 1) + 1)) by lia.
    rewrite (seqZ_app start (current_end - start + 1) (end_date - (current_end + 1) + 1))
      by lia.
    f_equal. f_equal. lia.
  - constructor; [cbn [fst snd]; lia|].
    eapply Forall_impl; [exact Hall|]. simpl. intros window. lia.
Qed.

Lemma run_batches_returns E s t provider windows :
  forall processed errors w,
  exists pe w', run_batches E s t provider windows processed errors w = (inr pe, w').
Proof.
  induction windows as [|window windows IH]; intros processed errors w; simpl.
  - unfold ret. eauto.
  - rewrite bind_attempt.
    destruct (Service.load_historical_rates E s t window.1 window.2 provider w)
      as [[e|rates] w1]; apply IH.
Qed.

Lemma date_add_in_calendar d days w :
  Z.abs days <= Date.max_delta_days ->
  Date.min_ordinal <= d + days <= Date.max_ordinal ->
  date_add d days w = (inr (d + days), w).
Proof.
  intros Hdays Hd. unfold date_add, lift. by rewrite date_plus_in_calendar.
Qed.

(** A pass of the loop whose two date additions stay in the calendar. *)
Lemma batch_loop_pass E s t provider batch_size end_date fuel current_start processed
    errors w :
  current_start <= end_date ->
  Z.abs (batch_size - 1) <= Date.max_delta_days ->
  Date.min_ordinal <= current_start + (batch_size - 1) <= Date.max_ordinal ->
  Date.min_ordinal <= Z.min (current_start + (batch_size - 1)) end_date + 1
                   <= Date.max_ordinal ->
  Tasks.batch_loop E (S fuel) s t provider batch_size end_date current_start processed
                   errors w
  = let current_end := Z.min (current_start + (batch_size - 1)) end_date in
    let out := Service.load_historical_rates E s t current_start current_end provider w in
    Tasks.batch_loop E fuel s t provider batch_size end_date (current_end + 1)
      match out.1 with
      | inr rates => processed + Z.of_nat (List.length rates)
      | inl e => processed
      end
      match out.1 with
      | inr rates => errors
      | inl e => errors ++ ["Batch failed: " +:+ Date.isoformat current_start +:+ " to "
                            +:+ Date.isoformat current_end +:+ ": " +:+ exn_msg e]
      end
      out.2.
Proof.
  intros Hle Hdelta Hwindow Hnext. cbn [Tasks.batch_loop].
  destruct (Z.leb_spec current_start end_date); [|lia].
  unfold bind at 1. rewrite date_add_in_calendar by done.
  rewrite bind_attempt. cbv zeta.
  destruct (Service.load_historical_rates E s t current_start _ provider w)
    as [[e|rates] w1]; cbn [fst snd]; unfold bind at 1;
    rewrite date_add_in_calendar by (done || lia); reflexivity.
Qed.

(** With a batch size of at least 1 and the dates of every pass in the
    calendar, the loop of the task is the run over the windows, once it has
    fuel for a pass per day and one more. *)
Lemma batch_loop_batches E s t provider batch_size end_date :
  1 <= batch_size ->
  end_date + batch_size <= Date.max_ordinal ->
  forall fuel current_start processed errors w,
  Date.min_ordinal <= current_start ->
  (Z.to_nat (end_date - current_start + 1) < fuel)%nat ->
  exists pe w',
    run_batches E s t provider (batches batch_size current_start end_date) processed errors w
    = (inr pe, w')
    /\ Tasks.batch_loop E fuel s t provider batch_size end_date current_start processed
                        errors w
       = (inr (Some pe), w').
Proof.
  intros Hb Hmax.
  induction fuel as [|fuel IH]; intros current_start processed errors w Hmin Hfuel;
    [lia|].
  destruct (Z.le_gt_cases current_start end_date) as [Hle|Hgt].
  - rewrite batch_loop_pass
      by (unfold Date.max_delta_days, Date.min_ordinal, Date.max_ordinal in *; lia).
    rewrite batches_cons by lia. cbn [run_batches fst snd]. cbv zeta.
    set (current_end := Z.min (current_start + (batch_size - 1)) end_date).
    rewrite bind_attempt.
    destruct (Service.load_historical_rates E s t current_start current_end provider w)
      as [[e|rates] w1]; cbn [fst snd]; apply IH; lia.
  - cbn [Tasks.batch_loop]. destruct (Z.leb_spec current_start end_date); [lia|].
    rewrite batches_nil by lia. simpl. unfold ret. eauto.
Qed.

(** X22. [load_historical_rates_task] with dates that parse, a batch size
    of at least 1 (30 when none is given) and a range of the calendar that
    ends at least a batch before its last day: the task ends (a pass per day
    of the range and one more is fuel enough) and does not raise, a failed
    batch being noted in [errors] and the next one tried; its result carries
    the number of days of the range and the counts of the run. The ranges
    it loads are consecutive windows that cover the days from the start to
    the end date, each day once and in order, every window of at least one
    and at most [batch_size] days. *)
Theorem historical_task_batches E (fuel : nat) (s t start_date end_date : string)
    (provider : option string) (batch_size : option Z) (start end_ : Z) (w : world) :
  date_fromisoformat start_date = Some start ->
  date_fromisoformat end_date = Some end_ ->
  1 <= default 30 batch_size ->
  Date.min_ordinal <= start ->
  end_ + default 30 batch_size <= Date.max_ordinal ->
  (Z.to_nat (end_ - start + 1) < fuel)%nat ->
  let windows := batches (default 30 batch_size) start end_ in
  (exists pe w',
     run_batches E s t provider windows 0 [] w = (inr pe, w')
     /\ Tasks.load_historical_rates_task E fuel s t start_date end_date provider batch_size w
        = (inr (Some (Tasks.mkHistoricalLoad s t start_date end_date (end_ - start + 1)
                                             pe.1 pe.2)), w'))
  /\ List.concat (days_of <$> windows) = seqZ start (end_ - start + 1)
  /\ Forall (fun window => start <= window.1 <= window.2 /\ window.2 <= end_
                           /\ window.2 - window.1 + 1 <= default 30 batch_size)
            windows.
Proof.
  intros Hstart Hend Hb Hmin Hmax Hfuel. cbv zeta. split.
  - destruct (batch_loop_batches E s t provider (default 30 batch_size) end_ Hb Hmax fuel
                start 0 [] w Hmin Hfuel) as (pe & w' & Hrun & Hloop).
    exists pe, w'. split; [exact Hrun|].
    unfold Tasks.load_historical_rates_task, Tasks.parse_date. rewrite Hstart, Hend.
    unfold bind at 1, ret at 1. unfold bind at 1, ret at 1. unfold bind.
    by rewrite Hloop.
  - by apply (batches_cover (default 30 batch_size) end_ Hb (Z.to_nat (end_ - start + 1))).
Qed.

Lemma batch_loop_stalls E s t provider end_date :
  end_date <= Date.max_ordinal ->
  forall fuel current_start processed errors w,
  Date.min_ordinal < current_start <= end_date ->
  exists w',
    Tasks.batch_loop E fuel s t provider 0 end_date current_start processed errors w
    = (inr None, w').
Proof.
  intros Hmax. induction fuel as [|fuel IH]; intros current_start processed errors w Hle.
  - exists w. reflexivity.
  - rewrite batch_loop_pass
      by (unfold Date.max_delta_days, Date.min_ordinal, Date.max_ordinal in *; lia).
    cbv zeta.
    replace (Z.min (current_start + (0 - 1)) end_date + 1) with current_start by lia.
    apply IH. lia.
Qed.

(** X23. With a batch size of 0 [load_historical_rates_task] does not end
    when the range holds a day: each batch ends on the day before it starts,
    so the next batch starts on the same day again, and whatever the fuel
    the run is still in the loop when it is used up. A range that starts on
    the first day of the calendar has no day before: there the first pass
    raises OverflowError, before anything is loaded. *)
Theorem historical_task_stalls E (fuel : nat) (s t start_date end_date : string)
    (provider : option string) (start end_ : Z) (w : world) :
  date_fromisoformat start_date = Some start ->
  date_fromisoformat end_date = Some end_ ->
  start <= end_ ->
  Date.min_ordinal <= start -> end_ <= Date.max_ordinal ->
  Z.min (start + (0 - 1)) end_ + 1 = start
  /\ (Date.min_ordinal < start ->
      exists w',
        Tasks.load_historical_rates_task E fuel s t start_date end_date provider (Some 0) w
        = (inr None, w'))
  /\ (start = Date.min_ordinal ->
      Tasks.load_historical_rates_task E (S fuel) s t start_date end_date provider (Some 0) w
      = (inl (Exn OverflowError "date value out of range"), w)).
Proof.
  intros Hstart Hend Hle Hmin Hmax. split; [lia|]. split.
  - intros Hlt.
    destruct (batch_loop_stalls E s t provider end_ Hmax fuel start 0 [] w ltac:(lia))
      as (w' & Hloop).
    exists w'. unfold Tasks.load_historical_rates_task, Tasks.parse_date.
    rewrite Hstart, Hend. unfold bind at 1, ret at 1. unfold bind at 1, ret at 1.
    unfold bind. change (default 30 (Some 0)) with 0. by rewrite Hloop.
  - intros ->. unfold Tasks.load_historical_rates_task, Tasks.parse_date.
    rewrite Hstart, Hend. unfold bind at 1, ret at 1. unfold bind at 1, ret at 1.
    change (default 30 (Some 0)) with 0. cbn [Tasks.batch_loop].
    destruct (Z.leb_spec Date.min_ordinal end_); [|lia].
    reflexivity.
Qed.

End TaskFacts.

Lemma historical_task_batches_witness :
  let E := Ref.env 738900 Ref.offline ["EUR"; "USD"] [Ref.p_mock] in
  let windows := batches (default 30 (Some 3)) 738891 738900 in
  (exists pe w',
     run_batches E "EUR" "USD" None windows 0 [] (Ref.fresh []) = (inr pe, w')
     /\ Tasks.load_historical_rates_task E 11 "EUR" "USD" "2024-01-06" "2024-01-15" None
                                         (Some 3) (Ref.fresh [])
        = (inr (Some (Tasks.mkHistoricalLoad "EUR" "USD" "2024-01-06" "2024-01-15"
                                             (738900 - 738891 + 1) pe.1 pe.2)), w'))
  /\ List.concat (days_of <$> windows) = seqZ 738891 (738900 - 738891 + 1)
  /\ Forall (fun window => 738891 <= window.1 <= window.2 /\ window.2 <= 738900
                           /\ window.2 - window.1 + 1 <= default 30 (Some 3))
            windows.
Proof.
  apply (historical_task_batches (Ref.env 738900 Ref.offline ["EUR"; "USD"] [Ref.p_mock])
           11 "EUR" "USD" "2024-01-06" "2024-01-15" None (Some 3) 738891 738900
           (Ref.fresh [])).
  - vm_compute. reflexivity.
  - vm_compute. reflexivity.
  - simpl. lia.
  - unfold Date.min_ordinal. lia.
  - unfold Date.max_ordinal. simpl. lia.
  - simpl. lia.
Defined.

Lemma historical_task_stalls_witness :
  let E := Ref.env 738900 Ref.offline ["EUR"; "USD"] [Ref.p_mock] in
  Z.min (738899 + (0 - 1)) 738900 + 1 = 738899
  /\ (Date.min_ordinal < 738899 ->
      exists w',
        Tasks.load_historical_rates_task E 25 "EUR" "USD" "2024-01-14" "2024-01-15" None
                                         (Some 0) (Ref.fresh [])
        = (inr None, w'))
  /\ (738899 = Date.min_ordinal ->
      Tasks.load_historical_rates_task E 26 "EUR" "USD" "2024-01-14" "2024-01-15" None
                                       (Some 0) (Ref.fresh [])
      = (inl (Exn OverflowError "date value out of range"), Ref.fresh [])).
Proof.
  apply (historical_task_stalls (Ref.env 738900 Ref.offline ["EUR"; "USD"] [Ref.p_mock])
           25 "EUR" "USD" "2024-01-14" "2024-01-15" None 738899 738900 (Ref.fresh [])).
  - vm_compute. reflexivity.
  - vm_compute. reflexivity.
  - lia.
  - unfold Date.min_ordinal. lia.
  - unfold Date.max_ordinal. lia.
Defined.

Section DailyUpdate.
Context `{RT : PyRuntime}.

Lemma distinct_pairs_cons source codes' codes :
  List.length (List.filter (fun st : string * string => negb (bool_decide (st.1 = st.2)))
                           (list_prod (source :: codes') codes))
  = (List.length (List.filter (fun target => negb (bool_decide (source = target))) codes)
     + List.length (List.filter (fun st : string * string => negb (bool_decide (st.1 = st.2)))
                                (list_prod codes' codes)))%nat.
Proof.
  cbn [list_prod]. rewrite List.filter_app, length_app. f_equal.
  induction codes as [|target codes IH]; [reflexivity|].
  cbn [List.map List.filter fst snd].
  destruct (negb (bool_decide (source = target))); simpl; by rewrite IH.
Qed.

(** The inner loop: it returns, every target other than the source is
    counted once, as updated or as an error, and the table stays without
    duplicate keys. *)
Lemma daily_targets_counts E source today targets :
  forall updated errors w,
  exists ok more w',
    Tasks.daily_targets E source today targets updated errors w
    = (inr (updated + Z.of_nat ok, errors ++ more), w')
    /\ (ok + List.length more
        = List.length (List.filter (fun target => negb (bool_decide (source = target)))
                                   targets))%nat
    /\ (unique_keys (w_rates w) -> unique_keys (w_rates w')).
Proof.
  induction targets as [|target targets IH]; intros updated errors w.
  - exists 0%nat, [], w. simpl. unfold ret. rewrite Z.add_0_r, app_nil_r. by repeat split.
  - cbn [Tasks.daily_targets List.filter].
    destruct (decide (source <> target)) as [Hne|Heq].
    + rewrite bool_decide_eq_false_2 by done. cbn [negb].
      rewrite bind_attempt.
      pose proof (preserves_resolve E source target today None w) as Hu.
      destruct (Service.get_exchange_rate_data E source target today None w)
        as [[e|row] w1]; cbn [fst snd] in *.
      * destruct (IH updated (errors ++ [source +:+ "/" +:+ target +:+ ": " +:+ exn_msg e])
                     w1) as (ok & more & w' & -> & Hcount & Hu').
        exists ok, ((source +:+ "/" +:+ target +:+ ": " +:+ exn_msg e) :: more), w'.
        split; [by rewrite <- app_assoc|]. split; [simpl; lia|auto].
      * destruct (IH (updated + 1) errors w1) as (ok & more & w' & -> & Hcount & Hu').
        exists (S ok), more, w'.
        replace (updated + Z.of_nat (S ok)) with (updated + 1 + Z.of_nat ok) by lia.
        split; [reflexivity|]. split; [simpl; lia|auto].
    + assert (source = target) as <- by (by destruct (decide (source = target)); [|exfalso; apply Heq]).
      rewrite bool_decide_eq_true_2 by done. cbn [negb]. apply IH.
Qed.

Lemma daily_sources_counts E today currencies sources :
  forall updated errors w,
  exists ok more w',
    Tasks.daily_sources E sources currencies today updated errors w
    = (inr (updated + Z.of_nat ok, errors ++ more), w')
    /\ (ok + List.length more
        = List.length (List.filter (fun st : string * string =>
                                      negb (bool_decide (st.1 = st.2)))
                                   (list_prod sources currencies)))%nat
    /\ (unique_keys (w_rates w) -> unique_keys (w_rates w')).
Proof.
  induction sources as [|source sources IH]; intros updated errors w.
  - exists 0%nat, [], w. simpl. unfold ret. rewrite Z.add_0_r, app_nil_r. by repeat split.
  - cbn [Tasks.daily_sources]. unfold bind at 1.
    destruct (daily_targets_counts E source today currencies updated errors w)
      as (ok1 & more1 & w1 & -> & Hcount1 & Hu1).
    cbn [fst snd].
    destruct (IH (updated + Z.of_nat ok1) (errors ++ more1) w1)
      as (ok2 & more2 & w' & -> & Hcount2 & Hu2).
    exists (ok1 + ok2)%nat, (more1 ++ more2), w'. split; [|split].
    + replace (updated + Z.of_nat (ok1 + ok2)%nat)
        with (updated + Z.of_nat ok1 + Z.of_nat ok2) by lia.
      by rewrite app_assoc.
    + rewrite distinct_pairs_cons, length_app. lia.
    + auto.
Qed.

(** X24. [daily_rate_update_task] never raises: a resolution that fails is
    noted in [errors] and the next pair is tried. Every ordered pair of
    different codes of the list (the active currencies when no list is
    given) is tried once, so the pairs counted as updated and the errors add
    up to the number of those pairs; the result is dated today, and the
    stored rates are left without duplicate keys. *)
Theorem daily_update_counts E (active_codes : list string) (currencies : option (list string))
    (w : world) :
  exists result w',
    Tasks.daily_rate_update_task E active_codes currencies w = (inr result, w')
    /\ Tasks.du_date result = Date.isoformat (today E)
    /\ 0 <= Tasks.rates_updated result
    /\ Tasks.rates_updated result + Z.of_nat (List.length (Tasks.du_errors result))
       = Z.of_nat (List.length (distinct_pairs (default active_codes currencies)))
    /\ (unique_keys (w_rates w) -> unique_keys (w_rates w')).
Proof.
  unfold Tasks.daily_rate_update_task, bind.
  destruct (daily_sources_counts E (today E) (default active_codes currencies)
              (default active_codes currencies) 0 [] w)
    as (ok & more & w' & -> & Hcount & Hu).
  unfold ret. cbn [fst snd app].
  eexists _, w'. split; [reflexivity|]. cbn.
  split; [reflexivity|]. split; [lia|]. split; [|exact Hu].
  unfold distinct_pairs. lia.
Qed.

(** A resolution that finds the row of its key stored returns it at once. *)
Lemma resolve_stored E s t d provider row w :
  List.filter (Service.has_key (upper s, upper t, d)) (w_rates w) = [row] ->
  Service.get_exchange_rate_data E s t d provider w = (inr row, w).
Proof.
  intros Hrow. unfold Service.get_exchange_rate_data, bind.
  by rewrite (get_rate_from_db_hit _ _ _ row).
Qed.

Lemma daily_targets_stored E source today targets :
  forall updated errors w,
  (forall target, target ∈ targets -> source <> target ->
     exists row, List.filter (Service.has_key (upper source, upper target, today))
                             (w_rates w) = [row]) ->
  Tasks.daily_targets E source today targets updated errors w
  = (inr (updated
          + Z.of_nat (List.length (List.filter
                                     (fun target => negb (bool_decide (source = target)))
                                     targets)),
          errors), w).
Proof.
  induction targets as [|target targets IH]; intros updated errors w Hstored.
  - simpl. unfold ret. by rewrite Z.add_0_r.
  - cbn [Tasks.daily_targets List.filter].
    destruct (decide (source <> target)) as [Hne|Heq].
    + rewrite bool_decide_eq_false_2 by done. cbn [negb].
      destruct (Hstored target) as (row & Hrow); [by left|done|].
      rewrite bind_attempt, (resolve_stored E source target today None row w Hrow).
      cbn [fst snd]. rewrite IH; [|intros target' Hin; apply Hstored; by right].
      cbn [List.length].
      replace (updated + 1 + Z.of_nat (List.length (List.filter
                 (fun target0 => negb (bool_decide (source = target0))) targets)))
        with (updated + Z.of_nat (S (List.length (List.filter
                 (fun target0 => negb (bool_decide (source = target0))) targets))))
        by lia.
      reflexivity.
    + assert (source = target) as <- by (by destruct (decide (source = target)); [|exfalso; apply Heq]).
      rewrite bool_decide_eq_true_2 by done. cbn [negb]. apply IH.
      intros target' Hin. apply Hstored. by right.
Qed.

Lemma daily_sources_stored E today currencies sources :
  forall updated errors w,
  (forall source target, source ∈ sources -> target ∈ currencies -> source <> target ->
     exists row, List.filter (Service.has_key (upper source, upper target, today))
                             (w_rates w) = [row]) ->
  Tasks.daily_sources E sources currencies today updated errors w
  = (inr (updated
          + Z.of_nat (List.length (List.filter (fun st : string * string =>
                                                  negb (bool_decide (st.1 = st.2)))
                                               (list_prod sources currencies))),
          errors), w).
Proof.
  induction sources as [|source sources IH]; intros updated errors w Hstored.
  - simpl. unfold ret. by rewrite Z.add_0_r.
  - cbn [Tasks.daily_sources]. unfold bind.
    rewrite daily_targets_stored; [|intros target Hin; apply Hstored; [by left|done]].
    cbn [fst snd]. rewrite IH; [|intros source' target Hin; apply Hstored; by right].
    rewrite distinct_pairs_cons, Nat2Z.inj_add, Z.add_assoc. reflexivity.
Qed.

(** X25. [daily_rate_update_task] does not refresh a rate that is stored:
    when, for every ordered pair of different codes of the list, a row for
    today is in the table, the task counts every pair as updated, reports no
    error and leaves the process state as it was; no provider is asked and
    no stored rate changes. *)
Theorem daily_update_keeps_stored E (active_codes : list string)
    (currencies : option (list string)) (w : world) :
  (forall source target,
     source ∈ default active_codes currencies ->
     target ∈ default active_codes currencies -> source <> target ->
     exists row, List.filter (Service.has_key (upper source, upper target, today E))
                             (w_rates w) = [row]) ->
  Tasks.daily_rate_update_task E active_codes currencies w
  = (inr (Tasks.mkDailyUpdate
            (Date.isoformat (today E))
            (Z.of_nat (List.length (distinct_pairs (default active_codes currencies))))
            []), w).
Proof.
  intros Hstored. unfold Tasks.daily_rate_update_task, bind.
  rewrite daily_sources_stored by exact Hstored. reflexivity.
Qed.

End DailyUpdate.

Lemma daily_update_keeps_stored_witness :
  let E := Ref.env 738900 Ref.offline ["EUR"; "USD"] [] in
  let w := set_rates [mkRow "EUR" "USD" 738900 (mkDec 108 (-2));
                      mkRow "USD" "EUR" 738900 (mkDec 93 (-2))] (Ref.fresh []) in
  Tasks.daily_rate_update_task E ["EUR"; "USD"] None w
  = (inr (Tasks.mkDailyUpdate
            (Date.isoformat (today E))
            (Z.of_nat (List.length (distinct_pairs (default ["EUR"; "USD"] None))))
            []), w).
Proof.
  apply (daily_update_keeps_stored (Ref.env 738900 Ref.offline ["EUR"; "USD"] [])
           ["EUR"; "USD"] None).
  intros source target Hs Ht Hne.
  apply elem_of_cons in Hs as [->|Hs]; [|apply list_elem_of_singleton in Hs as ->];
    (apply elem_of_cons in Ht as [->|Ht]; [|apply list_elem_of_singleton in Ht as ->]);
    try contradiction; eexists; reflexivity.
Defined.

(** ** The remote adapter: a /timeseries response with entries *)

Section TimeseriesEntries.
Context `{RT : PyRuntime}.

Lemma cached_for_insert c source target d d' q :
  valuation_date q = d' ->
  cached_for c source target d ->
  cached_for (<[(source, target, d') := q]> c) source target d.
Proof.
  intros Hq (q0 & Hc & Hd). destruct (decide (d' = d)) as [->|Hne].
  - exists q. by rewrite lookup_insert_eq.
  - exists q0. rewrite lookup_insert_ne by congruence. by split.
Qed.

(** The loop over the entries: the quotes of the usable entries, in the
    order of the response, each cached for its own date. *)
Lemma timeseries_entries_quotes source target entries :
  forall results w,
  exists w',
    Beacon.timeseries_entries source target entries results w
    = (inr (results ++ omap (entry_quote source target) entries), w')
    /\ w_sent w' = w_sent w /\ w_slept w' = w_slept w
    /\ (forall d, cached_for (w_cache w) source target d ->
                  cached_for (w_cache w') source target d)
    /\ (forall q, q ∈ omap (entry_quote source target) entries ->
                  cached_for (w_cache w') source target (valuation_date q)).
Proof.
  induction entries as [|[date_str rates] entries IH]; intros results w.
  - exists w. simpl. rewrite app_nil_r. split; [reflexivity|].
    split_and!; try done. intros q Hq. by apply elem_of_nil in Hq.
  - cbn [Beacon.timeseries_entries omap list_omap].
    assert (Hq : entry_quote source target (date_str, rates)
                 = match Beacon.parse_entry_date date_str,
                         Beacon.parse_entry_rate target rates with
                   | Some rate_date, Some rate_value =>
                       Some (mkResult source target rate_date rate_value Beacon.name)
                   | _, _ => None
                   end) by reflexivity.
    rewrite Hq. clear Hq.
    destruct (Beacon.parse_entry_date date_str) as [rate_date|]; [|apply IH].
    destruct (Beacon.parse_entry_rate target rates) as [rate_value|]; [|apply IH].
    unfold bind at 1, Beacon.cache_set, modify.
    set (q0 := mkResult source target rate_date rate_value Beacon.name).
    destruct (IH (results ++ [q0])
                 (set_cache (<[(source, target, rate_date) := q0]> (w_cache w)) w))
      as (w' & -> & Hsent & Hslept & Hkeep & Hnew).
    exists w'. split; [by rewrite <- app_assoc|]. split_and!; try done.
    + intros d Hd. apply Hkeep. simpl. by apply cached_for_insert.
    + intros q Hq. apply elem_of_cons in Hq as [->|Hq]; [|by apply Hnew].
      apply Hkeep. simpl. exists q0. by rewrite lookup_insert_eq.
Qed.

(** X26. A /timeseries response whose rates container is an object with at
    least one usable entry (a key that parses as a date, with or without a
    time part, and a value that is a rate for the target or a bare number)
    is the whole answer of [get_historical_rates]: it returns the quotes of
    the usable entries sorted by date, skipping the others without raising;
    the /timeseries request is the only one sent and there is no sleep; and
    every quote returned is cached for its own date, so a later single-date
    lookup of that date is served from the cache. *)
Theorem timeseries_entries_are_the_answer E (s t : string) (start_date end_date : Z)
    (w : world) (data : list (string * json)) (entries : list (string * json)) :
  start_date <= end_date ->
  start_date <= today E ->
  upstream E (w_sent w)
           (Timeseries (upper s) start_date (Z.min end_date (today E)) (upper t))
  = HttpJson data ->
  items_get "error" data = None ->
  Beacon.timeseries_container data = JDict entries ->
  omap (entry_quote (upper s) (upper t)) entries <> [] ->
  exists w',
    Beacon.get_historical_rates E s t start_date end_date w
    = (inr (sorted_by_date (omap (entry_quote (upper s) (upper t)) entries)), w')
    /\ w_sent w' = w_sent w ++ [Timeseries (upper s) start_date (Z.min end_date (today E))
                                           (upper t)]
    /\ w_slept w' = w_slept w
    /\ (forall q, q ∈ omap (entry_quote (upper s) (upper t)) entries ->
                  cached_for (w_cache w') (upper s) (upper t) (valuation_date q)).
Proof.
  intros Hrange Hstart Hup Herr Hdict Hsome.
  unfold Beacon.get_historical_rates.
  destruct (Z.ltb_spec end_date start_date); [lia|].
  destruct (Z.ltb_spec (today E) start_date); [lia|].
  assert (Hmin : (if today E <? end_date then today E else end_date)
                 = Z.min end_date (today E)).
  { destruct (Z.ltb_spec (today E) end_date); lia. }
  rewrite Hmin. unfold try_except, bind at 1.
  rewrite (make_request_json E _ w data Hup Herr), Hdict. unfold bind.
  match goal with |- context [Beacon.timeseries_entries _ _ _ [] ?w0] =>
    destruct (timeseries_entries_quotes (upper s) (upper t) entries [] w0)
      as (w' & -> & Hsent & Hslept & _ & Hnew) end.
  cbn [app]. destruct (omap (entry_quote (upper s) (upper t)) entries) as [|q quotes] eqn:Hq;
    [done|].
  exists w'. split; [reflexivity|]. by split_and!.
Qed.

End TimeseriesEntries.

Lemma timeseries_entries_are_the_answer_witness :
  let E := Ref.env 738900 Ref.paid_plan [] [] in
  let entries := [("2024-01-15T00:00:00", JNum (mkDec 108 (-2)));
                  ("not a date", JNull);
                  ("2024-01-14", JDict [("USD", JNum (mkDec 107 (-2)))])] in
  exists w',
    Beacon.get_historical_rates E "eur" "usd" 738899 738905 (Ref.fresh [])
    = (inr (sorted_by_date (omap (entry_quote (RT := Ref.runtime) (upper "eur") (upper "usd")) entries)), w')
    /\ w_sent w' = w_sent (Ref.fresh [])
                   ++ [Timeseries (upper "eur") 738899 (Z.min 738905 (today E)) (upper "usd")]
    /\ w_slept w' = w_slept (Ref.fresh [])
    /\ (forall q, q ∈ omap (entry_quote (RT := Ref.runtime) (upper "eur") (upper "usd")) entries ->
                  cached_for (w_cache w') (upper "eur") (upper "usd") (valuation_date q)).
Proof.
  apply (timeseries_entries_are_the_answer (Ref.env 738900 Ref.paid_plan [] [])
           "eur" "usd" 738899 738905 (Ref.fresh [])
           [("response",
             JDict [("2024-01-15T00:00:00", JNum (mkDec 108 (-2)));
                    ("not a date", JNull);
                    ("2024-01-14", JDict [("USD", JNum (mkDec 107 (-2)))])])]).
  - lia.
  - simpl. lia.
  - reflexivity.
  - reflexivity.
  - reflexivity.
  - vm_compute. discriminate.
Defined.

(** The answer of that run: the two usable entries, by date. *)
Example timeseries_entries_run :
  (Beacon.get_historical_rates (Ref.env 738900 Ref.paid_plan [] []) "eur" "usd"
                               738899 738905 (Ref.fresh [])).1
  = inr [mkResult "EUR" "USD" 738899 (mkDec 107 (-2)) "CurrencyBeacon";
         mkResult "EUR" "USD" 738900 (mkDec 108 (-2)) "CurrencyBeacon"].
Proof. reflexivity. Qed.

(** ** The mock adapter among its default currencies, and behind the service *)

Section MockDefaults.
Context `{RT : PyRuntime}.

Import Service.

(** The default table lists every pair of different default currencies, at
    a rate of at most 2. *)
Lemma default_table_complete a b :
  a ∈ default_currencies -> b ∈ default_currencies ->
  a = b \/ exists rate, Mock.DEFAULT_BASE_RATES !! (a, b) = Some rate /\ at_most rate 2.
Proof.
  unfold default_currencies. intros Ha Hb.
  repeat (apply elem_of_cons in Ha as [->|Ha]); [| | | |by apply elem_of_nil in Ha];
    (repeat (apply elem_of_cons in Hb as [->|Hb]); [| | | |by apply elem_of_nil in Hb]);
    first [by left
          | right; eexists; split; [vm_compute; reflexivity|vm_compute; discriminate]].
Qed.

Lemma steady_upper self bound s t :
  steady self bound s t -> steady self bound (upper s) (upper t).
Proof.
  unfold steady, base_rate_of, listed_base_rate, Mock.via_eur. by rewrite !upper_idemp.
Qed.

Lemma within_fits bound q :
  2 * bound * 10 ^ 6 < 10 ^ 18 -> within bound q -> fits_column (rate_value q).
Proof. intros Hb [He Hc]. split; [exact He|lia]. Qed.

Lemma column_below_context bound : 2 * bound * 10 ^ 6 < 10 ^ 18 -> 2 * bound * 10 ^ 6 < 10 ^ 28.
Proof.
  intros Hb. assert (10 ^ 18 < 10 ^ 28) by reflexivity. lia.
Qed.

(** X27. Among EUR, USD, GBP and CHF a mock adapter with the default table
    never draws a base rate at random: every pair of them is an identity
    pair or has a direct entry, so the outcome of a lookup for a pair and a
    date is the same on every instance with that table and volatility, in
    every process state and on every day, whatever was drawn or seeded
    before; it is a quote when the variation of the date is at most 1 in
    magnitude. *)
Theorem mock_default_currencies_reproducible E1 E2 (self : Mock.MockAdapter) (s t : string)
    (d : Z) (w1 w2 : world) :
  Mock.base_rates self = Mock.DEFAULT_BASE_RATES ->
  upper s ∈ default_currencies ->
  upper t ∈ default_currencies ->
  (Mock.get_exchange_rate E1 self s t d w1).1 = (Mock.get_exchange_rate E2 self s t d w2).1
  /\ (at_most (variation self d) 1 ->
      exists q, (Mock.get_exchange_rate E1 self s t d w1).1 = inr q).
Proof.
  intros Htable Hs Ht.
  destruct (default_table_complete (upper s) (upper t) Hs Ht) as [Heq|(rate & Hrate & Hbound)].
  - rewrite !mock_rate_same_currency by done. eauto.
  - destruct (decide (upper s = upper t)) as [Heq|Hne].
    { rewrite !mock_rate_same_currency by done. eauto. }
    assert (Hlisted : listed_base_rate self s t = Some (inr rate)).
    { unfold listed_base_rate. by rewrite Htable, Hrate. }
    split; [by rewrite !(mock_rate_listed _ _ _ _ _ (inr rate)) by done|].
    intros Hvar.
    destruct (mock_rate_steady E1 self s t d 2 w1) as (q & w' & -> & _);
      [lia|reflexivity| |exact Hvar|by exists q].
    right. intros rng. exists rate. unfold base_rate_of. by rewrite Hlisted.
Qed.

(** X28. Behind the service the mock adapter answers for a pair of a base
    rate of at most [bound] (with [2 * bound] within the 12 integer digits
    of the column) on a date of a variation of at most 1: when the first
    active provider is a mock adapter, both currencies are in the Currency
    table and the table of rates has no duplicate keys, resolving a rate
    without naming a provider returns a row stored under the key asked for
    (upper-cased source and target, the date), of which the table then holds
    exactly one; no request is sent. *)
Theorem mock_first_resolve_succeeds E (s t : string) (d : Z) (w : world) (p : Provider)
    (rest : list Provider) (bound : Z) :
  Manager.get_active_providers E = p :: rest ->
  Manager.importable (adapter_path p) = Some MockAdapterClass ->
  adapters_cache_wf w ->
  unique_keys (w_rates w) ->
  upper s ∈ currencies E ->
  upper t ∈ currencies E ->
  1 <= bound -> 2 * bound * 10 ^ 6 < 10 ^ 18 ->
  steady (Mock.configured (provider_config p)) bound s t ->
  at_most (variation (Mock.configured (provider_config p)) d) 1 ->
  exists row w',
    get_exchange_rate_data E s t d None w = (inr row, w')
    /\ row_key row = (upper s, upper t, d)
    /\ row_key <$> List.filter (has_key (upper s, upper t, d)) (w_rates w')
       = [(upper s, upper t, d)]
    /\ w_sent w' = w_sent w.
Proof.
  intros Hactive Himp Hwf Hu Hs Ht Hb0 Hb Hsteady Hvar.
  destruct (filter_has_key_unique (upper s, upper t, d) (w_rates w) Hu)
    as [Hnil|(r & Hone & Hr)].
  - unfold get_exchange_rate_data, bind at 1. rewrite get_rate_from_db_miss by done.
    unfold bind at 1, _fetch_from_provider. cbn [given].
    unfold Manager.execute_with_failover. rewrite Hactive.
    cbn [Manager.failover_loop].
    unfold try_except, Manager.try_provider, bind at 1, Manager.get_adapter_for_provider.
    destruct (get_adapter_spec E (adapter_path p) (provider_config p) MockAdapterClass w
                Himp Hwf) as (w1 & -> & _ & _ & Hsent1 & Hrates1 & _).
    unfold bind at 1, Manager.log_trying, modify.
    cbn [Manager.instance_of Manager.mock_adapter Manager.get_exchange_rate].
    match goal with |- context [Mock.get_exchange_rate E ?self (upper s) (upper t) d ?w0] =>
      destruct (mock_rate_steady E self (upper s) (upper t) d bound w0 Hb0
                  (column_below_context bound Hb) (steady_upper _ _ _ _ Hsteady) Hvar)
        as (q & w2 & -> & (Hqs & Hqt & _) & Hqd & He & Hc & Hsent2 & _ & Hrates2) end.
    rewrite upper_idemp in Hqs, Hqt. simpl in Hsent2, Hrates2.
    assert (Hu2 : unique_keys (w_rates w2)) by by rewrite Hrates2, Hrates1.
    assert (Hfits : fits_column (rate_value q)) by (by apply (within_fits bound)).
    pose proof (save_rate_spec E q w2 Hu2) as Hspec.
    rewrite (stored_rate_fits E _ Hfits) in Hspec.
    destruct Hspec as (rows' & -> & _ & Hf & _); [by rewrite Hqs|by rewrite Hqt|].
    unfold result_key in Hf. rewrite Hqs, Hqt, Hqd in *.
    do 2 eexists. split; [reflexivity|]. unfold row_of. rewrite Hqs, Hqt, Hqd.
    split; [reflexivity|].
    split; [cbn [w_rates set_rates]; rewrite Hf; unfold stored_as; by rewrite Hqs, Hqt, Hqd|].
    simpl. by rewrite Hsent2, Hsent1.
  - exists r, w. split; [|split; [exact Hr|split; [by rewrite Hone, <- Hr|reflexivity]]].
    unfold get_exchange_rate_data, bind. by rewrite (get_rate_from_db_hit _ _ _ r).
Qed.

End MockDefaults.

Lemma mock_default_currencies_reproducible_witness :
  let first := Mock.get_exchange_rate (Ref.env 738900 Ref.offline [] []) Ref.default_mock
                                      "gbp" "chf" 738900 (Ref.fresh []) in
  let other := Mock.get_exchange_rate (Ref.env 738950 Ref.offline [] []) Ref.default_mock
                                      "gbp" "chf" 738900 (Ref.fresh [mkDec 25 (-2)]) in
  first.1 = other.1
  /\ (at_most (variation Ref.default_mock 738900) 1 -> exists q, first.1 = inr q).
Proof.
  apply (mock_default_currencies_reproducible
           (Ref.env 738900 Ref.offline [] []) (Ref.env 738950 Ref.offline [] [])
           Ref.default_mock "gbp" "chf" 738900 (Ref.fresh []) (Ref.fresh [mkDec 25 (-2)])).
  - reflexivity.
  - vm_compute. apply list_elem_of_further, list_elem_of_further, list_elem_of_here.
  - vm_compute. do 3 apply list_elem_of_further. apply list_elem_of_here.
Defined.

Lemma mock_first_resolve_succeeds_witness :
  let E := Ref.env 738900 Ref.offline ["EUR"; "USD"] [Ref.p_mock] in
  exists row w',
    Service.get_exchange_rate_data E "eur" "usd" 738900 None (Ref.fresh []) = (inr row, w')
    /\ row_key row = (upper "eur", upper "usd", 738900)
    /\ row_key <$> List.filter (Service.has_key (upper "eur", upper "usd", 738900))
                               (w_rates w')
       = [(upper "eur", upper "usd", 738900)]
    /\ w_sent w' = w_sent (Ref.fresh []).
Proof.
  apply (mock_first_resolve_succeeds (Ref.env 738900 Ref.offline ["EUR"; "USD"] [Ref.p_mock])
           "eur" "usd" 738900 (Ref.fresh []) Ref.p_mock [] 2).
  - reflexivity.
  - reflexivity.
  - intros path config cls. discriminate.
  - unfold unique_keys. simpl. constructor.
  - vm_compute. apply list_elem_of_here.
  - vm_compute. apply list_elem_of_further, list_elem_of_here.
  - lia.
  - reflexivity.
  - apply (default_mock_steady "eur" "usd" (mkDec 108 (-2))); [reflexivity|].
    vm_compute. discriminate.
  - apply default_mock_tame.
Defined.

(** ** Loading a range through the mock adapter *)

Section MockLoads.
Context `{RT : PyRuntime}.

Import Service.

Lemma filter_bool_all {A} (f : A -> bool) (l : list A) :
  Forall (fun x => f x = true) l -> List.filter f l = l.
Proof.
  induction 1 as [|x l Hx _ IH]; [reflexivity|]. simpl. by rewrite Hx, IH.
Qed.

(** Loading a range of the calendar with the mock adapter as the first
    active provider, both currencies known, a base rate of at most [bound]
    and variations of at most 1: the quotes of the days of the range are
    fetched and stored, the adapter cache stays well formed and the table
    without duplicate keys. *)
Lemma mock_first_load E s t start_date end_date bound w p rest :
  Manager.get_active_providers E = p :: rest ->
  Manager.importable (adapter_path p) = Some MockAdapterClass ->
  adapters_cache_wf w ->
  unique_keys (w_rates w) ->
  upper s ∈ currencies E ->
  upper t ∈ currencies E ->
  1 <= bound -> 2 * bound * 10 ^ 6 < 10 ^ 18 ->
  steady (Mock.configured (provider_config p)) bound s t ->
  tame (Mock.configured (provider_config p)) ->
  Date.min_ordinal <= start_date -> end_date < Date.max_ordinal ->
  exists quotes rows' w2,
    load_historical_rates E s t start_date end_date None w
    = (inr (row_of <$> quotes), set_rates rows' w2)
    /\ dates quotes = seqZ start_date (end_date - start_date + 1)
    /\ Forall (fun q => source_currency q = upper s /\ exchanged_currency q = upper t) quotes
    /\ adapters_cache_wf w2
    /\ unique_keys rows'
    /\ forall k,
         List.filter (has_key k) rows'
         = match last (of_key k quotes) with
           | Some r => [row_of r]
           | None => List.filter (has_key k) (w_rates w)
           end.
Proof.
  intros Hactive Himp Hwf Hu Hs Ht Hb0 Hb Hsteady Htame Hstart Hend.
  unfold load_historical_rates, bind at 1. cbn [given].
  unfold Manager.execute_with_failover. rewrite Hactive.
  cbn [Manager.failover_loop].
  unfold try_except, Manager.try_provider, bind at 1, Manager.get_adapter_for_provider.
  destruct (get_adapter_spec E (adapter_path p) (provider_config p) MockAdapterClass w
              Himp Hwf) as (w1 & -> & Hwf1 & _ & _ & Hrates1 & _).
  unfold bind at 1, Manager.log_trying, modify.
  cbn [Manager.instance_of Manager.mock_adapter Manager.get_historical_rates].
  set (w1' := set_tried (w_tried w1 ++ [name p]) w1).
  set (self := Mock.configured (provider_config p)) in *.
  assert (Hka : keeps w_adapters (Mock.get_historical_rates E self (upper s) (upper t)
                                                          start_date end_date))
    by (apply keeps_mock_historical; done).
  specialize (Hka w1').
  unfold Mock.get_historical_rates in Hka |- *.
  destruct (mock_historical_loop_quotes E self (upper s) (upper t) end_date bound _ Hb0
              (column_below_context bound Hb) (steady_upper _ _ _ _ Hsteady) Htame Hend
              start_date [] w1' Hstart eq_refl)
    as (quotes & w2 & Hloop & Hdates & Hall & Hwithin & _ & _ & Hrates2).
  rewrite Hloop in Hka |- *. cbn [app fst snd] in Hka |- *.
  assert (Hquotes : Forall (fun q => source_currency q = upper s
                                     /\ exchanged_currency q = upper t) quotes).
  { eapply Forall_impl; [exact Hall|]. intros q (Hqs & Hqt & _).
    by rewrite Hqs, Hqt, !upper_idemp. }
  assert (Hknown : List.filter (known E) quotes = quotes).
  { apply filter_bool_all. eapply Forall_impl; [exact Hquotes|].
    intros q [Hqs Hqt]. apply known_true. by rewrite Hqs, Hqt. }
  assert (Hfits : Forall (fun q => fits_column (rate_value q)) quotes).
  { eapply Forall_impl; [exact Hwithin|]. intros q. by apply within_fits. }
  assert (Hu2 : unique_keys (w_rates w2)).
  { rewrite Hrates2. subst w1'. simpl. by rewrite Hrates1. }
  unfold _bulk_save_rates, atomic.
  destruct (bulk_save_loop_spec E quotes [] w2 Hu2) as (rows' & -> & Hu' & Hf).
  { rewrite Hknown. eapply Forall_impl; [exact Hfits|]. intros q. apply accepted_fits. }
  rewrite Hknown in Hf |- *. cbn [app].
  exists quotes, rows', w2. split; [reflexivity|]. split; [exact Hdates|].
  split; [exact Hquotes|]. split; [|split; [exact Hu'|]].
  - intros path config cls. rewrite Hka. subst w1'. simpl. apply Hwf1.
  - intros k. rewrite Hf. destruct (last (of_key k quotes)) as [r|] eqn:Hlast.
    + apply last_Some_elem_of in Hlast. unfold of_key in Hlast.
      apply elem_of_list_filter_bool in Hlast as [Hin _].
      rewrite stored_as_fits; [reflexivity|].
      by apply (proj1 (Forall_forall _ _) Hfits).
    + rewrite Hrates2. subst w1'. simpl. by rewrite Hrates1.
Qed.

(** X29. Loading a range through the mock adapter stores every day of it.
    When the first active provider is a mock adapter whose base rate for the
    pair is at most [bound] (with [2 * bound] within the 12 integer digits
    of the column) and whose variations are at most 1, both currencies are
    in the Currency table, the table of rates has no duplicate keys and the
    range lies in the calendar and ends before its last day,
    [load_historical_rates] without a provider name returns one row per day
    from the start date to the end date, in order, each under the key
    (upper-cased source, upper-cased target, day); afterwards the table has
    no duplicate keys and holds exactly one row under the key of each of
    those days. *)
Theorem mock_first_load_stores_every_day E (s t : string) (start_date end_date : Z)
    (w : world) (p : Provider) (rest : list Provider) (bound : Z) :
  Manager.get_active_providers E = p :: rest ->
  Manager.importable (adapter_path p) = Some MockAdapterClass ->
  adapters_cache_wf w ->
  unique_keys (w_rates w) ->
  upper s ∈ currencies E ->
  upper t ∈ currencies E ->
  1 <= bound -> 2 * bound * 10 ^ 6 < 10 ^ 18 ->
  steady (Mock.configured (provider_config p)) bound s t ->
  tame (Mock.configured (provider_config p)) ->
  Date.min_ordinal <= start_date -> end_date < Date.max_ordinal ->
  exists rows w',
    load_historical_rates E s t start_date end_date None w = (inr rows, w')
    /\ row_key <$> rows
       = (fun d => (upper s, upper t, d)) <$> seqZ start_date (end_date - start_date + 1)
    /\ unique_keys (w_rates w')
    /\ forall d, start_date <= d <= end_date ->
         row_key <$> List.filter (has_key (upper s, upper t, d)) (w_rates w')
         = [(upper s, upper t, d)].
Proof.
  intros Hactive Himp Hwf Hu Hs Ht Hb0 Hb Hsteady Htame Hstart Hend.
  destruct (mock_first_load E s t start_date end_date bound w p rest Hactive Himp Hwf Hu
              Hs Ht Hb0 Hb Hsteady Htame Hstart Hend)
    as (quotes & rows' & w2 & -> & Hdates & Hquotes & _ & Hu' & Hf).
  exists (row_of <$> quotes), (set_rates rows' w2). split; [reflexivity|].
  assert (Hkeys : result_key <$> quotes
                  = (fun d => (upper s, upper t, d)) <$> dates quotes).
  { clear Hdates Hf. induction Hquotes as [|q quotes [Hqs Hqt] _ IH]; [reflexivity|].
    unfold dates in *. rewrite !fmap_cons, IH. unfold result_key. by rewrite Hqs, Hqt. }
  split; [|split; [exact Hu'|]].
  - rewrite <- Hdates, <- Hkeys, <- list_fmap_compose. reflexivity.
  - intros d Hd. cbn [w_rates set_rates]. rewrite Hf.
    assert (Hin : (upper s, upper t, d) ∈ result_key <$> quotes).
    { rewrite Hkeys, Hdates. apply list_elem_of_fmap. exists d. split; [reflexivity|].
      apply elem_of_seqZ. lia. }
    apply list_elem_of_fmap in Hin as (q & Hq & Hin).
    destruct (last (of_key (upper s, upper t, d) quotes)) as [r|] eqn:Hlast.
    + apply last_Some_elem_of in Hlast. unfold of_key in Hlast.
      apply elem_of_list_filter_bool in Hlast as [_ Hr%bool_decide_eq_true].
      cbn [fmap list_fmap]. f_equal. exact Hr.
    + apply last_None in Hlast.
      assert (Hq' : q ∈ of_key (upper s, upper t, d) quotes).
      { unfold of_key. apply elem_of_list_filter_bool. split; [exact Hin|].
        by apply bool_decide_eq_true. }
      rewrite Hlast in Hq'. by apply elem_of_nil in Hq'.
Qed.

(** The loop of the task with the mock adapter first: every batch loads a
    row per day of its window. *)
Lemma batch_loop_mock E s t batch_size end_date bound p rest :
  1 <= batch_size ->
  end_date + batch_size <= Date.max_ordinal ->
  Manager.get_active_providers E = p :: rest ->
  Manager.importable (adapter_path p) = Some MockAdapterClass ->
  upper s ∈ currencies E ->
  upper t ∈ currencies E ->
  1 <= bound -> 2 * bound * 10 ^ 6 < 10 ^ 18 ->
  steady (Mock.configured (provider_config p)) bound s t ->
  tame (Mock.configured (provider_config p)) ->
  forall fuel current_start processed errors w,
  adapters_cache_wf w ->
  unique_keys (w_rates w) ->
  Date.min_ordinal <= current_start ->
  (Z.to_nat (end_date - current_start + 1) < fuel)%nat ->
  exists w',
    Tasks.batch_loop E fuel s t None batch_size end_date current_start processed errors w
    = (inr (Some (processed + Z.max 0 (end_date - current_start + 1), errors)), w')
    /\ adapters_cache_wf w' /\ unique_keys (w_rates w').
Proof.
  intros Hb Hmax Hactive Himp Hs Ht Hb0 Hbound Hsteady Htame.
  induction fuel as [|fuel IH]; intros current_start processed errors w Hwf Hu Hmin Hfuel;
    [lia|].
  destruct (Z.le_gt_cases current_start end_date) as [Hle|Hgt]; cycle 1.
  { cbn [Tasks.batch_loop]. destruct (Z.leb_spec current_start end_date); [lia|].
    exists w. rewrite Z.max_l by lia. rewrite Z.add_0_r. by split. }
  rewrite batch_loop_pass
    by (unfold Date.max_delta_days, Date.min_ordinal, Date.max_ordinal in *; lia).
  cbv zeta.
  set (current_end := Z.min (current_start + (batch_size - 1)) end_date).
  destruct (mock_first_load E s t current_start current_end bound w p rest Hactive Himp
              Hwf Hu Hs Ht Hb0 Hbound Hsteady Htame Hmin)
    as (quotes & rows' & w2 & -> & Hdates & _ & Hwf2 & Hu' & _).
  { subst current_end. lia. }
  cbn [fst snd].
  assert (Hlen : Z.of_nat (List.length (row_of <$> quotes))
                 = current_end - current_start + 1).
  { rewrite length_fmap. rewrite <- (length_fmap valuation_date). fold (dates quotes).
    rewrite Hdates, length_seqZ. subst current_end. lia. }
  rewrite Hlen.
  destruct (IH (current_end + 1) (processed + (current_end - current_start + 1)) errors
               (set_rates rows' w2)) as (w' & -> & Hwf' & Hu'');
    [exact Hwf2|exact Hu'|subst current_end; lia|subst current_end; lia|].
  exists w'. split; [|by split].
  replace (processed + Z.max 0 (end_date - current_start + 1))
    with (processed + (current_end - current_start + 1)
          + Z.max 0 (end_date - (current_end + 1) + 1))
    by (subst current_end; lia).
  reflexivity.
Qed.

(** X30. [load_historical_rates_task] through the mock adapter loads one
    rate per day: with dates that parse, a range of the calendar that ends
    at least a batch before its last day, a batch size of at least 1, no
    provider named, as first active provider a mock adapter whose base rate
    for the pair is at most [bound] (with [2 * bound] within the 12 integer
    digits of the column) and whose variations are at most 1, both
    currencies in the Currency table and no duplicate keys in the table of
    rates, the task reports [rates_loaded] equal to the number of days of
    the range (zero when the start is after the end) and no error, and
    leaves the table without duplicate keys. *)
Theorem mock_first_task_loads_every_day E (fuel : nat) (s t start_date end_date : string)
    (batch_size : option Z) (start end_ : Z) (w : world) (p : Provider)
    (rest : list Provider) (bound : Z) :
  date_fromisoformat start_date = Some start ->
  date_fromisoformat end_date = Some end_ ->
  1 <= default 30 batch_size ->
  Date.min_ordinal <= start ->
  end_ + default 30 batch_size <= Date.max_ordinal ->
  (Z.to_nat (end_ - start + 1) < fuel)%nat ->
  Manager.get_active_providers E = p :: rest ->
  Manager.importable (adapter_path p) = Some MockAdapterClass ->
  adapters_cache_wf w ->
  unique_keys (w_rates w) ->
  upper s ∈ currencies E ->
  upper t ∈ currencies E ->
  1 <= bound -> 2 * bound * 10 ^ 6 < 10 ^ 18 ->
  steady (Mock.configured (provider_config p)) bound s t ->
  tame (Mock.configured (provider_config p)) ->
  exists w',
    Tasks.load_historical_rates_task E fuel s t start_date end_date None batch_size w
    = (inr (Some (Tasks.mkHistoricalLoad s t start_date end_date (end_ - start + 1)
                                         (Z.max 0 (end_ - start + 1)) [])), w')
    /\ unique_keys (w_rates w').
Proof.
  intros Hstart Hend Hb Hmin Hmax Hfuel Hactive Himp Hwf Hu Hs Ht Hb0 Hbound Hsteady Htame.
  destruct (batch_loop_mock E s t (default 30 batch_size) end_ bound p rest Hb Hmax Hactive
              Himp Hs Ht Hb0 Hbound Hsteady Htame fuel start 0 [] w Hwf Hu Hmin Hfuel)
    as (w' & Hloop & _ & Hu').
  exists w'. split; [|exact Hu'].
  unfold Tasks.load_historical_rates_task, Tasks.parse_date. rewrite Hstart, Hend.
  unfold bind at 1, ret at 1. unfold bind at 1, ret at 1. unfold bind.
  by rewrite Hloop.
Qed.

End MockLoads.

Lemma mock_first_load_stores_every_day_witness :
  let E := Ref.env 738900 Ref.offline ["EUR"; "USD"] [Ref.p_mock] in
  exists rows w',
    Service.load_historical_rates E "eur" "usd" 738895 738900 None (Ref.fresh [])
    = (inr rows, w')
    /\ row_key <$> rows
       = (fun d => (upper "eur", upper "usd", d)) <$> seqZ 738895 (738900 - 738895 + 1)
    /\ unique_keys (w_rates w')
    /\ forall d, 738895 <= d <= 738900 ->
         row_key <$> List.filter (Service.has_key (upper "eur", upper "usd", d)) (w_rates w')
         = [(upper "eur", upper "usd", d)].
Proof.
  apply (mock_first_load_stores_every_day
           (Ref.env 738900 Ref.offline ["EUR"; "USD"] [Ref.p_mock])
           "eur" "usd" 738895 738900 (Ref.fresh []) Ref.p_mock [] 2).
  - reflexivity.
  - reflexivity.
  - intros path config cls. discriminate.
  - unfold unique_keys. simpl. constructor.
  - vm_compute. apply list_elem_of_here.
  - vm_compute. apply list_elem_of_further, list_elem_of_here.
  - lia.
  - reflexivity.
  - apply (default_mock_steady "eur" "usd" (mkDec 108 (-2))); [reflexivity|].
    vm_compute. discriminate.
  - apply default_mock_tame.
  - unfold Date.min_ordinal. lia.
  - unfold Date.max_ordinal. lia.
Defined.

Lemma mock_first_task_loads_every_day_witness :
  let E := Ref.env 738900 Ref.offline ["EUR"; "USD"] [Ref.p_mock] in
  exists w',
    Tasks.load_historical_rates_task E 11 "EUR" "USD" "2024-01-06" "2024-01-15" None (Some 3)
                                     (Ref.fresh [])
    = (inr (Some (Tasks.mkHistoricalLoad "EUR" "USD" "2024-01-06" "2024-01-15"
                                         (738900 - 738891 + 1)
                                         (Z.max 0 (738900 - 738891 + 1)) [])), w')
    /\ unique_keys (w_rates w').
Proof.
  apply (mock_first_task_loads_every_day
           (Ref.env 738900 Ref.offline ["EUR"; "USD"] [Ref.p_mock])
           11 "EUR" "USD" "2024-01-06" "2024-01-15" (Some 3) 738891 738900 (Ref.fresh [])
           Ref.p_mock [] 2).
  - vm_compute. reflexivity.
  - vm_compute. reflexivity.
  - simpl. lia.
  - unfold Date.min_ordinal. lia.
  - unfold Date.max_ordinal. simpl. lia.
  - simpl. lia.
  - reflexivity.
  - reflexivity.
  - intros path config cls. discriminate.
  - unfold unique_keys. simpl. constructor.
  - vm_compute. apply list_elem_of_here.
  - vm_compute. apply list_elem_of_further, list_elem_of_here.
  - lia.
  - reflexivity.
  - apply (default_mock_steady "EUR" "USD" (mkDec 108 (-2))); [reflexivity|].
    vm_compute. discriminate.
  - apply default_mock_tame.
Defined.
